(** * Figure browser agent: background agent loop and content script

    A shallow embedding of the extension's two scripts:
    - the background service worker (runAgent, its helpers and the popup
      message listener), and
    - the content script (getLabel, getSelector, collectPageState,
      resolveTarget, performAction),
    over a small model of the JavaScript values they handle, followed by the
    properties proved about them. *)

From Stdlib Require Import String Ascii.
From Stdlib Require Import Bool NArith ZArith QArith Qround Qabs Lia List.
From Stdlib Require Sorted Permutation.
Import ListNotations.

Set Implicit Arguments.
Set Warnings "-register-all".

(** ** JavaScript values *)

Module JS.

(** A JavaScript string is a sequence of UTF-16 code units. *)
Definition str := list N.

Definition lit (s : string) : str :=
  List.map N_of_ascii (list_ascii_of_string s).

Definition str_eqb (a b : str) : bool :=
  if list_eq_dec N.eq_dec a b then true else false.

(** Numbers: the finite doubles are rationals; every operation the scripts
    apply to a number and that this model keeps (comparison, Math.floor,
    Math.round, Math.min, Math.max) is exact on doubles, so it is computed
    on the rational. *)
Inductive num :=
| NaN
| PosInf
| NegInf
| Fin (q : Q).

Definition ofZ (z : Z) : num := Fin (inject_Z z).

Inductive Value :=
| VUndefined
| VNull
| VBool (b : bool)
| VNum (n : num)
| VStr (s : str)
| VArr (items : list Value)
| VObj (fields : list (str * Value)).

Definition VInt (z : Z) : Value := VNum (ofZ z).
Definition VLit (s : string) : Value := VStr (lit s).

(** Results of code that can throw. [Throw] carries the error's message;
    [Stuck] marks an execution this model does not follow to its end. *)
Inductive StuckReason := OutOfFuel | SecondRun | Unsupported.

Inductive Res (A : Type) :=
| Ok (a : A)
| Throw (message : str)
| Stuck (why : StuckReason).

Arguments Ok {A} a.
Arguments Throw {A} message.
Arguments Stuck {A} why.

Definition res_bind {A B} (r : Res A) (k : A -> Res B) : Res B :=
  match r with
  | Ok a => k a
  | Throw m => Throw m
  | Stuck w => Stuck w
  end.

Notation "x <-- c ;;; k" := (res_bind c (fun x => k))
  (at level 61, c at next level, right associativity).

(** What the engine supplies: the digits of a double that is no integer
    (or is 1e21 and more), reading a number from a string, the product of
    two doubles, JSON.parse, Unicode lower-casing and the text of its own
    TypeErrors.
    The scripts are modelled for every engine; [toLowerCase_ascii] is the
    one fact about lower-casing the proofs use. *)
Definition is_upper (c : N) : bool := (65 <=? c)%N && (c <=? 90)%N.
Definition ascii_lower (c : N) : N := if is_upper c then (c + 32)%N else c.
Definition is_ascii (c : N) : bool := (c <? 128)%N.

Class Engine := {
  DoubleToString : Q -> str;
  StringToNumber : str -> num;
  JSON_parse : str -> Res Value;
  toLowerCase : str -> str;
  typeErrorMessage : str -> str;
  Number_mul : num -> num -> num;
  toLowerCase_ascii :
    forall s, forallb is_ascii s = true -> toLowerCase s = List.map ascii_lower s
}.

(** *** Strings *)

(** WhiteSpace and LineTerminator code units: what trim() strips and what
    the regular expression class \s matches. *)
Definition is_ws (c : N) : bool :=
  (existsb (N.eqb c)
     [9; 10; 11; 12; 13; 32; 160; 5760; 8232; 8233; 8239; 8287; 12288; 65279]
   || ((8192 <=? c) && (c <=? 8202)))%N.

Fixpoint dropWhile {A} (p : A -> bool) (l : list A) : list A :=
  match l with
  | [] => []
  | x :: r => if p x then dropWhile p r else l
  end.

Definition trimStart (s : str) : str := dropWhile is_ws s.
Definition trimEnd (s : str) : str := rev (dropWhile is_ws (rev s)).
Definition trim (s : str) : str := trimEnd (trimStart s).

(** s.slice(0, n) for an integer n >= 0. *)
Definition slice0 (n : nat) (s : str) : str := firstn n s.

(** s.slice(i, j) for integers 0 <= i, 0 <= j. *)
Definition slice (i j : nat) (s : str) : str := firstn (j - i) (skipn i s).

(** s.replace(/\s+/g, " ") *)
Fixpoint collapse_from (in_ws : bool) (s : str) : str :=
  match s with
  | [] => []
  | c :: r =>
      if is_ws c then
        if in_ws then collapse_from true r else 32%N :: collapse_from true r
      else c :: collapse_from false r
  end.

Definition collapse_ws (s : str) : str := collapse_from false s.

(** s.indexOf(c) and s.lastIndexOf(c) for a one-unit needle; None is -1. *)
Fixpoint indexOf (c : N) (s : str) : option nat :=
  match s with
  | [] => None
  | x :: r => if N.eqb x c then Some O else option_map S (indexOf c r)
  end.

Definition lastIndexOf (c : N) (s : str) : option nat :=
  match indexOf c (rev s) with
  | Some i => Some (length s - 1 - i)%nat
  | None => None
  end.

(** s.split(",") *)
Fixpoint split_on (c : N) (s : str) : list str :=
  match s with
  | [] => [[]]
  | x :: r =>
      match split_on c r with
      | [] => [[x]]
      | p :: ps => if N.eqb x c then [] :: p :: ps else (x :: p) :: ps
      end
  end.

(** arr.join(sep) on strings *)
Fixpoint join (sep : str) (l : list str) : str :=
  match l with
  | [] => []
  | [x] => x
  | x :: r => x ++ sep ++ join sep r
  end.

(** haystack.includes(needle) *)
Fixpoint prefixb (p s : str) : bool :=
  match p, s with
  | [], _ => true
  | _ :: _, [] => false
  | a :: p', b :: s' => N.eqb a b && prefixb p' s'
  end.

Fixpoint includes (needle hay : str) : bool :=
  prefixb needle hay ||
  match hay with
  | [] => false
  | _ :: r => includes needle r
  end.

(** Decimal digits of a natural number, as code units. *)
Fixpoint digits_fuel (fuel : nat) (n : N) (acc : str) : str :=
  match fuel with
  | O => acc
  | S f =>
      let acc' := (48 + n mod 10)%N :: acc in
      if (n <? 10)%N then acc' else digits_fuel f (n / 10)%N acc'
  end.

Definition N_to_str (n : N) : str := digits_fuel (S (N.to_nat (N.log2 n))) n [].

Definition Z_to_str (z : Z) : str :=
  if (z <? 0)%Z then 45%N :: N_to_str (Z.abs_N z) else N_to_str (Z.abs_N z).

(** *** Numbers *)

Definition isFinite (n : num) : bool :=
  match n with Fin _ => true | _ => false end.

Definition Math_floor (n : num) : num :=
  match n with Fin q => ofZ (Qfloor q) | _ => n end.

Definition Math_round (n : num) : num :=
  match n with Fin q => ofZ (Qfloor (q + (1 # 2))) | _ => n end.

Definition num_leb (a b : num) : bool :=
  match a, b with
  | NaN, _ | _, NaN => false
  | NegInf, _ | _, PosInf => true
  | PosInf, _ | _, NegInf => false
  | Fin x, Fin y => Qle_bool x y
  end.

Definition num_ltb (a b : num) : bool :=
  match a, b with
  | NaN, _ | _, NaN => false
  | PosInf, _ | _, NegInf => false
  | NegInf, _ | _, PosInf => true
  | Fin x, Fin y => negb (Qle_bool y x)
  end.

Definition Math_max (a b : num) : num :=
  match a, b with
  | NaN, _ | _, NaN => NaN
  | _, _ => if num_leb a b then b else a
  end.

Definition Math_min (a b : num) : num :=
  match a, b with
  | NaN, _ | _, NaN => NaN
  | _, _ => if num_leb a b then a else b
  end.

Definition num_is_zero (n : num) : bool :=
  match n with Fin q => Qeq_bool q 0 | _ => false end.

(** *** Values *)

(** ToBoolean *)
Definition truthy (v : Value) : bool :=
  match v with
  | VUndefined | VNull => false
  | VBool b => b
  | VNum NaN => false
  | VNum n => negb (num_is_zero n)
  | VStr s => match s with [] => false | _ => true end
  | VArr _ | VObj _ => true
  end.

Definition nullish (v : Value) : bool :=
  match v with VUndefined | VNull => true | _ => false end.

(** a || b and a ?? b *)
Definition or_else (a b : Value) : Value := if truthy a then a else b.
Definition coalesce (a b : Value) : Value := if nullish a then b else a.

Fixpoint lookup (k : str) (fs : list (str * Value)) : Value :=
  match fs with
  | [] => VUndefined
  | (k', v) :: r => if str_eqb k k' then v else lookup k r
  end.

(** An array index written as a property key: 0, or digits with no leading 0. *)
Fixpoint digits_value (s : str) (acc : N) : option N :=
  match s with
  | [] => Some acc
  | c :: r =>
      if ((48 <=? c) && (c <=? 57))%N then digits_value r (acc * 10 + (c - 48))%N
      else None
  end.

Definition index_of_key (k : str) : option nat :=
  match k with
  | [] => None
  | [48%N] => Some O
  | 48%N :: _ => None
  | _ => option_map N.to_nat (digits_value k 0%N)
  end.

(** v[k] for a value that is neither null nor undefined. Only own
    properties are modelled: none of the names the scripts read (plan, done,
    actions, type, text, value, ok, ...) is inherited from a prototype of
    Object, Array, String, Number or Boolean. *)
Definition getProp (v : Value) (k : str) : Value :=
  match v with
  | VObj fs => lookup k fs
  | VArr l =>
      if str_eqb k (lit "length") then VInt (Z.of_nat (length l))
      else match index_of_key k with
           | Some i => nth i l VUndefined
           | None => VUndefined
           end
  | VStr s =>
      if str_eqb k (lit "length") then VInt (Z.of_nat (length s))
      else match index_of_key k with
           | Some i => match nth_error s i with
                       | Some c => VStr [c]
                       | None => VUndefined
                       end
           | None => VUndefined
           end
  | _ => VUndefined
  end.

(** v?.k *)
Definition optProp (v : Value) (k : str) : Value := getProp v k.

Definition isArray (v : Value) : bool :=
  match v with VArr _ => true | _ => false end.

Definition isString (v : Value) : bool :=
  match v with VStr _ => true | _ => false end.

Section WithEngine.
Context {E : Engine}.

(** v.k, which throws a TypeError on null and undefined. *)
Definition readProp (v : Value) (k : str) : Res Value :=
  if nullish v then Throw (typeErrorMessage k) else Ok (getProp v k).

Definition is_integer (q : Q) : bool := Qeq_bool q (inject_Z (Qfloor q)).

(** Number::toString: an integer below 1e21 prints its decimal digits. *)
Definition NumberToString (n : num) : str :=
  match n with
  | NaN => lit "NaN"
  | PosInf => lit "Infinity"
  | NegInf => lit "-Infinity"
  | Fin q =>
      if is_integer q && (Z.abs (Qfloor q) <? 10 ^ 21)%Z then Z_to_str (Qfloor q)
      else DoubleToString q
  end.

(** ToString, as template literals and Array.prototype.join apply it. *)
Fixpoint ToString (v : Value) : str :=
  match v with
  | VUndefined => lit "undefined"
  | VNull => lit "null"
  | VBool true => lit "true"
  | VBool false => lit "false"
  | VNum n => NumberToString n
  | VStr s => s
  | VArr l =>
      join (lit ",")
        (List.map (fun x => if nullish x then [] else ToString x) l)
  | VObj _ => lit "[object Object]"
  end.

(** ToNumber; an object or array goes through its string form. *)
Definition ToNumber (v : Value) : num :=
  match v with
  | VUndefined => NaN
  | VNull => ofZ 0
  | VBool true => ofZ 1
  | VBool false => ofZ 0
  | VNum n => n
  | VStr s => StringToNumber s
  | VArr _ | VObj _ => StringToNumber (ToString v)
  end.

End WithEngine.

End JS.

(** ** The background script *)

Module Background.
Import JS.

Definition field (k : string) (v : Value) : str * Value := (lit k, v).
Definition dq : str := [34%N].
Definition nl : str := [10%N].

(** *** Constants *)

Definition DEFAULTS_model : Value := VLit "gemini-3-flash-preview".
Definition DEFAULTS_maxSteps : Value := VInt 8.
Definition DEFAULTS_stepDelayMs : Value := VInt 0.
Definition DEFAULTS_fastMode : Value := VBool true.

Definition nullable (ty : string) : Value :=
  VObj [field "type" (VArr [VLit ty; VLit "null"])].

Definition ACTION_TYPES : list str :=
  [lit "click"; lit "type"; lit "scroll"; lit "wait"; lit "key"; lit "finish"].

Definition RESPONSE_SCHEMA : Value :=
  VObj
    [field "type" (VLit "object");
     field "properties"
       (VObj
          [field "plan" (VObj [field "type" (VLit "string")]);
           field "actions"
             (VObj
                [field "type" (VLit "array");
                 field "items"
                   (VObj
                      [field "type" (VLit "object");
                       field "properties"
                         (VObj
                            [field "type"
                               (VObj [field "type" (VLit "string");
                                      field "enum" (VArr (List.map VStr ACTION_TYPES))]);
                             field "selector" (nullable "string");
                             field "text" (nullable "string");
                             field "value" (nullable "string");
                             field "key" (nullable "string");
                             field "direction" (nullable "string");
                             field "amount" (nullable "number");
                             field "ms" (nullable "number");
                             field "reason" (nullable "string")]);
                       field "required" (VArr [VLit "type"]);
                       field "additionalProperties" (VBool false)])]);
           field "done" (VObj [field "type" (VLit "boolean")]);
           field "final" (nullable "string")]);
     field "required" (VArr [VLit "actions"; VLit "done"]);
     field "additionalProperties" (VBool false)].

(** *** State *)

Record RunState := mkRunState {
  running : bool;
  stopRequested : bool;
  tabId : Value;
  logs : list str;
  startedAt : option Z;
  stoppedAt : option Z
}.

Definition initialRunState : RunState :=
  mkRunState false false VNull [] None None.

Record Settings := mkSettings {
  apiKey : Value;
  model : Value;
  maxSteps : Value;
  stepDelayMs : Value;
  fastMode : Value
}.

(** Messages from the popup, as the listener tells them apart by their type. *)
Inductive PopupMsg :=
| POPUP_START (tabId instruction : Value)
| POPUP_STOP
| POPUP_GET_STATUS
| POPUP_CLEAR_LOG
| OtherMessage.

(** Everything the script sends out or asks of the browser, in order. *)
Inductive Event :=
| AGENT_LOG (entry : str)
| AGENT_STATUS (running : bool) (startedAt stoppedAt : option Z) (logs : list str)
| SendResponse (response : Value)
| ImportConfig
| StorageGet
| ExecuteScript (tabId : Value)
| TabsSendMessage (tabId message : Value)
| TabsGet (tabId : Value)
| CaptureVisibleTab (windowId : Value)
| Fetch (url : str) (apiKey body : Value)
| SetTimeout (ms : Value).

(** How a browser call settles, and how fetch answers. *)
Inductive Settled :=
| Fulfilled (v : Value)
| Rejected (message : str).

Inductive FetchReply :=
| NetworkError (message : str)
| Response (ok : bool) (status : Z) (body : str).

(** The browser and the clock, seen from the script: what each call
    answers when it is the t-th interaction of the execution, and which
    popup messages the listener handles while the script is suspended
    there.  A tab answers the message it is sent. *)
Record Env := mkEnv {
  localeTime : nat -> str;
  dateNow : nat -> Z;
  importConfig : nat -> Settled;
  storageGet : nat -> Settled;
  executeScript : nat -> Settled;
  tabsSendMessage : nat -> Value -> Settled;
  tabsGet : nat -> Settled;
  captureVisibleTab : nat -> Settled;
  fetchReply : nat -> FetchReply;
  arrivals : nat -> list PopupMsg
}.

Record Machine := mkMachine {
  runState : RunState;
  cachedEnvKey : option str;
  trace : list Event;
  tick : nat
}.

Definition initialMachine : Machine := mkMachine initialRunState None [] 0.

(** *** The state-and-exception monad of the script *)

Definition M (A : Type) : Type := Machine -> Res A * Machine.

Definition ret {A} (a : A) : M A := fun m => (Ok a, m).

Definition bind {A B} (c : M A) (k : A -> M B) : M B :=
  fun m =>
    match c m with
    | (Ok a, m') => k a m'
    | (Throw e, m') => (Throw e, m')
    | (Stuck w, m') => (Stuck w, m')
    end.

Notation "x <- c ;; k" := (bind c (fun x => k))
  (at level 61, c at next level, right associativity).
Notation "c ;; k" := (bind c (fun _ => k))
  (at level 61, right associativity).

Definition throw {A} (message : str) : M A := fun m => (Throw message, m).
Definition stuck {A} (w : StuckReason) : M A := fun m => (Stuck w, m).

Definition lift {A} (r : Res A) : M A := fun m => (r, m).

(** try { c } catch (error) { h(error.message) } *)
Definition tryCatch {A} (c : M A) (h : str -> M A) : M A :=
  fun m =>
    match c m with
    | (Throw e, m') => h e m'
    | r => r
    end.

Definition getRunState : M RunState := fun m => (Ok (runState m), m).

Definition setRunState (rs : RunState) : M unit :=
  fun m => (Ok tt, mkMachine rs (cachedEnvKey m) (trace m) (tick m)).

Definition emit (e : Event) : M unit :=
  fun m => (Ok tt, mkMachine (runState m) (cachedEnvKey m) (trace m ++ [e]) (tick m)).

(** The index of the next interaction with the browser or the clock. *)
Definition next : M nat :=
  fun m => (Ok (tick m), mkMachine (runState m) (cachedEnvKey m) (trace m) (S (tick m))).

Definition settle (s : Settled) : M Value :=
  match s with
  | Fulfilled v => ret v
  | Rejected e => throw e
  end.

Fixpoint forEach {A} (f : A -> M unit) (l : list A) : M unit :=
  match l with
  | [] => ret tt
  | x :: r => f x ;; forEach f r
  end.

Section Script.
Context {E : Engine} (env : Env).

(** *** Logging and status *)

(** `[${timestamp}] ${entry}` *)
Definition stamp (t : nat) (entry : str) : str :=
  lit "[" ++ localeTime env t ++ lit "] " ++ entry.

Definition log (entry : str) : M unit :=
  t <- next ;;
  let line := stamp t entry in
  rs <- getRunState ;;
  setRunState (mkRunState (running rs) (stopRequested rs) (tabId rs)
                 (logs rs ++ [line]) (startedAt rs) (stoppedAt rs)) ;;
  emit (AGENT_LOG line).

Definition sendStatus : M unit :=
  rs <- getRunState ;;
  emit (AGENT_STATUS (running rs) (startedAt rs) (stoppedAt rs) (logs rs)).

Definition optZ (o : option Z) : Value :=
  match o with Some z => VInt z | None => VNull end.

(** *** The popup message listener *)

(** The first statement of runAgent: a start while a run is in progress is
    logged and dropped. *)
Definition alreadyRunning : M bool :=
  rs <- getRunState ;;
  if running rs then log (lit "Agent already running.") ;; ret true
  else ret false.

(** The listener, as it runs while runAgent is suspended at an await.  A
    POPUP_START calls runAgent, which returns at once when a run is in
    progress; when none is, a second runAgent would begin beside the
    suspended one, and the model stops there. *)
Definition onMessage (message : PopupMsg) : M unit :=
  match message with
  | POPUP_START _ _ =>
      busy <- alreadyRunning ;;
      (if busy then ret tt else stuck SecondRun) ;;
      emit (SendResponse (VObj [field "ok" (VBool true)]))
  | POPUP_STOP =>
      rs <- getRunState ;;
      setRunState (mkRunState (running rs) true (tabId rs) (logs rs)
                     (startedAt rs) (stoppedAt rs)) ;;
      sendStatus ;;
      emit (SendResponse (VObj [field "ok" (VBool true)]))
  | POPUP_GET_STATUS =>
      rs <- getRunState ;;
      emit (SendResponse
              (VObj [field "running" (VBool (running rs));
                     field "logs" (VArr (List.map VStr (logs rs)));
                     field "startedAt" (optZ (startedAt rs));
                     field "stoppedAt" (optZ (stoppedAt rs))]))
  | POPUP_CLEAR_LOG =>
      rs <- getRunState ;;
      setRunState (mkRunState (running rs) (stopRequested rs) (tabId rs) []
                     (startedAt rs) (stoppedAt rs)) ;;
      sendStatus ;;
      emit (SendResponse (VObj [field "ok" (VBool true)]))
  | OtherMessage => ret tt
  end.

(** An await: the script is suspended, the listener handles what arrives,
    and the script resumes with the answer. *)
Definition resume {A} (answer : nat -> A) : M A :=
  t <- next ;;
  forEach onMessage (arrivals env t) ;;
  ret (answer t).

Definition await {A} (request : Event) (answer : nat -> A) : M A :=
  emit request ;; resume answer.

(** *** Helpers of the agent loop *)

Definition setCachedEnvKey (k : str) : M unit :=
  fun m => (Ok tt, mkMachine (runState m) (Some k) (trace m) (tick m)).

Definition loadEnvApiKey : M str :=
  cached <- (fun m => (Ok (cachedEnvKey m), m)) ;;
  match cached with
  | Some key => ret key
  | None =>
      tryCatch
        (settled <- await ImportConfig (importConfig env) ;;
         mod_ <- settle settled ;;
         key_ <- lift (readProp mod_ (lit "GEMINI_API_KEY")) ;;
         let key := match key_ with VStr k => trim k | _ => [] end in
         setCachedEnvKey key ;;
         ret key)
        (fun _ => setCachedEnvKey [] ;; ret [])
  end.

Definition getSettings : M Settings :=
  envApiKey <- loadEnvApiKey ;;
  settled <- await StorageGet (storageGet env) ;;
  data <- settle settled ;;
  apiKey_ <- (if truthy (VStr envApiKey) then ret (VStr envApiKey)
              else k <- lift (readProp data (lit "apiKey")) ;;
                   ret (or_else k (VStr []))) ;;
  model_ <- lift (readProp data (lit "model")) ;;
  maxSteps_ <- lift (readProp data (lit "maxSteps")) ;;
  stepDelayMs_ <- lift (readProp data (lit "stepDelayMs")) ;;
  fastMode_ <- lift (readProp data (lit "fastMode")) ;;
  ret (mkSettings apiKey_
         (or_else model_ DEFAULTS_model)
         (coalesce maxSteps_ DEFAULTS_maxSteps)
         (coalesce stepDelayMs_ DEFAULTS_stepDelayMs)
         (coalesce fastMode_ DEFAULTS_fastMode)).

Definition ensureContentScript (tabId : Value) : M bool :=
  tryCatch
    (settled <- await (ExecuteScript tabId) (executeScript env) ;;
     settle settled ;;
     ret true)
    (fun message =>
       log (lit "Failed to inject content script: " ++ message) ;;
       ret false).

(** sendToTab, after the message has been sent: the response, the
    browser's lastError or the 8 second timeout (both rejections). *)
Definition sendToTab_result (message : Value) : M Value :=
  settled <- resume (fun t => tabsSendMessage env t message) ;;
  settle settled.

Definition sendToTab (tabId message : Value) : M Value :=
  emit (TabsSendMessage tabId message) ;; sendToTab_result message.

Definition captureScreenshot (tabId : Value) : M Value :=
  settled <- await (TabsGet tabId) (tabsGet env) ;;
  tab <- settle settled ;;
  windowId <- lift (readProp tab (lit "windowId")) ;;
  settled' <- await (CaptureVisibleTab windowId) (captureVisibleTab env) ;;
  dataUrl <- settle settled' ;;
  if negb (truthy dataUrl) then ret VNull
  else match dataUrl with
       | VStr s =>
           let base64 := match split_on 44%N s with
                         | _ :: b :: _ => VStr b
                         | _ => VUndefined
                         end in
           ret (or_else base64 VNull)
       | _ => throw (typeErrorMessage (lit "split"))
       end.

(** *** buildPrompt *)

Definition res_ret {A} (a : A) : Res A := Ok a.

Definition elementLine (index : nat) (el : Value) : Res str :=
  label_ <-- readProp el (lit "label") ;;;
  label <-- (if truthy label_ then
               match label_ with
               | VStr l => Ok (lit " label=" ++ dq ++ collapse_ws l ++ dq)
               | _ => Throw (typeErrorMessage (lit "replace"))
               end
             else Ok []) ;;;
  rect <-- Ok (getProp el (lit "rect")) ;;;
  x <-- readProp rect (lit "x") ;;;
  Ok (lit "[" ++ NumberToString (ofZ (Z.of_nat index + 1)) ++ lit "] <"
      ++ ToString (getProp el (lit "tag")) ++ lit ">" ++ label
      ++ lit " selector=" ++ dq ++ ToString (getProp el (lit "selector")) ++ dq
      ++ lit " rect=" ++ ToString x
      ++ lit "," ++ ToString (getProp rect (lit "y"))
      ++ lit "," ++ ToString (getProp rect (lit "width"))
      ++ lit "x" ++ ToString (getProp rect (lit "height"))).

Fixpoint mapLines (index : nat) (els : list Value) : Res (list str) :=
  match els with
  | [] => Ok []
  | el :: r =>
      line <-- elementLine index el ;;;
      lines <-- mapLines (S index) r ;;;
      Ok (line :: lines)
  end.

Definition buildPrompt (instruction state : Value) (step : Z) (maxSteps : Value)
    (hasScreenshot : bool) : Res str :=
  elements_ <-- readProp state (lit "elements") ;;;
  let safeElements := match elements_ with VArr l => l | _ => [] end in
  viewport <-- Ok (getProp state (lit "viewport")) ;;;
  width <-- readProp viewport (lit "width") ;;;
  let header :=
    lit "Task: " ++ ToString instruction ++ nl
    ++ lit "Step: " ++ NumberToString (ofZ step) ++ lit "/" ++ ToString maxSteps ++ nl
    ++ lit "URL: " ++ ToString (getProp state (lit "url")) ++ nl
    ++ lit "Title: " ++ ToString (getProp state (lit "title")) ++ nl
    ++ lit "Viewport: " ++ ToString width ++ lit "x"
    ++ ToString (getProp viewport (lit "height"))
    ++ lit " (scroll " ++ ToString (getProp viewport (lit "scrollX"))
    ++ lit "," ++ ToString (getProp viewport (lit "scrollY")) ++ lit ")" in
  let screenshotNote :=
    if hasScreenshot then lit "A screenshot of the current viewport is provided."
    else lit "No screenshot is available; rely on the element list and text." in
  lines <-- mapLines 0 (firstn 80 safeElements) ;;;
  let elementLines := join nl lines in
  let rules :=
    join (lit " ")
      [lit "You are a browser automation agent.";
       lit "Use the elements list (selectors + labels) to decide the next actions.";
       screenshotNote;
       lit "Return only JSON that matches the schema. No extra commentary.";
       lit "Allowed action types: click, type, scroll, wait, key, finish.";
       lit "For click/type, prefer selector. Use text only when selector is unavailable.";
       lit "If the task is complete, set done=true and provide final summary in 'final'.";
       lit "Avoid destructive actions (delete, submit payment) unless the task explicitly asks.";
       lit "If you get a multiple choice step, click 5-6 correct button simultaneously and then submit."] in
  let snippet := getProp state (lit "textSnippet") in
  let textSnippet :=
    if truthy snippet then lit "Page text snippet:" ++ nl ++ ToString snippet else [] in
  Ok (header ++ nl ++ nl ++ rules ++ nl ++ nl ++ lit "Interactive elements:" ++ nl
      ++ elementLines ++ nl ++ nl ++ textSnippet).

(** *** The decision client *)

Definition callGemini (apiKey model : Value) (promptText : str)
    (screenshotBase64 : Value) : M Value :=
  let parts :=
    VObj [field "text" (VStr promptText)]
    :: (if truthy screenshotBase64 then
          [VObj [field "inline_data"
                   (VObj [field "mime_type" (VLit "image/png");
                          field "data" screenshotBase64])]]
        else []) in
  let body :=
    VObj [field "contents"
            (VArr [VObj [field "role" (VLit "user"); field "parts" (VArr parts)]]);
          field "generationConfig"
            (VObj [field "temperature" (VNum (Fin (2 # 10)));
                   field "responseMimeType" (VLit "application/json");
                   field "responseJsonSchema" RESPONSE_SCHEMA])] in
  let url :=
    lit "https://generativelanguage.googleapis.com/v1beta/models/"
    ++ ToString model ++ lit ":generateContent" in
  response <- await (Fetch url apiKey body) (fetchReply env) ;;
  match response with
  | NetworkError message => throw message
  | Response ok status text =>
      if negb ok then
        throw (lit "Gemini API error (" ++ NumberToString (ofZ status) ++ lit "): " ++ text)
      else lift (JSON_parse text)
  end.

Fixpoint partTexts (parts : list Value) : Res (list Value) :=
  match parts with
  | [] => Ok []
  | part :: r =>
      t <-- readProp part (lit "text") ;;;
      ts <-- partTexts r ;;;
      Ok (or_else t (VStr []) :: ts)
  end.

Definition extractResponseText (response : Value) : Res str :=
  let parts :=
    or_else
      (optProp (optProp (optProp (optProp response (lit "candidates")) (lit "0"))
                  (lit "content")) (lit "parts"))
      (VArr []) in
  match parts with
  | VArr l =>
      ts <-- partTexts l ;;;
      Ok (join [] (List.map (fun x => if nullish x then [] else ToString x) ts))
  | _ => Throw (typeErrorMessage (lit "map"))
  end.

Definition JSON_parse_retry (raw : str) : Res Value :=
  match JSON_parse raw with
  | Throw error =>
      match indexOf 123%N raw, lastIndexOf 125%N raw with
      | Some start, Some end_ => JSON_parse (slice start (end_ + 1) raw)
      | _, _ => Throw error
      end
  | r => r
  end.

Definition parseAgentResponse (response : Value) : Res Value :=
  raw <-- extractResponseText response ;;;
  match raw with
  | [] => Throw (lit "Empty response from model")
  | _ => JSON_parse_retry raw
  end.

Definition sleep (ms : Value) : M unit :=
  await (SetTimeout ms) (fun _ => tt).

(** *** runAgent *)

Definition collectOptionsOf (settings : Settings) : Value :=
  if truthy (fastMode settings)
  then VObj [field "maxElements" (VInt 60); field "maxText" (VInt 0)]
  else VObj [field "maxElements" (VInt 120); field "maxText" (VInt 4000)].

Definition COLLECT_STATE (options : Value) : Value :=
  VObj [field "type" (VLit "COLLECT_STATE"); field "options" options].

Definition PERFORM_ACTION (action : Value) : Value :=
  VObj [field "type" (VLit "PERFORM_ACTION"); field "action" action].

(** The body of the first try block of a step: the state request and, out
    of fast mode, the screenshot are started together and joined.  The
    model runs the screenshot to its end before it takes the state's
    answer, one of the orders in which the two can settle. *)
Definition collect (settings : Settings) (collectOptions tabId : Value)
    : M (Value * Value) :=
  emit (TabsSendMessage tabId (COLLECT_STATE collectOptions)) ;;
  screenshotResult <-
    (if truthy (fastMode settings) then ret VNull
     else tryCatch (captureScreenshot tabId)
            (fun message =>
               log (lit "Screenshot failed: " ++ message) ;; ret VNull)) ;;
  stateResult <- sendToTab_result (COLLECT_STATE collectOptions) ;;
  ret (stateResult, screenshotResult).

(** One turn of the loop over the actions of a decision, after the stop
    check. *)
Definition performOne (settings : Settings) (tabId action : Value) : M unit :=
  type_ <- lift (readProp action (lit "type")) ;;
  log (lit "Action: " ++ ToString type_) ;;
  tryCatch
    (result <- sendToTab tabId (PERFORM_ACTION action) ;;
     if truthy (optProp result (lit "ok"))
     then log (lit "Result: " ++ ToString (getProp result (lit "result")))
     else log (lit "Action failed: "
               ++ ToString (or_else (optProp result (lit "error"))
                              (VLit "unknown error"))))
    (fun message => log (lit "Action error: " ++ message)) ;;
  sleep (stepDelayMs settings).

Fixpoint performActions (settings : Settings) (tabId : Value)
    (actions : list Value) : M unit :=
  match actions with
  | [] => ret tt
  | action :: rest =>
      rs <- getRunState ;;
      if stopRequested rs then ret tt
      else performOne settings tabId action ;;
           performActions settings tabId rest
  end.

Inductive Flow := Break | Continue.

(** try { c } catch (error) { h(error.message); break } *)
Definition orBreak {A} (c : M A) (h : str -> M unit) : M (option A) :=
  tryCatch (a <- c ;; ret (Some a)) (fun message => h message ;; ret None).

(** The body of the loop over steps. *)
Definition stepBody (settings : Settings) (collectOptions tabId instruction : Value)
    (step : Z) : M Flow :=
  rs <- getRunState ;;
  if stopRequested rs then ret Break else
  log (lit "Collecting state (step " ++ NumberToString (ofZ step) ++ lit "/"
       ++ ToString (maxSteps settings) ++ lit ")...") ;;
  perceived <- orBreak (collect settings collectOptions tabId)
                 (fun message => log (lit "State collection failed: " ++ message)) ;;
  match perceived with
  | None => ret Break
  | Some (state, screenshot) =>
  promptText <- lift (buildPrompt instruction state step (maxSteps settings)
                        (truthy screenshot)) ;;
  called <- orBreak (callGemini (apiKey settings) (model settings) promptText screenshot)
              (fun message => log message) ;;
  match called with
  | None => ret Break
  | Some modelResponse =>
  parsed <- orBreak (lift (parseAgentResponse modelResponse))
              (fun message => log (lit "Failed to parse model JSON: " ++ message)) ;;
  match parsed with
  | None => ret Break
  | Some agentResponse =>
  plan <- lift (readProp agentResponse (lit "plan")) ;;
  (if truthy plan then log (lit "Plan: " ++ ToString plan) else ret tt) ;;
  if truthy (getProp agentResponse (lit "done")) then
    log (lit "Done: "
         ++ ToString (or_else (getProp agentResponse (lit "final"))
                        (VLit "Task completed."))) ;;
    ret Break
  else
    let actions := match getProp agentResponse (lit "actions") with
                   | VArr l => l
                   | _ => []
                   end in
    match actions with
    | [] => log (lit "No actions returned. Stopping.") ;; ret Break
    | _ => performActions settings tabId actions ;; ret Continue
    end
  end end end.

(** for (let step = ...; step <= settings.maxSteps; step += 1).  The loop
    has no bound of its own (maxSteps may be Infinity), so the model takes
    fuel: one unit per turn. *)
Fixpoint agentLoop (fuel : nat) (settings : Settings)
    (collectOptions tabId instruction : Value) (step : Z) : M unit :=
  if num_leb (ofZ step) (ToNumber (maxSteps settings)) then
    match fuel with
    | O => stuck OutOfFuel
    | S fuel' =>
        flow <- stepBody settings collectOptions tabId instruction step ;;
        match flow with
        | Break => ret tt
        | Continue =>
            agentLoop fuel' settings collectOptions tabId instruction (step + 1)
        end
    end
  else ret tt.

(** The statements after the loop. *)
Definition finishRun : M unit :=
  t <- next ;;
  rs <- getRunState ;;
  setRunState (mkRunState false false (tabId rs) (logs rs) (startedAt rs)
                 (Some (dateNow env t))) ;;
  sendStatus ;;
  log (lit "Agent stopped.").

Definition startRun (tabId : Value) : M unit :=
  t <- next ;;
  rs <- getRunState ;;
  setRunState (mkRunState true false tabId (logs rs) (Some (dateNow env t)) None) ;;
  sendStatus.

Definition runAgent (fuel : nat) (tabId instruction : Value) : M unit :=
  busy <- alreadyRunning ;;
  if busy then ret tt else
  settings <- getSettings ;;
  if negb (truthy (apiKey settings)) then
    log (lit "Missing API key. Add it in the popup or generate config.js.")
  else
    startRun tabId ;;
    let collectOptions := collectOptionsOf settings in
    log (lit "Injecting content script...") ;;
    injected <- ensureContentScript tabId ;;
    if negb injected then
      rs <- getRunState ;;
      setRunState (mkRunState false (stopRequested rs) (Background.tabId rs) (logs rs)
                     (startedAt rs) (stoppedAt rs))
    else
      agentLoop fuel settings collectOptions tabId instruction 1 ;;
      finishRun.

(** *** Vocabulary of the properties *)

(** A message to the popup that does not report an idle agent. *)
Definition told (e : Event) : Prop :=
  match e with
  | AGENT_LOG _ | SendResponse _ => True
  | AGENT_STATUS r _ _ _ => r = true
  | _ => False
  end.

(** What the listener sends while a run is in progress: the log line of a
    refused start, a status that reports the run, a response. *)
Definition reported (e : Event) : Prop :=
  (exists t, e = AGENT_LOG (stamp t (lit "Agent already running.")))
  \/ (exists a b c, e = AGENT_STATUS true a b c)
  \/ (exists v, e = SendResponse v).

(** Any event but a status that reports an idle agent. *)
Definition busy (e : Event) : Prop :=
  match e with
  | AGENT_STATUS false _ _ _ => False
  | _ => True
  end.

Definition is_call (e : Event) : bool :=
  match e with
  | AGENT_LOG _ | SendResponse _ | AGENT_STATUS _ _ _ _ => false
  | _ => true
  end.

(** The requests to the browser among some events. *)
Definition calls (evs : list Event) : list Event := filter is_call evs.

Definition is_stop (msg : PopupMsg) : bool :=
  match msg with POPUP_STOP => true | _ => false end.

Definition stopArrives (msgs : list PopupMsg) : bool := existsb is_stop msgs.

(** No stop request ever arrives. *)
Definition neverStopped : Prop := forall t, stopArrives (arrivals env t) = false.

(** What holds of the machine from one point of a run in progress to a
    later one: the run is still in progress, its tab and times are the
    same, and it has not been asked to stop if it had not been and no
    stop request ever arrives. *)
Definition kept (m m' : Machine) : Prop :=
  running (runState m') = true
  /\ tabId (runState m') = tabId (runState m)
  /\ startedAt (runState m') = startedAt (runState m)
  /\ stoppedAt (runState m') = stoppedAt (runState m)
  /\ (neverStopped -> stopRequested (runState m) = false ->
      stopRequested (runState m') = false).

(** c, started on m during a run, ends with r on m', having sent the
    events evs, none of them the status of an idle agent. *)
Definition run_to {A} (c : M A) (m : Machine) (r : Res A) (m' : Machine)
    (evs : list Event) : Prop :=
  c m = (r, m')
  /\ kept m m'
  /\ trace m' = trace m ++ evs
  /\ Forall busy evs.

(** c, started on m during a run, ends as Q says. *)
Definition runs {A} (c : M A) (m : Machine)
    (Q : Res A -> Machine -> list Event -> Prop) : Prop :=
  exists r m' evs, run_to c m r m' evs /\ Q r m' evs.

(** What a failed computation hands to the one that was to follow. *)
Definition recast {A B} (r : Res A) : Res B :=
  match r with
  | Ok _ => Stuck OutOfFuel
  | Throw e => Throw e
  | Stuck w => Stuck w
  end.

Definition settled (s : Settled) : Res Value :=
  match s with
  | Fulfilled v => Ok v
  | Rejected e => Throw e
  end.

(** The state of an agent that has finished a run. *)
Definition idle (rs : RunState) : Prop :=
  running rs = false /\ stopRequested rs = false /\ stoppedAt rs <> None.

Definition res_map {A B} (f : A -> B) (r : Res A) : Res B :=
  match r with
  | Ok a => Ok (f a)
  | Throw e => Throw e
  | Stuck w => Stuck w
  end.

Definition not_stuck {A} (r : Res A) : Prop :=
  match r with Stuck _ => False | _ => True end.

(** What callGemini makes of the answer to its fetch. *)
Definition geminiResult (reply : FetchReply) : Res Value :=
  match reply with
  | NetworkError message => Throw message
  | Response ok status text =>
      if negb ok then
        Throw (lit "Gemini API error (" ++ NumberToString (ofZ status) ++ lit "): " ++ text)
      else JSON_parse text
  end.

(** The events of a screenshot: the request for the tab, then the
    capture if it came to that, among what the listener sent. *)
Definition shot_events (tabId : Value) (evs : list Event) : Prop :=
  exists evs', evs = TabsGet tabId :: evs'
               /\ Forall (fun e => reported e \/ exists w, e = CaptureVisibleTab w) evs'.

(** The log entry for the outcome of an action. *)
Definition outcome_entry (entry : str) : Prop :=
  exists x, entry = lit "Result: " ++ x
            \/ entry = lit "Action failed: " ++ x
            \/ entry = lit "Action error: " ++ x.

(** The events of one action: its log line, its message to the tab, the
    log line of its outcome and the delay, among what the listener sent. *)
Definition action_events (settings : Settings) (tabId action : Value)
    (evs : list Event) : Prop :=
  exists t1 t2 outcome evs1 evs2,
    evs = AGENT_LOG (stamp t1 (lit "Action: " ++ ToString (getProp action (lit "type"))))
          :: TabsSendMessage tabId (PERFORM_ACTION action)
          :: evs1 ++ AGENT_LOG (stamp t2 outcome)
          :: SetTimeout (stepDelayMs settings) :: evs2
    /\ Forall reported evs1 /\ Forall reported evs2 /\ outcome_entry outcome.

(** The requests a run with these settings makes from its loop. *)
Definition loop_call (settings : Settings) (collectOptions tabId : Value)
    (e : Event) : Prop :=
  e = TabsSendMessage tabId (COLLECT_STATE collectOptions)
  \/ (truthy (fastMode settings) = false
      /\ (e = TabsGet tabId \/ exists w, e = CaptureVisibleTab w))
  \/ (exists u body, e = Fetch u (apiKey settings) body)
  \/ (exists a, e = TabsSendMessage tabId (PERFORM_ACTION a))
  \/ e = SetTimeout (stepDelayMs settings).

(** The requests of one turn of the loop that perceives, decides and
    executes one action, and of n such turns. *)
Definition shot_call (tabId : Value) (e : Event) : Prop :=
  e = TabsGet tabId \/ exists w, e = CaptureVisibleTab w.

Definition cycle (settings : Settings) (collectOptions tabId : Value)
    (cs : list Event) : Prop :=
  exists shots u body action,
    cs = TabsSendMessage tabId (COLLECT_STATE collectOptions)
         :: shots
         ++ [Fetch u (apiKey settings) body;
             TabsSendMessage tabId (PERFORM_ACTION action);
             SetTimeout (stepDelayMs settings)]
    /\ Forall (shot_call tabId) shots.

Fixpoint cycles (settings : Settings) (collectOptions tabId : Value) (n : nat)
    (cs : list Event) : Prop :=
  match n with
  | O => cs = []
  | S n' =>
      exists c rest, cs = c ++ rest
                     /\ cycle settings collectOptions tabId c
                     /\ cycles settings collectOptions tabId n' rest
  end.

(** An environment in which every turn succeeds: no stop request
    arrives, the page answers every state request with a state the
    prompt can be built from, and the model answers every call with a
    decision that is not done and holds exactly one action. *)
Definition cooperative (settings : Settings) (instruction : Value) : Prop :=
  neverStopped
  /\ (forall t opts,
        exists state,
          tabsSendMessage env t (COLLECT_STATE opts) = Fulfilled state
          /\ forall step shot,
               exists p, buildPrompt instruction state step (maxSteps settings) shot = Ok p)
  /\ (forall t,
        exists response decision action,
          geminiResult (fetchReply env t) = Ok response
          /\ parseAgentResponse response = Ok decision
          /\ nullish decision = false
          /\ truthy (getProp decision (lit "done")) = false
          /\ getProp decision (lit "actions") = VArr [action]
          /\ nullish action = false).

Definition loop_event (settings : Settings) (collectOptions tabId : Value)
    (e : Event) : Prop :=
  told e \/ loop_call settings collectOptions tabId e.

End Script.

End Background.

(** ** The content script *)

Module Content.
Import JS.

(** *** The document *)

Record Rect := mkRect { rx : Q; ry : Q; rwidth : Q; rheight : Q }.

(** What the browser computes for an element: the computed style values
    isVisible reads, the bounding box, the rendered text (undefined on
    elements that have none, SVG elements for one), isContentEditable. *)
Record Layout := mkLayout {
  visibility : str;
  display : str;
  opacity : str;
  rect : Rect;
  innerText : option str;
  isContentEditable : bool
}.

(** Elements are HTML elements: attribute names and the local name are
    as the parser leaves them, and tagName is the local name in ASCII
    upper case. *)
Inductive Node :=
| Elem (localName : str) (attrs : list (str * str)) (layout : Layout)
       (children : list Node)
| Text (data : str).

Record Page := mkPage {
  href : str;
  title : str;
  innerWidth : num;
  innerHeight : num;
  scrollX : num;
  scrollY : num;
  html : Node
}.

(** An element is named by the child indices that lead to it from the
    root element. *)
Definition Path := list nat.

Definition path_eqb (p q : Path) : bool :=
  if list_eq_dec Nat.eq_dec p q then true else false.

Definition childrenOf (n : Node) : list Node :=
  match n with Elem _ _ _ c => c | Text _ => [] end.

Definition isElement (n : Node) : bool :=
  match n with Elem _ _ _ _ => true | Text _ => false end.

Fixpoint nodeAt (n : Node) (p : Path) : option Node :=
  match p with
  | [] => Some n
  | i :: r =>
      match nth_error (childrenOf n) i with
      | Some c => nodeAt c r
      | None => None
      end
  end.

Definition elementAt (n : Node) (p : Path) : option Node :=
  match nodeAt n p with
  | Some (Elem a b c d) => Some (Elem a b c d)
  | _ => None
  end.

(** The elements below and including a node, in document order. *)
Fixpoint elementsFrom (n : Node) (p : Path) : list Path :=
  match n with
  | Text _ => []
  | Elem _ _ _ cs =>
      p :: (fix go (l : list Node) (i : nat) : list Path :=
              match l with
              | [] => []
              | c :: r => elementsFrom c (p ++ [i]) ++ go r (S i)
              end) cs 0%nat
  end.

Definition allElements (pg : Page) : list Path := elementsFrom (html pg) [].

Definition ascii_upper (c : N) : N :=
  if ((97 <=? c) && (c <=? 122))%N then (c - 32)%N else c.

Definition localNameOf (n : Node) : str :=
  match n with Elem l _ _ _ => l | Text _ => [] end.

Definition tagName (n : Node) : str := List.map ascii_upper (localNameOf n).

Fixpoint assoc (k : str) (l : list (str * str)) : option str :=
  match l with
  | [] => None
  | (k', v) :: r => if str_eqb k k' then Some v else assoc k r
  end.

(** element.getAttribute(name); None is null. *)
Definition getAttribute (n : Node) (name : str) : option str :=
  match n with
  | Elem _ attrs _ _ => assoc name attrs
  | Text _ => None
  end.

Definition layoutOf (n : Node) : option Layout :=
  match n with Elem _ _ l _ => Some l | Text _ => None end.

(** element.id *)
Definition idOf (n : Node) : str :=
  match getAttribute n (lit "id") with Some v => v | None => [] end.

Fixpoint textContent (n : Node) : str :=
  match n with
  | Text d => d
  | Elem _ _ _ cs => flat_map textContent cs
  end.

(** Truthiness of a string or null. *)
Definition nonempty (o : option str) : option str :=
  match o with
  | Some (c :: r) => Some (c :: r)
  | _ => None
  end.

Definition parentPath (p : Path) : option Path :=
  match p with
  | [] => None
  | _ => Some (removelast p)
  end.

(** document.body: the first body or frameset child of the html element. *)
Fixpoint findIndex {A} (f : A -> bool) (l : list A) (i : nat) : option nat :=
  match l with
  | [] => None
  | x :: r => if f x then Some i else findIndex f r (S i)
  end.

Definition isBody (n : Node) : bool :=
  isElement n && (str_eqb (localNameOf n) (lit "body")
                  || str_eqb (localNameOf n) (lit "frameset")).

Definition body (pg : Page) : option Path :=
  if str_eqb (localNameOf (html pg)) (lit "html") then
    option_map (fun i => [i]) (findIndex isBody (childrenOf (html pg)) 0)
  else None.

(** document.getElementById(id) *)
Definition getElementById (pg : Page) (id : str) : option Path :=
  match id with
  | [] => None
  | _ =>
      find (fun p => match elementAt (html pg) p with
                     | Some e => str_eqb (idOf e) id
                     | None => false
                     end) (allElements pg)
  end.

(** *** CSS: CSS.escape and the selectors querySelector reads *)

Definition is_digit (c : N) : bool := ((48 <=? c) && (c <=? 57))%N.
Definition is_letter (c : N) : bool :=
  (((65 <=? c) && (c <=? 90)) || ((97 <=? c) && (c <=? 122)))%N.
Definition is_name_start (c : N) : bool :=
  is_letter c || N.eqb c 95 || (128 <=? c)%N.
Definition is_name_char (c : N) : bool :=
  is_name_start c || is_digit c || N.eqb c 45.
Definition is_newline (c : N) : bool :=
  N.eqb c 10 || N.eqb c 13 || N.eqb c 12.
Definition is_css_ws (c : N) : bool :=
  is_newline c || N.eqb c 9 || N.eqb c 32.

Definition hex_digit (d : N) : N := if (d <? 10)%N then (48 + d)%N else (87 + d)%N.

Fixpoint hex_fuel (fuel : nat) (n : N) (acc : str) : str :=
  match fuel with
  | O => acc
  | S f =>
      let acc' := hex_digit (n mod 16) :: acc in
      if (n <? 16)%N then acc' else hex_fuel f (n / 16)%N acc'
  end.

(** n.toString(16) *)
Definition to_hex (n : N) : str := hex_fuel (S (N.to_nat (N.log2 n))) n [].

Definition hex_value (c : N) : option N :=
  if is_digit c then Some (c - 48)%N
  else if ((97 <=? c) && (c <=? 102))%N then Some (c - 87)%N
  else if ((65 <=? c) && (c <=? 70))%N then Some (c - 55)%N
  else None.

(** CSS.escape, unit by unit (CSSOM, "serialize an identifier"). *)
Definition escape_unit (first : N) (len index : nat) (c : N) : str :=
  if N.eqb c 0 then [65533%N]
  else if (((1 <=? c) && (c <=? 31)) || N.eqb c 127)%N
          || (Nat.eqb index 0 && is_digit c)
          || (Nat.eqb index 1 && is_digit c && N.eqb first 45)
       then 92%N :: to_hex c ++ [32%N]
  else if Nat.eqb index 0 && Nat.eqb len 1 && N.eqb c 45 then [92%N; c]
  else if (128 <=? c)%N || N.eqb c 45 || N.eqb c 95 || is_digit c || is_letter c
       then [c]
  else [92%N; c].

Fixpoint escape_from (first : N) (len index : nat) (s : str) : str :=
  match s with
  | [] => []
  | c :: r => escape_unit first len index c ++ escape_from first len (S index) r
  end.

Definition CSS_escape (value : str) : str :=
  escape_from (hd 0%N value) (List.length value) 0 value.

Inductive Simple :=
| SType (name : str)
| SUniversal
| SId (id : str)
| SClass (name : str)
| SAttr (name : str)
| SAttrEq (name value : str)
| SNthOfType (k : N).

Inductive Combinator := Child | Descendant.

Definition Compound := list Simple.

(** A complex selector, read from the left: the first compound, then
    each combinator with the compound to its right. *)
Definition Complex : Type := Compound * list (Combinator * Compound).

Definition skip_css_ws (s : str) : str := dropWhile is_css_ws s.

Fixpoint take_hex (n : nat) (s : str) (acc : N) : N * str :=
  match n, s with
  | S n', c :: r =>
      match hex_value c with
      | Some v => take_hex n' r (acc * 16 + v)%N
      | None => (acc, s)
      end
  | _, _ => (acc, s)
  end.

Definition code_units (cp : N) : str :=
  if N.eqb cp 0 || ((55296 <=? cp) && (cp <=? 57343))%N || (1114111 <? cp)%N
  then [65533%N]
  else if (cp <? 65536)%N then [cp]
  else let v := (cp - 65536)%N in [(55296 + v / 1024)%N; (56320 + v mod 1024)%N].

(** An escape, after its backslash. *)
Definition consume_escape (s : str) : option (str * str) :=
  match s with
  | [] => Some ([65533%N], [])
  | c :: r =>
      if is_newline c then None
      else match hex_value c with
           | Some v =>
               let '(cp, r') := take_hex 5 r v in
               let r'' := match r' with
                          | w :: t => if is_css_ws w then t else r'
                          | [] => []
                          end in
               Some (code_units cp, r'')
           | None => Some ([c], r)
           end
  end.

Fixpoint consume_name (fuel : nat) (s : str) : str * str :=
  match fuel with
  | O => ([], s)
  | S f =>
      match s with
      | c :: r =>
          if is_name_char c then
            let '(n, t) := consume_name f r in (c :: n, t)
          else if N.eqb c 92 then
            match consume_escape r with
            | Some (u, r') => let '(n, t) := consume_name f r' in (u ++ n, t)
            | None => ([], s)
            end
          else ([], s)
      | [] => ([], s)
      end
  end.

Definition valid_escape (s : str) : bool :=
  match s with
  | c :: _ => negb (is_newline c)
  | [] => true
  end.

Definition starts_ident (s : str) : bool :=
  match s with
  | [] => false
  | c :: r =>
      if N.eqb c 45 then
        match r with
        | c' :: r' =>
            is_name_start c' || N.eqb c' 45 || (N.eqb c' 92 && valid_escape r')
        | [] => false
        end
      else is_name_start c || (N.eqb c 92 && valid_escape r)
  end.

Definition consume_ident (s : str) : option (str * str) :=
  if starts_ident s then Some (consume_name (List.length s) s) else None.

Definition prepend (u : str) (x : str * str) : str * str := (u ++ fst x, snd x).

(** A string, after its opening quote. *)
Fixpoint consume_string (quote : N) (fuel : nat) (s : str) : option (str * str) :=
  match fuel with
  | O => None
  | S f =>
      match s with
      | [] => None
      | c :: r =>
          if N.eqb c quote then Some ([], r)
          else if is_newline c then None
          else if N.eqb c 92 then
            match r with
            | [] => None
            | d :: r' =>
                if is_newline d then consume_string quote f r'
                else match consume_escape r with
                     | Some (u, r'') => option_map (prepend u) (consume_string quote f r'')
                     | None => None
                     end
            end
          else option_map (prepend [c]) (consume_string quote f r)
      end
  end.

Definition lower_ascii (s : str) : str := List.map ascii_lower s.

Definition expect (c : N) (s : str) : option str :=
  match s with
  | x :: r => if N.eqb x c then Some r else None
  | [] => None
  end.

(** An attribute selector, after its bracket. *)
Definition parse_attr (s : str) : option (Simple * str) :=
  match consume_ident (skip_css_ws s) with
  | None => None
  | Some (name, s2) =>
      match skip_css_ws s2 with
      | 93%N :: r => Some (SAttr name, r)
      | 61%N :: r =>
          let s4 := skip_css_ws r in
          let value :=
            match s4 with
            | 34%N :: t => consume_string 34 (List.length t + 1) t
            | 39%N :: t => consume_string 39 (List.length t + 1) t
            | _ => consume_ident s4
            end in
          match value with
          | Some (v, s5) =>
              match expect 93 (skip_css_ws s5) with
              | Some r' => Some (SAttrEq name v, r')
              | None => None
              end
          | None => None
          end
      | _ => None
      end
  end.

Fixpoint digits_of (s : str) (acc : N) (count : nat) : N * nat * str :=
  match s with
  | c :: r => if is_digit c then digits_of r (acc * 10 + (c - 48))%N (S count)
              else (acc, count, s)
  | [] => (acc, count, s)
  end.

(** A pseudo-class, after its colon: nth-of-type with a plain index. *)
Definition parse_pseudo (s : str) : option (Simple * str) :=
  match consume_ident s with
  | Some (name, 40%N :: r) =>
      if str_eqb (lower_ascii name) (lit "nth-of-type") then
        match digits_of (skip_css_ws r) 0 0 with
        | (_, O, _) => None
        | (k, _, r') =>
            match expect 41 (skip_css_ws r') with
            | Some r'' => Some (SNthOfType k, r'')
            | None => None
            end
        end
      else None
  | _ => None
  end.

Fixpoint parse_simples (fuel : nat) (s : str) : option (list Simple * str) :=
  match fuel with
  | O => None
  | S f =>
      let continue_ (x : option (Simple * str)) :=
        match x with
        | Some (simple, r) =>
            match parse_simples f r with
            | Some (l, r') => Some (simple :: l, r')
            | None => None
            end
        | None => None
        end in
      match s with
      | 35%N :: r =>
          continue_ (option_map (fun x => (SId (fst x), snd x)) (consume_ident r))
      | 46%N :: r =>
          continue_ (option_map (fun x => (SClass (fst x), snd x)) (consume_ident r))
      | 91%N :: r => continue_ (parse_attr r)
      | 58%N :: r => continue_ (parse_pseudo r)
      | _ => Some ([], s)
      end
  end.

Definition parse_compound (s : str) : option (Compound * str) :=
  let '(head, r) :=
    match expect 42 s with
    | Some r => ([SUniversal], r)
    | None => match consume_ident s with
              | Some (name, r) => ([SType name], r)
              | None => ([], s)
              end
    end in
  match parse_simples (List.length r + 1) r with
  | Some (l, r') =>
      match head ++ l with
      | [] => None
      | c => Some (c, r')
      end
  | None => None
  end.

(** The combinators and compounds after the first compound, up to a
    comma or the end. *)
Fixpoint parse_rest (fuel : nat) (s : str)
    : option (list (Combinator * Compound) * str) :=
  match fuel with
  | O => None
  | S f =>
      let s' := skip_css_ws s in
      match s' with
      | [] => Some ([], [])
      | 44%N :: _ => Some ([], s')
      | 62%N :: r =>
          match parse_compound (skip_css_ws r) with
          | Some (c, r') =>
              match parse_rest f r' with
              | Some (l, r'') => Some ((Child, c) :: l, r'')
              | None => None
              end
          | None => None
          end
      | _ =>
          if Nat.eqb (List.length s') (List.length s) then None
          else match parse_compound s' with
               | Some (c, r') =>
                   match parse_rest f r' with
                   | Some (l, r'') => Some ((Descendant, c) :: l, r'')
                   | None => None
                   end
               | None => None
               end
      end
  end.

Definition parse_complex (s : str) : option (Complex * str) :=
  match parse_compound s with
  | Some (c, r) =>
      match parse_rest (List.length r + 1) r with
      | Some (l, r') => Some ((c, l), r')
      | None => None
      end
  | None => None
  end.

Fixpoint parse_list (fuel : nat) (s : str) : option (list Complex) :=
  match fuel with
  | O => None
  | S f =>
      match parse_complex (skip_css_ws s) with
      | Some (c, []) => Some [c]
      | Some (c, 44%N :: r) => option_map (cons c) (parse_list f r)
      | _ => None
      end
  end.

(** None: the text is no selector (a SyntaxError for querySelector), or
    one outside the grammar modelled here. *)
Definition parse_selector (s : str) : option (list Complex) :=
  parse_list (List.length s + 1) s.

(** *** Matching *)

(** The attributes whose values selectors compare without regard to
    ASCII case in an HTML document. *)
Definition CASE_INSENSITIVE_ATTRS : list str :=
  List.map lit
    ["accept"; "accept-charset"; "align"; "alink"; "axis"; "bgcolor"; "charset";
     "checked"; "clear"; "codetype"; "color"; "compact"; "declare"; "defer";
     "dir"; "direction"; "disabled"; "enctype"; "face"; "frame"; "hreflang";
     "http-equiv"; "lang"; "language"; "link"; "media"; "method"; "multiple";
     "nohref"; "noresize"; "noshade"; "nowrap"; "readonly"; "rel"; "rev";
     "rules"; "scope"; "scrolling"; "selected"; "shape"; "target"; "text";
     "type"; "valign"; "valuetype"; "vlink"]%string.

Fixpoint tokens_from (s : str) (cur : str) : list str :=
  match s with
  | [] => match cur with [] => [] | _ => [rev cur] end
  | c :: r =>
      if is_css_ws c then
        match cur with
        | [] => tokens_from r []
        | _ => rev cur :: tokens_from r []
        end
      else tokens_from r (c :: cur)
  end.

Definition sameType (a b : Node) : bool :=
  isElement a && isElement b && str_eqb (localNameOf a) (localNameOf b).

(** The position of the child at an index among the children of its
    type, counted from 1. *)
Definition typeIndex (siblings : list Node) (i : nat) (e : Node) : nat :=
  S (List.length (filter (sameType e) (firstn i siblings))).

Definition siblingsOf (root : Node) (p : Path) : list Node :=
  match parentPath p with
  | Some pp => match nodeAt root pp with
               | Some parent => childrenOf parent
               | None => []
               end
  | None => [root]
  end.

Definition matches_simple (root : Node) (p : Path) (e : Node) (s : Simple) : bool :=
  match s with
  | SType name => str_eqb (lower_ascii name) (localNameOf e)
  | SUniversal => true
  | SId id => str_eqb (idOf e) id
  | SClass c =>
      match getAttribute e (lit "class") with
      | Some v => existsb (str_eqb c) (tokens_from v [])
      | None => false
      end
  | SAttr name =>
      match getAttribute e (lower_ascii name) with
      | Some _ => true
      | None => false
      end
  | SAttrEq name v =>
      match getAttribute e (lower_ascii name) with
      | Some x =>
          if existsb (str_eqb (lower_ascii name)) CASE_INSENSITIVE_ATTRS
          then str_eqb (lower_ascii x) (lower_ascii v)
          else str_eqb x v
      | None => false
      end
  | SNthOfType k =>
      N.eqb (N.of_nat (typeIndex (siblingsOf root p) (last p 0%nat) e)) k
  end.

Definition matches_compound (root : Node) (p : Path) (c : Compound) : bool :=
  match elementAt root p with
  | Some e => forallb (matches_simple root p e) c
  | None => false
  end.

(** The ancestors of an element, nearest first. *)
Fixpoint ancestors_rev (rp : list nat) : list Path :=
  match rp with
  | [] => []
  | _ :: r => rev r :: ancestors_rev r
  end.

Definition ancestors (p : Path) : list Path := ancestors_rev (rev p).

(** The compounds to the left of the subject, nearest first, against the
    ancestors of the subject. *)
Fixpoint match_left (root : Node) (chain : list (Combinator * Compound))
    (anc : list Path) : bool :=
  match chain with
  | [] => true
  | (Child, c) :: rest =>
      match anc with
      | a :: anc' => matches_compound root a c && match_left root rest anc'
      | [] => false
      end
  | (Descendant, c) :: rest =>
      (fix search (l : list Path) : bool :=
         match l with
         | [] => false
         | a :: l' =>
             (matches_compound root a c && match_left root rest l') || search l'
         end) anc
  end.

(** A complex selector read from its subject: the subject compound, then
    each compound to its left with the combinator that joins it to the
    one on its right. *)
Fixpoint from_subject (first : Compound) (rest : list (Combinator * Compound))
    (acc : list (Combinator * Compound)) : Compound * list (Combinator * Compound) :=
  match rest with
  | [] => (first, acc)
  | (comb, c) :: rest' => from_subject c rest' ((comb, first) :: acc)
  end.

Definition matches_complex (root : Node) (p : Path) (sel : Complex) : bool :=
  let '(subject, chain) := from_subject (fst sel) (snd sel) [] in
  matches_compound root p subject && match_left root chain (ancestors p).

Definition matches_any (root : Node) (sels : list Complex) (p : Path) : bool :=
  existsb (matches_complex root p) sels.

Definition querySelectorAll (pg : Page) (selector : str) : Res (list Path) :=
  match parse_selector selector with
  | Some sels => Ok (filter (matches_any (html pg) sels) (allElements pg))
  | None => Stuck Unsupported
  end.

(** document.querySelector; Ok None is null. *)
Definition querySelector (pg : Page) (selector : str) : Res (option Path) :=
  match parse_selector selector with
  | Some sels => Ok (find (matches_any (html pg) sels) (allElements pg))
  | None => Stuck Unsupported
  end.

Definition CANDIDATES : str :=
  lit "a, button, input, textarea, select, [role=button], [contenteditable=true]".

(** *** The script *)

Definition DEFAULT_MAX_ELEMENTS : num := ofZ 120.
Definition DEFAULT_MAX_TEXT : num := ofZ 4000.

Record ElementInfo := mkElementInfo {
  tag : str;
  type_ : option str;
  label : str;
  selector : str;
  rectX : Z;
  rectY : Z;
  rectWidth : Z;
  rectHeight : Z
}.

Record PageState := mkPageState {
  url : str;
  pageTitle : str;
  viewport : num * num * num * num;
  elements : list ElementInfo;
  textSnippet : str
}.

(** What performAction does to the page, in order.  The handlers the
    page runs in answer are the page's own. *)
Inductive Effect :=
| Wait (ms : num)
| ScrollBy (top : num)
| ScrollIntoView (element : Path)
| Focus (element : Path)
| Click (element : Path)
| SetInnerText (element : Path) (value : Value)
| SetValue (element : Path) (value : Value)
| DispatchEvent (element : Path) (type : str)
| KeyDown (element : Path) (key : Value).

Section Script.
Context {E : Engine} (pg : Page).

Definition normalizeLimit (value : Value) (fallback min max : num) : num :=
  let parsed := ToNumber value in
  if negb (isFinite parsed) then fallback
  else Math_min max (Math_max min (Math_floor parsed)).

Definition isVisible (element : Node) : bool :=
  match layoutOf element with
  | None => false
  | Some style =>
      if str_eqb (visibility style) (lit "hidden")
         || str_eqb (display style) (lit "none") then false
      else if negb (Qle_bool 4 (rwidth (rect style)))
              || negb (Qle_bool 4 (rheight (rect style))) then false
      else if str_eqb (opacity style) (lit "0") then false
      else true
  end.

Definition innerTextOf (n : Node) : option str :=
  match layoutOf n with
  | Some l => innerText l
  | None => None
  end.

Definition getLabel (element : Node) : str :=
  match nonempty (getAttribute element (lit "aria-label")) with
  | Some aria => trim aria
  | None =>
  let labelled :=
    match nonempty (getAttribute element (lit "aria-labelledby")) with
    | Some labelledBy =>
        match getElementById pg labelledBy with
        | Some lp =>
            match elementAt (html pg) lp with
            | Some labelEl => nonempty (innerTextOf labelEl)
            | None => None
            end
        | None => None
        end
    | None => None
    end in
  match labelled with
  | Some t => trim t
  | None =>
  match nonempty (getAttribute element (lit "placeholder")) with
  | Some placeholder => trim placeholder
  | None =>
  match nonempty (getAttribute element (lit "alt")) with
  | Some alt => trim alt
  | None =>
      let text :=
        match nonempty (innerTextOf element) with
        | Some t => t
        | None => textContent element
        end in
      slice0 160 (trim text)
  end end end end.

(** value.replace(/"/g, "\\\"") *)
Definition escapeAttr (value : str) : str :=
  flat_map (fun c => if N.eqb c 34 then [92%N; 34%N] else [c]) value.

Definition elementChildren (n : Node) : list Node := filter isElement (childrenOf n).

(** One step of the structural path: the tag name, with its position
    among the siblings of the same tag when there are several. *)
Definition pathPart (p : Path) (node : Node) : str :=
  let siblings :=
    match parentPath p with
    | Some pp =>
        match elementAt (html pg) pp with
        | Some parent =>
            filter (fun sib => str_eqb (tagName sib) (tagName node))
              (elementChildren parent)
        | None => []
        end
    | None => []
    end in
  if (1 <? List.length siblings)%nat then
    let before :=
      match parentPath p with
      | Some pp =>
          match elementAt (html pg) pp with
          | Some parent =>
              filter (fun sib => str_eqb (tagName sib) (tagName node))
                (filter isElement (firstn (last p 0%nat) (childrenOf parent)))
          | None => []
          end
      | None => []
      end in
    toLowerCase (tagName node) ++ lit ":nth-of-type("
    ++ N_to_str (N.of_nat (List.length before + 1)) ++ lit ")"
  else toLowerCase (tagName node).

Definition isDocumentBody (p : Path) : bool :=
  match body pg with
  | Some b => path_eqb p b
  | None => false
  end.

(** The while loop of getSelector, from the node whose path is given
    reversed up to the body or the root. *)
Fixpoint pathParts (rp : list nat) : list str :=
  let p := rev rp in
  if isDocumentBody p then []
  else match elementAt (html pg) p with
       | None => []
       | Some node =>
           match rp with
           | [] => [pathPart p node]
           | _ :: rp' => pathParts rp' ++ [pathPart p node]
           end
       end.

Definition firstNonempty (l : list (option str)) : option str :=
  find (fun _ => true) (flat_map (fun o => match nonempty o with
                                            | Some v => [v]
                                            | None => []
                                            end) l).

Definition getSelector (p : Path) (element : Node) : str :=
  match idOf element with
  | _ :: _ => lit "#" ++ CSS_escape (idOf element)
  | [] =>
  match firstNonempty [getAttribute element (lit "data-testid");
                       getAttribute element (lit "data-test");
                       getAttribute element (lit "data-qa")] with
  | Some testId => lit "[data-testid=" ++ [34%N] ++ escapeAttr testId ++ [34%N] ++ lit "]"
  | None =>
  match nonempty (getAttribute element (lit "name")) with
  | Some name =>
      toLowerCase (tagName element) ++ lit "[name=" ++ [34%N] ++ escapeAttr name
      ++ [34%N] ++ lit "]"
  | None =>
  match nonempty (getAttribute element (lit "aria-label")) with
  | Some aria =>
      toLowerCase (tagName element) ++ lit "[aria-label=" ++ [34%N] ++ escapeAttr aria
      ++ [34%N] ++ lit "]"
  | None => join (lit " > ") (pathParts (rev p))
  end end end end.

Definition Math_round_Q (q : Q) : Z := Qfloor (q + (1 # 2)).

Definition describe (p : Path) (element : Node) : ElementInfo :=
  let r := match layoutOf element with
           | Some l => rect l
           | None => mkRect 0 0 0 0
           end in
  mkElementInfo (toLowerCase (tagName element))
    (getAttribute element (lit "type"))
    (getLabel element)
    (getSelector p element)
    (Math_round_Q (rx r)) (Math_round_Q (ry r))
    (Math_round_Q (rwidth r)) (Math_round_Q (rheight r)).

Definition candidates : list Path :=
  match querySelectorAll pg CANDIDATES with
  | Ok l => l
  | _ => []
  end.

(** The loop over the candidates. *)
Fixpoint collectLoop (maxElements : num) (cands : list Path)
    (elements : list ElementInfo) : list ElementInfo :=
  match cands with
  | [] => elements
  | p :: rest =>
      match elementAt (html pg) p with
      | None => collectLoop maxElements rest elements
      | Some element =>
          if negb (isVisible element) then collectLoop maxElements rest elements
          else
            let elements' := elements ++ [describe p element] in
            if num_leb maxElements (ofZ (Z.of_nat (List.length elements')))
            then elements'
            else collectLoop maxElements rest elements'
      end
  end.

(** (a, b) => (a.rect.y - b.rect.y) || (a.rect.x - b.rect.x) *)
Definition compareRects (a b : ElementInfo) : Z :=
  if Z.eqb (rectY a - rectY b) 0 then rectX a - rectX b else rectY a - rectY b.

(** Array.prototype.sort, which is stable. *)
Fixpoint insertSorted (x : ElementInfo) (l : list ElementInfo) : list ElementInfo :=
  match l with
  | [] => [x]
  | y :: r => if (compareRects x y <=? 0)%Z then x :: l else y :: insertSorted x r
  end.

Definition sortElements (l : list ElementInfo) : list ElementInfo :=
  fold_right insertSorted [] l.

(** s.slice(0, n) for a number n > 0. *)
Definition sliceTo (n : num) (s : str) : str :=
  match n with
  | Fin q => slice0 (Z.to_nat (Qfloor q)) s
  | PosInf => s
  | _ => []
  end.

Definition collectPageState (options : Value) : Res PageState :=
  let options := match options with VUndefined => VObj [] | _ => options end in
  maxElements_ <-- readProp options (lit "maxElements") ;;;
  let maxElements := normalizeLimit maxElements_ DEFAULT_MAX_ELEMENTS (ofZ 10) (ofZ 500) in
  let maxText := normalizeLimit (getProp options (lit "maxText")) DEFAULT_MAX_TEXT
                   (ofZ 0) (ofZ 20000) in
  let elements := sortElements (collectLoop maxElements candidates []) in
  let textSnippet :=
    if num_ltb (ofZ 0) maxText then
      let bodyText :=
        match body pg with
        | Some b => match elementAt (html pg) b with
                    | Some e => match nonempty (innerTextOf e) with
                                | Some t => t
                                | None => []
                                end
                    | None => []
                    end
        | None => []
        end in
      sliceTo maxText (trim (collapse_ws bodyText))
    else [] in
  Ok (mkPageState (href pg) (title pg)
        (innerWidth pg, innerHeight pg, scrollX pg, scrollY pg)
        elements textSnippet).

(** Ok None is null. *)
Definition resolveTarget (action : Value) : Res (option Path) :=
  bySelector <--
    (if truthy (getProp action (lit "selector")) then
       querySelector pg (ToString (getProp action (lit "selector")))
     else Ok None) ;;;
  match bySelector with
  | Some el => Ok (Some el)
  | None =>
      if truthy (getProp action (lit "text")) then
        match getProp action (lit "text") with
        | VStr text =>
            let needle := toLowerCase text in
            Ok (find (fun p =>
                        match elementAt (html pg) p with
                        | Some element =>
                            let l := toLowerCase (getLabel element) in
                            match l with
                            | [] => false
                            | _ => includes needle l
                            end
                        | None => false
                        end) candidates)
        | _ => Throw (typeErrorMessage (lit "toLowerCase"))
        end
      else Ok None
  end.

Definition success (result : str) : Value :=
  VObj [(lit "ok", VBool true); (lit "result", VStr result)].

Definition failure (error : str) : Value :=
  VObj [(lit "ok", VBool false); (lit "error", VStr error)].

Definition isStr (v : Value) (s : string) : bool :=
  match v with VStr x => str_eqb x (lit s) | _ => false end.

Definition contentEditable (p : Path) : bool :=
  match elementAt (html pg) p with
  | Some e => match layoutOf e with
              | Some l => isContentEditable l
              | None => false
              end
  | None => false
  end.

(** The response, with what was done to the page before it. *)
Definition performAction (action : Value) : Res (Value * list Effect) :=
  let type := optProp action (lit "type") in
  if negb (truthy type) then Ok (failure (lit "Missing action type"), [])
  else if isStr type "wait" then
    let ms := ToNumber (or_else (or_else (getProp action (lit "ms"))
                                   (getProp action (lit "duration"))) (VInt 500)) in
    Ok (success (lit "waited " ++ NumberToString ms ++ lit "ms"), [Wait ms])
  else if isStr type "scroll" then
    let amount :=
      ToNumber (or_else (getProp action (lit "amount"))
                  (VNum (Math_round (Number_mul (innerHeight pg) (Fin (7 # 10)))))) in
    let up := isStr (getProp action (lit "direction")) "up" in
    Ok (success (if up then lit "scrolled up" else lit "scrolled down"),
        [ScrollBy (Number_mul amount (ofZ (if up then -1 else 1)))])
  else
    target <-- resolveTarget action ;;;
    match target with
    | None => Ok (failure (lit "Target not found"), [])
    | Some element =>
        if isStr type "click" then
          Ok (success (lit "clicked"),
              [ScrollIntoView element; Focus element; Click element])
        else if isStr type "type" then
          let value := coalesce (getProp action (lit "value"))
                         (coalesce (getProp action (lit "text")) (VStr [])) in
          Ok (success (lit "typed"),
              [ScrollIntoView element; Focus element;
               (if contentEditable element then SetInnerText element value
                else SetValue element value);
               DispatchEvent element (lit "input");
               DispatchEvent element (lit "change")])
        else if isStr type "key" then
          let key := or_else (getProp action (lit "key"))
                       (or_else (getProp action (lit "value")) (VLit "Enter")) in
          Ok (success (lit "key " ++ ToString key),
              [ScrollIntoView element; KeyDown element key])
        else
          Ok (failure (lit "Unsupported action: " ++ ToString type),
              [ScrollIntoView element])
    end.

End Script.

End Content.

(** ** A reference engine

    An engine to run the scripts on concrete inputs: JSON.parse for JSON
    texts, decimal conversions, ASCII lower-casing.  The properties below
    are proved for every engine; this one instantiates them. *)

Module Reference.
Import JS.

Definition is_digit (c : N) : bool := ((48 <=? c) && (c <=? 57))%N.

Definition is_json_ws (c : N) : bool :=
  existsb (N.eqb c) [32; 9; 10; 13]%N.

Definition skip_ws (s : str) : str := dropWhile is_json_ws s.

Definition hex_value (c : N) : option N :=
  if is_digit c then Some (c - 48)%N
  else if ((97 <=? c) && (c <=? 102))%N then Some (c - 87)%N
  else if ((65 <=? c) && (c <=? 70))%N then Some (c - 55)%N
  else None.

(** The inside of a JSON string, after its opening quote. *)
Fixpoint string_body (s : str) (acc : str) : option (str * str) :=
  match s with
  | [] => None
  | 34%N :: r => Some (rev acc, r)
  | 92%N :: e :: r =>
      match e with
      | 34%N | 92%N | 47%N => string_body r (e :: acc)
      | 98%N => string_body r (8%N :: acc)
      | 102%N => string_body r (12%N :: acc)
      | 110%N => string_body r (10%N :: acc)
      | 114%N => string_body r (13%N :: acc)
      | 116%N => string_body r (9%N :: acc)
      | 117%N =>
          match r with
          | a :: b :: c :: d :: r' =>
              match hex_value a, hex_value b, hex_value c, hex_value d with
              | Some x, Some y, Some z, Some w =>
                  string_body r' ((((x * 16 + y) * 16 + z) * 16 + w)%N :: acc)
              | _, _, _, _ => None
              end
          | _ => None
          end
      | _ => None
      end
  | c :: r => if (c <? 32)%N then None else string_body r (c :: acc)
  end.

Fixpoint take_digits (s : str) (acc : N) (count : nat) : N * nat * str :=
  match s with
  | c :: r => if is_digit c then take_digits r (acc * 10 + (c - 48))%N (S count)
              else (acc, count, s)
  | [] => (acc, count, s)
  end.

Definition pow10 (n : nat) : positive := Pos.pow 10 (Pos.of_nat n).

Definition scale (q : Q) (e : Z) : Q :=
  match e with
  | Z0 => q
  | Zpos p => q * inject_Z (Zpos (Pos.pow 10 p))
  | Zneg p => q / inject_Z (Zpos (Pos.pow 10 p))
  end.

(** digits [. digits] [(e|E) [+|-] digits] *)
Definition unsigned_number (s : str) : option (Q * str) :=
  match take_digits s 0 0 with
  | (_, O, _) => None
  | (ip, _, r) =>
      let '(q, r1) :=
        match r with
        | 46%N :: r' =>
            match take_digits r' 0 0 with
            | (_, O, _) => (inject_Z (Z.of_N ip), r)
            | (fp, k, r'') =>
                (inject_Z (Z.of_N ip) + (Z.of_N fp # Pos.pow 10 (Pos.of_nat k)), r'')
            end
        | _ => (inject_Z (Z.of_N ip), r)
        end in
      match r1 with
      | (101%N | 69%N) :: r2 =>
          let '(sign, r3) :=
            match r2 with
            | 45%N :: r' => ((-1)%Z, r')
            | 43%N :: r' => (1%Z, r')
            | _ => (1%Z, r2)
            end in
          match take_digits r3 0 0 with
          | (_, O, _) => Some (Qred q, r1)
          | (ex, _, r4) => Some (Qred (scale q (sign * Z.of_N ex)), r4)
          end
      | _ => Some (Qred q, r1)
      end
  end.

Definition number (s : str) : option (Q * str) :=
  match s with
  | 45%N :: r =>
      match unsigned_number r with
      | Some (q, r') => Some (Qred (- q), r')
      | None => None
      end
  | _ => unsigned_number s
  end.

Fixpoint set_field (k : str) (v : Value) (fs : list (str * Value)) : list (str * Value) :=
  match fs with
  | [] => [(k, v)]
  | (k', v') :: r => if str_eqb k k' then (k, v) :: r else (k', v') :: set_field k v r
  end.

Inductive Mode :=
| MValue
| MElements (acc : list Value)
| MMembers (acc : list (str * Value)).

Fixpoint parse (fuel : nat) (mode : Mode) (s : str) : option (Value * str) :=
  match fuel with
  | O => None
  | S f =>
      match mode with
      | MValue =>
          match skip_ws s with
          | 123%N :: r =>
              match skip_ws r with
              | 125%N :: r' => Some (VObj [], r')
              | _ => parse f (MMembers []) r
              end
          | 91%N :: r =>
              match skip_ws r with
              | 93%N :: r' => Some (VArr [], r')
              | _ => parse f (MElements []) r
              end
          | 34%N :: r =>
              match string_body r [] with
              | Some (k, r') => Some (VStr k, r')
              | None => None
              end
          | 116%N :: 114%N :: 117%N :: 101%N :: r => Some (VBool true, r)
          | 102%N :: 97%N :: 108%N :: 115%N :: 101%N :: r => Some (VBool false, r)
          | 110%N :: 117%N :: 108%N :: 108%N :: r => Some (VNull, r)
          | s' =>
              match number s' with
              | Some (q, r) => Some (VNum (Fin q), r)
              | None => None
              end
          end
      | MElements acc =>
          match parse f MValue s with
          | Some (v, r) =>
              match skip_ws r with
              | 44%N :: r' => parse f (MElements (v :: acc)) r'
              | 93%N :: r' => Some (VArr (rev (v :: acc)), r')
              | _ => None
              end
          | None => None
          end
      | MMembers acc =>
          match skip_ws s with
          | 34%N :: r =>
              match string_body r [] with
              | Some (k, r1) =>
                  match skip_ws r1 with
                  | 58%N :: r2 =>
                      match parse f MValue r2 with
                      | Some (v, r3) =>
                          match skip_ws r3 with
                          | 44%N :: r4 => parse f (MMembers (set_field k v acc)) r4
                          | 125%N :: r4 => Some (VObj (set_field k v acc), r4)
                          | _ => None
                          end
                      | None => None
                      end
                  | _ => None
                  end
              | None => None
              end
          | _ => None
          end
      end
  end.

Definition parseJSON (s : str) : Res Value :=
  match parse (2 * List.length s + 2) MValue s with
  | Some (v, r) =>
      match skip_ws r with
      | [] => Ok v
      | _ => Throw (lit "Unexpected non-whitespace character after JSON")
      end
  | None => Throw (lit "Unexpected token in JSON")
  end.

(** Up to 17 decimals of a fraction in [0,1), trailing zeros dropped. *)
Fixpoint decimals (fuel : nat) (n : Z) (d : positive) : str :=
  match fuel with
  | O => []
  | S f =>
      if (n =? 0)%Z then []
      else let n10 := (n * 10)%Z in
           (48 + Z.to_N (n10 / Zpos d))%N :: decimals f (n10 mod Zpos d)%Z d
  end.

Definition doubleToString (q : Q) : str :=
  let a := Qabs q in
  let ip := Qfloor a in
  let frac := decimals 17 (Qnum a - ip * Zpos (Qden a))%Z (Qden a) in
  (if Qle_bool 0 q then [] else [45%N])
  ++ Z_to_str ip
  ++ match frac with [] => [] | _ => 46%N :: frac end.

Definition stringToNumber (s : str) : num :=
  match trim s with
  | [] => ofZ 0
  | t =>
      if str_eqb t (lit "Infinity") || str_eqb t (lit "+Infinity") then PosInf
      else if str_eqb t (lit "-Infinity") then NegInf
      else match number (match t with 43%N :: r => r | _ => t end) with
           | Some (q, []) => Fin q
           | _ => NaN
           end
  end.

Definition asciiLower (s : str) : str := List.map ascii_lower s.

#[export] Program Instance engine : Engine := {|
  DoubleToString := doubleToString;
  StringToNumber := stringToNumber;
  JSON_parse := parseJSON;
  toLowerCase := asciiLower;
  typeErrorMessage := fun k =>
    lit "Cannot read properties of undefined (reading '" ++ k ++ lit "')";
  Number_mul := fun a b =>
    match a, b with
    | Fin x, Fin y => Fin (Qred (x * y))
    | _, _ => NaN
    end
|}.

End Reference.

Unset Implicit Arguments.

(** ** Vocabulary of the content script's properties *)

Module ContentSpec.
Import JS Content.

Section Spec.
Context {E : Engine} (pg : Page).

(** A descriptor of a visible candidate element. *)
Definition describes (d : ElementInfo) : Prop :=
  exists p element,
    In p (candidates pg)
    /\ elementAt (html pg) p = Some element
    /\ isVisible element = true
    /\ d = describe pg p element.

(** Where a label comes from. *)
Inductive LabelSource :=
| FromAriaLabel (value : str)
| FromLabelledBy (text : str)
| FromPlaceholder (value : str)
| FromAlt (value : str)
| FromOwnText (text : str).

Definition labelSource (element : Node) : LabelSource :=
  match nonempty (getAttribute element (lit "aria-label")) with
  | Some aria => FromAriaLabel aria
  | None =>
  match match nonempty (getAttribute element (lit "aria-labelledby")) with
        | Some labelledBy =>
            match getElementById pg labelledBy with
            | Some lp =>
                match elementAt (html pg) lp with
                | Some labelEl => nonempty (innerTextOf labelEl)
                | None => None
                end
            | None => None
            end
        | None => None
        end with
  | Some t => FromLabelledBy t
  | None =>
  match nonempty (getAttribute element (lit "placeholder")) with
  | Some placeholder => FromPlaceholder placeholder
  | None =>
  match nonempty (getAttribute element (lit "alt")) with
  | Some alt => FromAlt alt
  | None =>
      FromOwnText match nonempty (innerTextOf element) with
                  | Some t => t
                  | None => textContent element
                  end
  end end end end.

(** The value a type action puts into its target. *)
Definition typedValue (action : Value) : Value :=
  coalesce (getProp action (lit "value"))
    (coalesce (getProp action (lit "text")) (VStr [])).

End Spec.

(** *** Reading back what getSelector writes *)

(** Where a name ends: at the end of the text, or before a unit that is
    neither part of a name nor a backslash. *)
Definition stops (rest : str) : Prop :=
  match rest with
  | [] => True
  | c :: _ => is_name_char c = false /\ c <> 92%N
  end.

(** A name that needs no escape: a letter, then letters, digits and
    hyphens. *)
Definition plain_name (t : str) : bool :=
  match t with
  | c :: r => is_letter c && forallb is_name_char r
  | [] => false
  end.

(** Decimal digits. *)
Fixpoint value (l : str) (a : N) : N :=
  match l with
  | [] => a
  | c :: r => value r (a * 10 + (c - 48))%N
  end.

Definition no_digit_first (rest : str) : Prop :=
  match rest with
  | [] => True
  | c :: _ => is_digit c = false
  end.

(** Attribute values: escapeAttr, read back as a CSS string.  A value
    is clean when it holds no backslash, line break or NUL: those
    escapeAttr leaves as they are, and a CSS string reads them otherwise. *)
Definition clean_unit (c : N) : bool :=
  negb (N.eqb c 92) && negb (is_newline c) && negb (N.eqb c 0).

Definition clean (v : str) : bool := forallb clean_unit v.

Definition no_nul (s : str) : bool := forallb (fun c => negb (N.eqb c 0)) s.

Definition is_lower (c : N) : bool := ((97 <=? c) && (c <=? 122))%N.

Definition is_lower_name_char (c : N) : bool := is_lower c || is_digit c || N.eqb c 45.

(** The local name of an HTML element as the parser leaves it: a lower
    case letter, then lower case letters, digits and hyphens. *)
Definition html_name (t : str) : bool :=
  match t with
  | c :: r => is_lower c && forallb is_lower_name_char r
  | [] => false
  end.

(** One step of a structural path: a tag, with or without its position. *)
Definition part_text (x : str * option N) : str :=
  match snd x with
  | Some k => fst x ++ lit ":nth-of-type(" ++ N_to_str k ++ lit ")"
  | None => fst x
  end.

Definition part_compound (x : str * option N) : Compound :=
  match snd x with
  | Some k => [SType (fst x); SNthOfType k]
  | None => [SType (fst x)]
  end.

(** What follows a step: nothing, or the blank of the next combinator. *)
Definition step_end (rest : str) : Prop :=
  rest = [] \/ exists r, rest = 32%N :: r.

Definition below (xs : list (str * option N)) : str :=
  flat_map (fun x => lit " > " ++ part_text x) xs.

(** Every element of the tree has an HTML name. *)
Fixpoint wf_names (n : Node) : bool :=
  match n with
  | Elem l _ _ cs => html_name l && forallb wf_names cs
  | Text _ => true
  end.

(** The elements whose selector reads back as written: an id without
    NUL; a test id taken from data-testid; attribute values without
    backslash, line break or NUL; for the structural path, any element
    but the body. *)
Definition readable (pg : Page) (p : Path) (element : Node) : bool :=
  match idOf element with
  | _ :: _ => no_nul (idOf element)
  | [] =>
  match firstNonempty [getAttribute element (lit "data-testid");
                       getAttribute element (lit "data-test");
                       getAttribute element (lit "data-qa")] with
  | Some testId =>
      match nonempty (getAttribute element (lit "data-testid")) with
      | Some _ => clean testId
      | None => false
      end
  | None =>
  match nonempty (getAttribute element (lit "name")) with
  | Some name => clean name
  | None =>
  match nonempty (getAttribute element (lit "aria-label")) with
  | Some aria => clean aria
  | None => negb (isDocumentBody pg p)
  end end end end.

(** *** What collectPageState collects *)

Section Collected.
Context {E : Engine} (pg : Page).

(** The descriptors of the visible candidates, in document order. *)
Definition visibleDescriptors : list ElementInfo :=
  flat_map (fun p => match elementAt (html pg) p with
                     | Some element =>
                         if isVisible element then [describe pg p element] else []
                     | None => []
                     end) (candidates pg).

End Collected.

(** a is not below b, and not to its right when they are level. *)
Definition above (a b : ElementInfo) : Prop :=
  (rectY a < rectY b)%Z \/ (rectY a = rectY b /\ (rectX a <= rectX b)%Z).

(** The types performAction has a branch for. *)
Definition PERFORMED : list str :=
  List.map lit ["wait"; "scroll"; "click"; "type"; "key"]%string.

(** Text whose only whitespace is single spaces, none of them leading
    when [prev] is set. *)
Fixpoint single_spaced (prev : bool) (s : str) : bool :=
  match s with
  | [] => true
  | c :: r =>
      if N.eqb c 32 then negb prev && single_spaced true r
      else negb (is_ws c) && single_spaced false r
  end.

End ContentSpec.

(** ** Vocabulary of the background script's properties *)

Module BackgroundSpec.
Import JS Background.

(** *** Browsers that answer *)

Section Answers.
Context {E : Engine} (env : Env).

(** No stop request arrives and the page answers every state request
    with a state the prompt can be built from. *)
Definition perceiving (settings : Settings) (instruction : Value) : Prop :=
  neverStopped env
  /\ (forall t opts,
        exists state,
          tabsSendMessage env t (COLLECT_STATE opts) = Fulfilled state
          /\ forall step shot,
               exists p, buildPrompt instruction state step (maxSteps settings) shot = Ok p).

(** Besides, the service answers every call with a reply that parses to
    a decision of the kind given. *)
Definition answering (settings : Settings) (instruction : Value)
    (kind : Value -> Prop) : Prop :=
  perceiving settings instruction
  /\ (forall t,
        exists response decision,
          geminiResult (fetchReply env t) = Ok response
          /\ parseAgentResponse response = Ok decision
          /\ kind decision).

(** What is logged when no decision comes of a call of the service: the
    call fails, or its reply does not parse. *)
Definition undecided (reply : FetchReply) (entry : str) : Prop :=
  geminiResult reply = Throw entry
  \/ exists response message,
       geminiResult reply = Ok response
       /\ parseAgentResponse response = Throw message
       /\ entry = lit "Failed to parse model JSON: " ++ message.

(** The requests of a step that ends at the decision: the state, the
    screenshot's if any, the call of the service. *)
Definition decision_calls (settings : Settings) (collectOptions tabId : Value)
    (cs : list Event) : Prop :=
  exists shots u body,
    cs = TabsSendMessage tabId (COLLECT_STATE collectOptions)
         :: shots ++ [Fetch u (apiKey settings) body]
    /\ Forall (shot_call tabId) shots.

(** The body of the loop over steps once the decision is parsed. *)
Definition decided (settings : Settings) (tabId agentResponse : Value) : M Flow :=
  plan <- lift (readProp agentResponse (lit "plan")) ;;
  (if truthy plan then log env (lit "Plan: " ++ ToString plan) else ret tt) ;;
  if truthy (getProp agentResponse (lit "done")) then
    log env (lit "Done: "
             ++ ToString (or_else (getProp agentResponse (lit "final"))
                            (VLit "Task completed."))) ;;
    ret Break
  else
    let actions := match getProp agentResponse (lit "actions") with
                   | VArr l => l
                   | _ => []
                   end in
    match actions with
    | [] => log env (lit "No actions returned. Stopping.") ;; ret Break
    | _ => performActions env settings tabId actions ;; ret Continue
    end.

(** A decision that is an object (or any value but null and undefined)
    and is done. *)
Definition is_done (decision : Value) : Prop :=
  nullish decision = false /\ truthy (getProp decision (lit "done")) = true.

End Answers.

End BackgroundSpec.

(** ** The popup script *)

Module Popup.
Import JS.

Definition defaults_model : Value := VLit "gemini-3-flash-preview".
Definition defaults_maxSteps : Value := VInt 8.
Definition defaults_stepDelayMs : Value := VInt 0.
Definition defaults_fastMode : Value := VBool true.

(** The state object of the script and what it shows: the text of the
    log, the two buttons, the elapsed time.  state.running is only ever
    read as a boolean and is kept as one; the times are whole
    milliseconds or null, as the background sends them; timerId is kept
    as whether an interval is set.  The scroll position of the log is
    left out. *)
Record State := mkState {
  running : bool;
  log : list Value;
  startedAt : option Z;
  stoppedAt : option Z;
  timer : bool;
  logText : str;
  runDisabled : bool;
  stopDisabled : bool;
  elapsedText : str
}.

Definition initialState : State :=
  mkState false [] None None false [] false false [].

(** What the script sends and stores. *)
Inductive Sent :=
| StorageSet (items : Value)
| Send (message : Background.PopupMsg).

(** The fields of the settings form. *)
Record Inputs := mkInputs {
  apiKeyInput : str;
  modelInput : str;
  maxStepsInput : str;
  stepDelayMsInput : str;
  fastModeChecked : bool
}.

(** String(n).padStart(2, "0") on the digits *)
Definition padStart2 (s : str) : str :=
  repeat 48%N (2 - List.length s) ++ s.

(** A time that is set: neither null nor 0. *)
Definition isSet (t : option Z) : bool :=
  match t with
  | Some z => negb (Z.eqb z 0)
  | None => false
  end.

(** a ?? b on times *)
Definition orTime (a b : option Z) : option Z :=
  match a with Some _ => a | None => b end.

Section Script.
Context {E : Engine}.

(** arr.join("\n") *)
Definition joinLines (l : list Value) : str :=
  join [10%N] (List.map (fun v => if nullish v then [] else ToString v) l).

Definition appendLog (entry : Value) (s : State) : State :=
  let log' := log s ++ [entry] in
  mkState (running s) log' (startedAt s) (stoppedAt s) (timer s)
    (joinLines log') (runDisabled s) (stopDisabled s) (elapsedText s).

Definition setRunning (isRunning : bool) (s : State) : State :=
  mkState isRunning (log s) (startedAt s) (stoppedAt s) (timer s)
    (logText s) isRunning (negb isRunning) (elapsedText s).

(** The quotient ms / 1000 is taken exactly; on the whole numbers below
    2^53 that the script passes, its floor is the one the double
    division gives. *)
Definition formatElapsed (ms : num) : str :=
  match ms with
  | Fin q =>
      if negb (Qle_bool 0 q) then lit "00:00"
      else
        let totalSeconds := Qfloor (q / 1000) in
        let hours := (totalSeconds / 3600)%Z in
        let minutes := ((totalSeconds mod 3600) / 60)%Z in
        let seconds := (totalSeconds mod 60)%Z in
        if (0 <? hours)%Z then
          padStart2 (NumberToString (ofZ hours)) ++ lit ":"
          ++ padStart2 (NumberToString (ofZ minutes)) ++ lit ":"
          ++ padStart2 (NumberToString (ofZ seconds))
        else
          padStart2 (NumberToString (ofZ minutes)) ++ lit ":"
          ++ padStart2 (NumberToString (ofZ seconds))
  | _ => lit "00:00"
  end.

(** now is Date.now() *)
Definition updateElapsed (now : Z) (s : State) : State :=
  let text :=
    match startedAt s with
    | Some started =>
        if isSet (startedAt s) then
          let end_ :=
            if running s then now
            else match stoppedAt s with
                 | Some stopped => if isSet (stoppedAt s) then stopped else now
                 | None => now
                 end in
          formatElapsed (ofZ (end_ - started))
        else lit "00:00"
    | None => lit "00:00"
    end in
  mkState (running s) (log s) (startedAt s) (stoppedAt s) (timer s)
    (logText s) (runDisabled s) (stopDisabled s) text.

Definition setTimer (on : bool) (s : State) : State :=
  mkState (running s) (log s) (startedAt s) (stoppedAt s) on
    (logText s) (runDisabled s) (stopDisabled s) (elapsedText s).

Definition startTimer (s : State) : State := if timer s then s else setTimer true s.
Definition stopTimer (s : State) : State := if timer s then setTimer false s else s.

Definition setTimes (started stopped : option Z) (s : State) : State :=
  mkState (running s) (log s) started stopped (timer s)
    (logText s) (runDisabled s) (stopDisabled s) (elapsedText s).

(** state.log = logs.slice(); elements.log.textContent = state.log.join("\n") *)
Definition setLog (logs : list Value) (s : State) : State :=
  mkState (running s) logs (startedAt s) (stoppedAt s) (timer s)
    (joinLines logs) (runDisabled s) (stopDisabled s) (elapsedText s).

(** The listener, on what the background sends; now is Date.now(). *)
Definition onMessage (now : Z) (message : Background.Event) (s : State) : State :=
  match message with
  | Background.AGENT_LOG entry => appendLog (VStr entry) s
  | Background.AGENT_STATUS isRunning started stopped logs =>
      let s1 := setRunning isRunning s in
      let s2 := setTimes (orTime started (startedAt s1)) (orTime stopped (stoppedAt s1)) s1 in
      let s3 := updateElapsed now s2 in
      let s4 := if isRunning then startTimer s3 else stopTimer s3 in
      match logs with
      | [] => s4
      | _ => setLog (List.map VStr logs) s4
      end
  | _ => s
  end.

(** A time in a response: null, undefined or a whole number. *)
Definition timeOf (v : Value) : Res (option Z) :=
  match v with
  | VUndefined | VNull => Ok None
  | VNum (Fin q) => if is_integer q then Ok (Some (Qfloor q)) else Stuck Unsupported
  | _ => Stuck Unsupported
  end.

(** The callback of init for the answer to POPUP_GET_STATUS, when
    chrome.runtime.lastError is not set. *)
Definition onStatus (now : Z) (response : Value) (s : State) : Res State :=
  if negb (truthy response) then Ok s
  else
    let isRunning := truthy (getProp response (lit "running")) in
    let s1 := setRunning isRunning s in
    started <-- timeOf (getProp response (lit "startedAt")) ;;;
    stopped <-- timeOf (getProp response (lit "stoppedAt")) ;;;
    let s3 := updateElapsed now (setTimes started stopped s1) in
    let s4 := if isRunning then startTimer s3 else s3 in
    if truthy (getProp response (lit "logs")) then
      match getProp response (lit "logs") with
      | VArr logs => Ok (setLog logs s4)
      | _ => Stuck Unsupported
      end
    else Ok s4.

(** What saveSettings stores. *)
Definition saveSettings (inputs : Inputs) : Value :=
  let maxStepsValue := StringToNumber (maxStepsInput inputs) in
  let delayValue := StringToNumber (stepDelayMsInput inputs) in
  VObj [(lit "apiKey", VStr (trim (apiKeyInput inputs)));
        (lit "model", VStr (trim (modelInput inputs)));
        (lit "maxSteps",
         if isFinite maxStepsValue && num_ltb (ofZ 0) maxStepsValue
         then VNum maxStepsValue else defaults_maxSteps);
        (lit "stepDelayMs",
         if isFinite delayValue then VNum delayValue else defaults_stepDelayMs);
        (lit "fastMode", VBool (fastModeChecked inputs))].

(** The Run button: instruction is the text of the task, tab what
    chrome.tabs.query answers first, now and later the two readings of
    Date.now(). *)
Definition startRun (now later : Z) (instruction : str) (inputs : Inputs) (tab : Value)
    (s : State) : State * list Sent :=
  match trim instruction with
  | [] => (appendLog (VLit "Add a task before running.") s, [])
  | task =>
      if negb (truthy (optProp tab (lit "id"))) then
        (appendLog (VLit "No active tab found.") s, [StorageSet (saveSettings inputs)])
      else
        let s1 := setRunning true (appendLog (VLit "Starting agent...") s) in
        let s2 := startTimer (updateElapsed later (setTimes (Some now) None s1)) in
        (s2, [StorageSet (saveSettings inputs);
              Send (Background.POPUP_START (getProp tab (lit "id")) (VStr task))])
  end.

Definition stopRun (s : State) : State * list Sent :=
  (appendLog (VLit "Stop requested.") s, [Send Background.POPUP_STOP]).

Definition clearLog (s : State) : State * list Sent :=
  (mkState (running s) [] (startedAt s) (stoppedAt s) (timer s)
     [] (runDisabled s) (stopDisabled s) (elapsedText s),
   [Send Background.POPUP_CLEAR_LOG]).

End Script.

(** The listener over what arrives, each message with the time it is
    handled at.  The ticks of the interval in between are left out: they
    write the elapsed time and nothing else, and every status writes it
    anew. *)
Fixpoint handle {E : Engine} (s : State) (messages : list (Z * Background.Event))
    : State :=
  match messages with
  | [] => s
  | (now, message) :: rest => handle (onMessage now message s) rest
  end.

(** A popup that shows a run in progress. *)
Definition showsRun (s : State) : Prop :=
  running s = true /\ runDisabled s = true /\ stopDisabled s = false /\ timer s = true.

(** The seconds a clock text stands for: its parts, separated by
    colons, are digits in base 60. *)
Definition readClock (text : str) : N :=
  fold_left (fun acc part => (acc * 60 + ContentSpec.value part 0)%N)
    (split_on 58%N text) 0%N.

End Popup.

(** ** Examples *)

Module Examples.
Import JS Background.

(** Text in which ' stands for the double quote. *)
Definition quoted (s : string) : str :=
  List.map (fun c => if N.eqb c 39 then 34%N else c) (lit s).

(** *** A page *)

Definition box (x y w h : Z) (text : string) : Content.Layout :=
  Content.mkLayout (lit "visible") (lit "block") (lit "1")
    (Content.mkRect (inject_Z x) (inject_Z y) (inject_Z w) (inject_Z h))
    (Some (lit text)) false.

Definition attr (k v : string) : str * str := (lit k, lit v).

Definition el (name : string) (attrs : list (str * str)) (l : Content.Layout)
    (cs : list Content.Node) : Content.Node :=
  Content.Elem (lit name) attrs l cs.

Definition longLabel : str := repeat 97%N 200.

(** A form: a button with an id, two radio buttons of one name, a field
    with a long aria-label, a field found by its placeholder. *)
Definition form : Content.Node :=
  el "html" [] (box 0 0 800 600 "")
    [el "head" [] (box 0 0 0 0 "") [];
     el "body" [] (box 0 0 800 600 "Go")
       [el "button" [attr "id" "go"] (box 10 10 80 24 "Go") [Content.Text (lit "Go")];
        el "input" [attr "type" "radio"; attr "name" "color"] (box 10 40 16 16 "") [];
        el "input" [attr "type" "radio"; attr "name" "color"] (box 40 40 16 16 "") [];
        el "input" [(lit "aria-label", longLabel)] (box 10 70 200 24 "") [];
        el "input" [attr "placeholder" "Search"] (box 10 100 200 24 "") []]].

Definition page : Content.Page :=
  Content.mkPage (lit "https://example.test/") (lit "Example")
    (ofZ 800) (ofZ 600) (ofZ 0) (ofZ 0) form.

(** *** A browser *)

Definition state0 : Value :=
  VObj [field "url" (VLit "https://example.test/");
        field "title" (VLit "Example");
        field "viewport" (VObj [field "width" (VInt 800); field "height" (VInt 600);
                                field "scrollX" (VInt 0); field "scrollY" (VInt 0)]);
        field "elements"
          (VArr [VObj [field "tag" (VLit "button"); field "type" VNull;
                       field "label" (VLit "Go"); field "selector" (VLit "#go");
                       field "rect" (VObj [field "x" (VInt 10); field "y" (VInt 10);
                                           field "width" (VInt 80);
                                           field "height" (VInt 24)])]]);
        field "textSnippet" (VLit "")].

(** The tab: the state above for a state request; for an action, what
    performAction answers on the page. *)
Definition tabAnswer (message : Value) : Settled :=
  match getProp message (lit "type") with
  | VStr t =>
      if str_eqb t (lit "COLLECT_STATE") then Fulfilled state0
      else match Content.performAction (E := Reference.engine) page
                   (getProp message (lit "action")) with
           | Ok (answer, _) => Fulfilled answer
           | Throw e => Rejected e
           | Stuck _ => Rejected (lit "No response")
           end
  | _ => Rejected (lit "No response")
  end.

Definition stored : Value := VObj [field "apiKey" (VLit "key"); field "maxSteps" (VInt 2)].

(** The body of a reply of the service whose only part holds the text of
    the decision. *)
Definition replyOf (decision : string) : str :=
  quoted "{'candidates':[{'content':{'parts':[{'text':'"
  ++ flat_map (fun c => if N.eqb c 34 then [92%N; 34%N] else [c]) (quoted decision)
  ++ quoted "'}]}}]}".

Definition clickGo : string :=
  "{'done':false,'actions':[{'type':'click','selector':'#go'}]}".

Definition hoverGo : string :=
  "{'done':false,'actions':[{'type':'hover','selector':'#go'}]}".

Definition threeClicks : string :=
  "{'done':false,'actions':[{'type':'click','selector':'#go'},{'type':'click','selector':'#go'},{'type':'click','selector':'#go'}]}".

(** A browser with the stored settings, the outcome of the injection, the
    decision the service answers and the popup messages given; every other
    call succeeds. *)
Definition browser (stored : Value) (injection : Settled) (decision : string)
    (arrivals : nat -> list PopupMsg) : Env :=
  mkEnv
    (fun _ => lit "12:00:00")
    (fun t => 1700000000000 + Z.of_nat t)%Z
    (fun _ => Rejected (lit "Failed to fetch dynamically imported module"))
    (fun _ => Fulfilled stored)
    (fun _ => injection)
    (fun _ => tabAnswer)
    (fun _ => Fulfilled (VObj [field "windowId" (VInt 1)]))
    (fun _ => Fulfilled (VLit "data:image/png;base64,AAAA"))
    (fun _ => Response true 200 (replyOf decision))
    arrivals.

Definition quiet : nat -> list PopupMsg := fun _ => [].

Definition stopAt (k : nat) : nat -> list PopupMsg :=
  fun t => if Nat.eqb t k then [POPUP_STOP] else [].

Definition injected : Settled := Fulfilled (VArr []).

Definition env : Env := browser stored injected clickGo quiet.
Definition envBlocked : Env :=
  browser stored (Rejected (lit "Cannot access a chrome:// URL")) clickGo quiet.
Definition envHover : Env := browser stored injected hoverGo quiet.
Definition envStop : Env := browser stored injected threeClicks (stopAt 6).

Definition tab : Value := VInt 7.
Definition task : Value := VLit "press go".

Definition settings : Settings :=
  mkSettings (VLit "key") DEFAULTS_model (VInt 2) (VInt 0) (VBool true).

Definition settingsFull : Settings :=
  mkSettings (VLit "key") DEFAULTS_model (VInt 2) (VInt 0) (VBool false).

(** The machine once the settings are read. *)
Definition configured (e : Env) : Machine :=
  snd (getSettings (E := Reference.engine) e initialMachine).

(** A machine in the middle of a run. *)
Definition runningMachine : Machine :=
  mkMachine (mkRunState true false tab [] (Some 1700000000000%Z) None) (Some []) [] 5.

Definition click : Value :=
  VObj [field "type" (VLit "click"); field "selector" (VLit "#go")].

Definition hover : Value :=
  VObj [field "type" (VLit "hover"); field "selector" (VLit "#go")].

Definition typeSearch : Value :=
  VObj [field "type" (VLit "type"); field "text" (VLit "Search")].

Definition valueOf (r : Res Value) : Value :=
  match r with Ok v => v | _ => VUndefined end.

(** The reply of the service to the hover decision, and the decision. *)
Definition hoverReply : Value :=
  valueOf (geminiResult (E := Reference.engine) (fetchReply envHover 0)).

Definition hoverDecision : Value :=
  valueOf (@JSON_parse Reference.engine (quoted hoverGo)).

Definition noState : Content.PageState :=
  Content.mkPageState [] [] (NaN, NaN, NaN, NaN) [] [].

(** What collectPageState answers on the page, without options. *)
Definition collected : Content.PageState :=
  match Content.collectPageState (E := Reference.engine) page (VObj []) with
  | Ok s => s
  | _ => noState
  end.

Definition nodeOf (p : Content.Path) : Content.Node :=
  match Content.elementAt form p with
  | Some n => n
  | None => Content.Text []
  end.

End Examples.

(** ** More examples *)

Module Cases.
Import JS Background Examples.

(** *** On the page *)

(** The first element collected on the page: the button. *)
Definition firstCollected : Content.ElementInfo :=
  match Content.elements collected with
  | d :: _ => d
  | [] => Content.mkElementInfo [] None [] [] 0 0 0 0
  end.

(** What performAction answers and does on the page. *)
Definition performed (action : Value) : Value * list Content.Effect :=
  match Content.performAction (E := Reference.engine) page action with
  | Ok r => r
  | _ => (VUndefined, [])
  end.

(** *** Browsers *)

Definition storedNone : Value :=
  VObj [field "apiKey" (VLit "key"); field "maxSteps" (VInt 0)].

Definition settingsNone : Settings :=
  mkSettings (VLit "key") DEFAULTS_model (VInt 0) (VInt 0) (VBool true).

Definition allSet : string := "{'done':true,'actions':[],'final':'All set'}".

Definition envNone : Env := browser storedNone injected clickGo quiet.
Definition envDone : Env := browser stored injected allSet quiet.
Definition envNull : Env := browser stored injected "null" quiet.
Definition envProse : Env := browser stored injected "I cannot help with that" quiet.

(** A reply whose text wraps the decision in prose. *)
Definition sure : str := lit "Sure: ".
Definition thanks : str := lit " Thanks".
Definition decisionInside : str := quoted "'done':true,'actions':[]".

Definition proseReply : Value :=
  VObj [field "candidates"
          (VArr [VObj [field "content"
                         (VObj [field "parts"
                                  (VArr [VObj [field "text"
                                                 (VStr (sure ++ 123%N :: decisionInside
                                                        ++ 125%N :: thanks))]])])]])].

Definition messageOf {A} (r : Res A) : str :=
  match r with Throw e => e | _ => [] end.

Definition textOf (r : Res str) : str :=
  match r with Ok s => s | _ => [] end.

(** The elements of the state the tab answers. *)
Definition stateElements : list Value :=
  match getProp state0 (lit "elements") with
  | VArr l => l
  | _ => []
  end.

(** *** The popup *)

(** The form as a user may leave it: a key with spaces around it, no
    model, half a step, a delay that is no number. *)
Definition inputs : Popup.Inputs :=
  Popup.mkInputs (lit " other ") (lit "") (lit "0.5") (lit "soon") false.

Definition envSaved : Env :=
  browser (Popup.saveSettings (E := Reference.engine) inputs) injected clickGo quiet.

(** What a run sends once the settings are read, as the popup receives
    it, each message at the time given. *)
Definition watched (e : Env) (now : Z) : list (Z * Event) :=
  List.map (pair now)
    (skipn (List.length (trace (configured e)))
       (trace (snd (runAgent (E := Reference.engine) e 5 tab task initialMachine)))).

(** The machine after the run in the example browser, and the popup
    that received what the run sent. *)
Definition finished : Machine :=
  snd (runAgent (E := Reference.engine) env 5 tab task initialMachine).

Definition shown : Popup.State :=
  Popup.handle (E := Reference.engine) Popup.initialState (watched env 1700000000100).

(** A machine whose log holds a line. *)
Definition loggedMachine : Machine :=
  snd (log env (lit "Collecting state (step 1/2)...") runningMachine).

End Cases.

(** * Properties *)

(** ** The content script *)

Module ContentFacts.
Import JS Content ContentSpec.

Arguments lit : simpl never.

Section Collector.
Context {E : Engine} (pg : Page).

(** *** Limits *)

Lemma num_leb_ofZ a b : num_leb (ofZ a) (ofZ b) = (a <=? b)%Z.
Proof. cbn. unfold Qle_bool. cbn. rewrite !Z.mul_1_r. reflexivity. Qed.

Lemma num_ltb_ofZ a b : num_ltb (ofZ a) (ofZ b) = (a <? b)%Z.
Proof.
  cbn. unfold Qle_bool. cbn. rewrite !Z.mul_1_r.
  rewrite Z.ltb_antisym. reflexivity.
Qed.

Lemma Math_max_ofZ a b : Math_max (ofZ a) (ofZ b) = ofZ (Z.max a b).
Proof.
  unfold Math_max. change ((if num_leb (ofZ a) (ofZ b) then ofZ b else ofZ a) = ofZ (Z.max a b)).
  rewrite num_leb_ofZ. destruct (Z.leb_spec a b).
  - rewrite Z.max_r; auto.
  - rewrite Z.max_l; auto. lia.
Qed.

Lemma Math_min_ofZ a b : Math_min (ofZ a) (ofZ b) = ofZ (Z.min a b).
Proof.
  unfold Math_min. change ((if num_leb (ofZ a) (ofZ b) then ofZ a else ofZ b) = ofZ (Z.min a b)).
  rewrite num_leb_ofZ. destruct (Z.leb_spec a b).
  - rewrite Z.min_l; auto.
  - rewrite Z.min_r; auto. lia.
Qed.

(** normalizeLimit: the fallback when Number(value) is not finite, else
    the floor of Number(value) clamped between the bounds. *)
Lemma normalizeLimit_spec value fallback lo hi :
  normalizeLimit value (ofZ fallback) (ofZ lo) (ofZ hi) =
  match ToNumber value with
  | Fin q => ofZ (Z.min hi (Z.max lo (Qfloor q)))
  | _ => ofZ fallback
  end.
Proof.
  unfold normalizeLimit. destruct (ToNumber value); try reflexivity.
  cbn [isFinite negb Math_floor]. rewrite Math_max_ofZ, Math_min_ofZ. reflexivity.
Qed.

Lemma normalizeLimit_range value fallback lo hi :
  (lo <= fallback <= hi)%Z ->
  exists k, normalizeLimit value (ofZ fallback) (ofZ lo) (ofZ hi) = ofZ k
            /\ (lo <= k <= hi)%Z.
Proof.
  intros H. rewrite normalizeLimit_spec.
  destruct (ToNumber value); eauto. eexists. split; [reflexivity|]. lia.
Qed.

Lemma insertSorted_length x l : List.length (insertSorted x l) = S (List.length l).
Proof.
  induction l as [|y l IH]; [reflexivity|]. cbn.
  destruct (compareRects x y <=? 0)%Z; cbn; auto.
Qed.

Lemma sortElements_length l : List.length (sortElements l) = List.length l.
Proof.
  unfold sortElements. induction l as [|x l IH]; [reflexivity|].
  cbn [fold_right List.length]. rewrite insertSorted_length, IH. reflexivity.
Qed.

Lemma collectLoop_length k : forall cands acc,
  (1 <= k)%Z ->
  (Z.of_nat (List.length acc) < k)%Z ->
  (Z.of_nat (List.length (collectLoop pg (ofZ k) cands acc)) <= k)%Z.
Proof.
  induction cands as [|p rest IH]; intros acc Hk Hacc; cbn [collectLoop]; [lia|].
  destruct (elementAt (html pg) p) as [element|]; [|apply IH; auto].
  destruct (negb (isVisible element)); [apply IH; auto|].
  rewrite num_leb_ofZ. rewrite length_app. cbn [List.length].
  destruct (Z.leb_spec k (Z.of_nat (List.length acc + 1))).
  - rewrite length_app. cbn [List.length]. lia.
  - apply IH; auto. rewrite length_app. cbn [List.length]. lia.
Qed.

Lemma Qfloor_inject k : Qfloor (inject_Z k) = k.
Proof. apply Qfloor_Z. Qed.


(** *** What a collected state holds *)

Lemma insertSorted_In d x l : In d (insertSorted x l) -> d = x \/ In d l.
Proof.
  induction l as [|y l IH]; cbn.
  - intros [<-|[]]. auto.
  - destruct (compareRects x y <=? 0)%Z; cbn.
    + intros [<-|[<-|H]]; auto.
    + intros [<-|H]; auto. destruct (IH H); auto.
Qed.

Lemma sortElements_In d l : In d (sortElements l) -> In d l.
Proof.
  unfold sortElements. induction l as [|x l IH]; cbn [fold_right]; [auto|].
  intros H. apply insertSorted_In in H. destruct H as [<-|H]; [left; auto|right; auto].
Qed.

Lemma collectLoop_In maxElements d : forall cands acc,
  (forall p, In p cands -> In p (candidates pg)) ->
  In d (collectLoop pg maxElements cands acc) -> In d acc \/ describes pg d.
Proof.
  induction cands as [|p rest IH]; intros acc Hc; cbn [collectLoop]; [auto|].
  assert (Hrest : forall q, In q rest -> In q (candidates pg))
    by (intros q Hq; apply Hc; right; exact Hq).
  destruct (elementAt (html pg) p) as [element|] eqn:Ee; [|apply IH; auto].
  destruct (isVisible element) eqn:V; cbn [negb]; [|apply IH; auto].
  assert (D : describes pg (describe pg p element)).
  { exists p, element. repeat split; auto. apply Hc. left. reflexivity. }
  assert (X : In d (acc ++ [describe pg p element]) -> In d acc \/ describes pg d).
  { intros H. apply in_app_or in H. destruct H as [H|[<-|[]]]; auto. }
  destruct (num_leb maxElements _); [exact X|].
  intros H. destruct (IH _ Hrest H) as [H'|H']; auto.
Qed.

Lemma collected_described options state d :
  collectPageState pg options = Ok state -> In d (elements state) -> describes pg d.
Proof.
  unfold collectPageState.
  destruct (readProp _ (lit "maxElements")); cbn [res_bind]; try discriminate.
  intros H. injection H as <-. cbn [elements]. intros Hd.
  apply sortElements_In in Hd. apply collectLoop_In in Hd; auto.
  destruct Hd as [[]|Hd]. exact Hd.
Qed.

(** *** Labels *)

Lemma slice0_length n s : (List.length (slice0 n s) <= n)%nat.
Proof. unfold slice0. rewrite length_firstn. lia. Qed.

(** C4, as the code has it: the label of a collected element is the
    label getLabel gives one of the page's elements; it is sliced to 160
    units when it comes from the element's own text, and is the whole
    trimmed value when it comes from aria-label, the aria-labelledby
    target, placeholder or alt. *)
Theorem label_length options state d :
  collectPageState pg options = Ok state ->
  In d (elements state) ->
  exists p element,
    elementAt (html pg) p = Some element
    /\ label d = getLabel pg element
    /\ match labelSource pg element with
       | FromOwnText text =>
           label d = slice0 160 (trim text) /\ (List.length (label d) <= 160)%nat
       | FromAriaLabel v | FromLabelledBy v | FromPlaceholder v | FromAlt v =>
           label d = trim v
       end.
Proof.
  intros Hs Hd. destruct (collected_described options state d Hs Hd)
    as (p & element & _ & Ee & _ & ->).
  exists p, element. split; auto. split; [reflexivity|].
  cbn [describe label]. unfold getLabel, labelSource.
  destruct (nonempty (getAttribute element (lit "aria-label"))); [reflexivity|].
  destruct (match nonempty (getAttribute element (lit "aria-labelledby")) with
            | Some labelledBy => _
            | None => None
            end); [reflexivity|].
  destruct (nonempty (getAttribute element (lit "placeholder"))); [reflexivity|].
  destruct (nonempty (getAttribute element (lit "alt"))); [reflexivity|].
  split; [reflexivity|apply slice0_length].
Qed.

(** *** Actions *)

Lemma isStr_eq v s : isStr v s = true -> v = VLit s.
Proof.
  destruct v; cbn; try discriminate. unfold str_eqb.
  destruct (list_eq_dec N.eq_dec s0 (lit s)); [subst; reflexivity|discriminate].
Qed.

Lemma isStr_lit s : isStr (VLit s) s = true.
Proof.
  cbn. unfold str_eqb. destruct (list_eq_dec N.eq_dec (lit s) (lit s)); congruence.
Qed.


Lemma isStr_other type s :
  type <> lit s -> isStr (VStr type) s = false.
Proof.
  intros H. cbn. unfold str_eqb.
  destruct (list_eq_dec N.eq_dec type (lit s)); [contradiction|reflexivity].
Qed.

(** An action whose type is none of the schema's: the executor refuses
    it, and does no more than scroll its target into view. *)
Lemma unknown_type_fails action type :
  getProp action (lit "type") = VStr type ->
  ~ In type Background.ACTION_TYPES ->
  performAction pg action
  = match type with
    | [] => Ok (failure (lit "Missing action type"), [])
    | _ =>
        match resolveTarget pg action with
        | Ok None => Ok (failure (lit "Target not found"), [])
        | Ok (Some element) =>
            Ok (failure (lit "Unsupported action: " ++ type), [ScrollIntoView element])
        | Throw e => Throw e
        | Stuck w => Stuck w
        end
    end.
Proof.
  intros Ht Hn. unfold performAction, optProp. rewrite Ht.
  destruct type as [|c type]; [reflexivity|]. cbn [truthy negb].
  assert (X : forall s, In (lit s) Background.ACTION_TYPES ->
                        isStr (VStr (c :: type)) s = false).
  { intros s Hs. apply isStr_other. intros Heq. apply Hn. rewrite Heq. exact Hs. }
  rewrite (X "wait"%string), (X "scroll"%string), (X "click"%string),
    (X "type"%string), (X "key"%string);
    cbn [Background.ACTION_TYPES In]; auto 10.
Qed.

End Collector.

(** *** Reading back what getSelector writes *)

Lemma consume_name_stops fuel rest :
  stops rest -> consume_name fuel rest = ([], rest).
Proof.
  destruct fuel; [reflexivity|].
  destruct rest as [|c r]; [reflexivity|]. intros (Hc & H92). cbn [consume_name].
  rewrite Hc. destruct (N.eqb_spec c 92); [contradiction|reflexivity].
Qed.

Lemma consume_name_plain t : forall rest fuel,
  forallb is_name_char t = true ->
  stops rest ->
  (List.length t <= fuel)%nat ->
  consume_name fuel (t ++ rest) = (t, rest).
Proof.
  induction t as [|c t IH]; intros rest fuel Ht Hr Hf.
  - apply consume_name_stops, Hr.
  - destruct fuel; [inversion Hf|]. cbn in Ht. apply andb_prop in Ht as (Hc & Ht).
    cbn [app consume_name]. rewrite Hc, (IH rest fuel Ht Hr); [reflexivity|].
    cbn in Hf. lia.
Qed.

Lemma is_letter_name_start c : is_letter c = true -> is_name_start c = true.
Proof. intros H. unfold is_name_start. rewrite H. reflexivity. Qed.

Lemma is_letter_name_char c : is_letter c = true -> is_name_char c = true.
Proof.
  intros H. unfold is_name_char. rewrite (is_letter_name_start c H). reflexivity.
Qed.

Lemma is_letter_not_hyphen c : is_letter c = true -> c <> 45%N.
Proof. intros H ->. discriminate H. Qed.

Lemma consume_ident_plain t rest :
  plain_name t = true -> stops rest ->
  consume_ident (t ++ rest) = Some (t, rest).
Proof.
  intros Ht Hr. destruct t as [|c t]; [discriminate|].
  cbn in Ht. apply andb_prop in Ht as (Hc & Ht).
  unfold consume_ident.
  assert (S : starts_ident ((c :: t) ++ rest) = true).
  { cbn [app starts_ident]. pose proof (is_letter_not_hyphen c Hc).
    destruct (N.eqb_spec c 45); [contradiction|].
    rewrite (is_letter_name_start _ Hc). reflexivity. }
  rewrite S. f_equal. apply consume_name_plain; auto.
  - cbn. rewrite (is_letter_name_char c Hc). exact Ht.
  - rewrite length_app. cbn. lia.
Qed.

Lemma value_app l1 l2 a : value (l1 ++ l2) a = value l2 (value l1 a).
Proof. revert a. induction l1 as [|c l1 IH]; intros a; cbn; auto. Qed.

Lemma digits_of_value l : forall rest a count,
  forallb is_digit l = true -> no_digit_first rest ->
  digits_of (l ++ rest) a count = (value l a, (count + List.length l)%nat, rest).
Proof.
  induction l as [|c l IH]; intros rest a count Hl Hr.
  - cbn [app value List.length]. rewrite Nat.add_0_r.
    destruct rest as [|c r]; [reflexivity|]. cbn in *. rewrite Hr. reflexivity.
  - cbn in Hl. apply andb_prop in Hl as (Hc & Hl).
    cbn [app digits_of value List.length]. rewrite Hc, (IH rest _ _ Hl Hr).
    f_equal. f_equal. lia.
Qed.

Lemma digit_char d : (d < 10)%N -> is_digit (48 + d) = true /\ (48 + d - 48 = d)%N.
Proof.
  intros H. split; [|lia]. unfold is_digit.
  apply andb_true_intro. split; apply N.leb_le; lia.
Qed.

Lemma digits_fuel_S fuel n acc :
  digits_fuel (S fuel) n acc =
  if (n <? 10)%N then (48 + n mod 10)%N :: acc
  else digits_fuel fuel (n / 10)%N ((48 + n mod 10)%N :: acc).
Proof. reflexivity. Qed.

Lemma digits_fuel_spec fuel : forall n acc,
  (n < 10 ^ N.of_nat (S fuel))%N ->
  exists d, digits_fuel (S fuel) n acc = d ++ acc
            /\ forallb is_digit d = true
            /\ d <> []
            /\ value d 0 = n.
Proof.
  induction fuel as [|fuel IH]; intros n acc Hn.
  - rewrite digits_fuel_S. replace (n <? 10)%N with true.
    2:{ symmetry. apply N.ltb_lt. cbn in Hn. lia. }
    destruct (digit_char (n mod 10)) as (D & V); [apply N.mod_lt; lia|].
    exists [(48 + n mod 10)%N]. repeat split; auto.
    + cbn [forallb]. rewrite D. reflexivity.
    + discriminate.
    + cbn [value]. rewrite V. rewrite N.mod_small; [lia|]. cbn in Hn. lia.
  - rewrite digits_fuel_S.
    destruct (digit_char (n mod 10)) as (D & V); [apply N.mod_lt; lia|].
    destruct (N.ltb_spec n 10).
    + exists [(48 + n mod 10)%N]. repeat split; auto.
      * cbn [forallb]. rewrite D. reflexivity.
      * discriminate.
      * cbn [value]. rewrite V. rewrite N.mod_small; lia.
    + destruct (IH (n / 10)%N ((48 + n mod 10)%N :: acc)) as (d & Hd & Dd & Nd & Vd).
      { apply N.Div0.div_lt_upper_bound.
        replace (N.of_nat (S (S fuel))) with (N.succ (N.of_nat (S fuel))) in Hn by lia.
        rewrite N.pow_succ_r' in Hn. exact Hn. }
      exists (d ++ [(48 + n mod 10)%N]). repeat split.
      * rewrite Hd, <- app_assoc. reflexivity.
      * rewrite forallb_app, Dd. cbn [forallb]. rewrite D. reflexivity.
      * destruct d; discriminate.
      * rewrite value_app, Vd. cbn [value]. rewrite V.
        pose proof (N.div_mod n 10 ltac:(lia)). lia.
Qed.

Lemma N_to_str_spec n :
  exists d, N_to_str n = d /\ forallb is_digit d = true /\ d <> [] /\ value d 0 = n.
Proof.
  unfold N_to_str.
  destruct (digits_fuel_spec (N.to_nat (N.log2 n)) n []) as (d & Hd & X).
  - destruct (N.eq_dec n 0) as [->|Hn]; [cbn; lia|].
    eapply N.lt_le_trans; [apply N.log2_spec; lia|].
    replace (N.of_nat (S (N.to_nat (N.log2 n)))) with (N.succ (N.log2 n)) by lia.
    apply N.pow_le_mono_l. lia.
  - exists d. rewrite Hd, app_nil_r. auto.
Qed.

Lemma digits_of_N_to_str n rest :
  no_digit_first rest ->
  exists count, digits_of (N_to_str n ++ rest) 0 0 = (n, S count, rest).
Proof.
  intros Hr. destruct (N_to_str_spec n) as (d & -> & Dd & Nd & Vd).
  rewrite (digits_of_value d rest 0 0 Dd Hr), Vd.
  destruct d as [|c d]; [contradiction|]. exists (List.length d). reflexivity.
Qed.

Lemma consume_string_escapeAttr v : forall rest fuel,
  clean v = true ->
  (List.length (escapeAttr v) < fuel)%nat ->
  consume_string 34 fuel (escapeAttr v ++ 34%N :: rest) = Some (v, rest).
Proof.
  induction v as [|c v IH]; intros rest fuel Hv Hf.
  - destruct fuel; [inversion Hf|]. reflexivity.
  - cbn in Hv. apply andb_prop in Hv as (Hc & Hv).
    unfold clean_unit in Hc. apply andb_prop in Hc as (Hc & H0).
    apply andb_prop in Hc as (H92 & Hnl).
    apply negb_true_iff in H92, Hnl.
    destruct fuel as [|fuel]; [inversion Hf|].
    unfold escapeAttr in *. cbn [flat_map] in *.
    destruct (N.eqb_spec c 34) as [->|H34].
    + cbn [app consume_string N.eqb Pos.eqb is_newline orb consume_escape hex_value
             is_digit N.leb N.compare Pos.compare Pos.compare_cont andb].
      cbn in Hf. rewrite (IH rest fuel Hv); [reflexivity|]. cbn in Hf. lia.
    + cbn [app consume_string]. destruct (N.eqb_spec c 34); [contradiction|].
      rewrite Hnl, H92. cbn in Hf. rewrite (IH rest fuel Hv); [reflexivity|lia].
Qed.

(** CSS.escape, read back as an identifier. *)
Lemma hex_digit_value d :
  (d < 16)%N -> hex_value (hex_digit d) = Some d /\ is_newline (hex_digit d) = false.
Proof.
  intros H. assert (X : forallb (fun d => match hex_value (hex_digit d) with
                                         | Some v => N.eqb v d
                                         | None => false
                                         end && negb (is_newline (hex_digit d)))
                          (List.map N.of_nat (seq 0 16)) = true) by reflexivity.
  rewrite forallb_forall in X. specialize (X d).
  assert (In d (List.map N.of_nat (seq 0 16))).
  { apply in_map_iff. exists (N.to_nat d). split; [lia|]. apply in_seq. lia. }
  specialize (X H0). apply andb_prop in X as (X1 & X2).
  destruct (hex_value (hex_digit d)); [|discriminate].
  apply N.eqb_eq in X1. subst. apply negb_true_iff in X2. auto.
Qed.

Lemma to_hex_small c :
  (c < 256)%N ->
  to_hex c = if (c <? 16)%N then [hex_digit c]
             else [hex_digit (c / 16); hex_digit (c mod 16)].
Proof.
  intros H. assert (X : forallb (fun c => str_eqb (to_hex c)
                             (if (c <? 16)%N then [hex_digit c]
                              else [hex_digit (c / 16); hex_digit (c mod 16)]))
                          (List.map N.of_nat (seq 0 256)) = true) by (vm_compute; reflexivity).
  rewrite forallb_forall in X. specialize (X c).
  assert (In c (List.map N.of_nat (seq 0 256))).
  { apply in_map_iff. exists (N.to_nat c). split; [lia|]. apply in_seq. lia. }
  specialize (X H0). unfold str_eqb in X.
  destruct (list_eq_dec N.eq_dec (to_hex c) _); [auto|discriminate].
Qed.

Lemma code_units_small c : (0 < c < 256)%N -> code_units c = [c].
Proof.
  intros H. unfold code_units.
  replace (N.eqb c 0) with false by (symmetry; apply N.eqb_neq; lia).
  replace (55296 <=? c)%N with false by (symmetry; apply N.leb_gt; lia).
  replace (1114111 <? c)%N with false by (symmetry; apply N.ltb_ge; lia).
  replace (c <? 65536)%N with true by (symmetry; apply N.ltb_lt; lia).
  reflexivity.
Qed.

Lemma consume_escape_hex c tail :
  (0 < c < 256)%N ->
  consume_escape (to_hex c ++ 32%N :: tail) = Some ([c], tail).
Proof.
  intros H. rewrite to_hex_small by lia. destruct (N.ltb_spec c 16).
  - destruct (hex_digit_value c) as (V & Nl); [lia|].
    cbn [app consume_escape]. rewrite Nl, V. cbn [take_hex hex_value is_digit N.leb
      N.compare Pos.compare Pos.compare_cont andb is_css_ws is_newline N.eqb Pos.eqb orb].
    rewrite code_units_small by lia. reflexivity.
  - destruct (hex_digit_value (c / 16)) as (V1 & Nl1).
    { apply N.Div0.div_lt_upper_bound. lia. }
    destruct (hex_digit_value (c mod 16)) as (V2 & Nl2); [apply N.mod_lt; lia|].
    cbn [app consume_escape]. rewrite Nl1, V1. cbn [take_hex]. rewrite V2.
    cbn [take_hex hex_value is_digit N.leb
      N.compare Pos.compare Pos.compare_cont andb is_css_ws is_newline N.eqb Pos.eqb orb].
    replace (c / 16 * 16 + c mod 16)%N with c
      by (pose proof (N.div_mod c 16 ltac:(lia)); lia).
    rewrite code_units_small by lia. reflexivity.
Qed.

Ltac split_tests :=
  repeat match goal with
         | |- context [N.leb ?a ?b] => destruct (N.leb_spec a b)
         | |- context [N.ltb ?a ?b] => destruct (N.ltb_spec a b)
         | |- context [N.eqb ?a ?b] => destruct (N.eqb_spec a b)
         | H : context [N.leb ?a ?b] |- _ => destruct (N.leb_spec a b)
         | H : context [N.ltb ?a ?b] |- _ => destruct (N.ltb_spec a b)
         | H : context [N.eqb ?a ?b] |- _ => destruct (N.eqb_spec a b)
         end.

Ltac tests := split_tests; cbn in *; try reflexivity; try discriminate; try lia.

Lemma control_or_digit_small c :
  (((1 <=? c) && (c <=? 31)) || N.eqb c 127)%N || is_digit c = true ->
  (0 < c < 256)%N.
Proof. unfold is_digit. intros H. tests. Qed.

Lemma raw_is_name_char c :
  (128 <=? c)%N || N.eqb c 45 || N.eqb c 95 || is_digit c || is_letter c = true ->
  is_name_char c = true.
Proof.
  unfold is_name_char, is_name_start, is_digit, is_letter. intros H. tests.
Qed.

Lemma other_is_literal c :
  (((1 <=? c) && (c <=? 31)) || N.eqb c 127)%N = false ->
  (128 <=? c)%N || N.eqb c 45 || N.eqb c 95 || is_digit c || is_letter c = false ->
  c <> 0%N ->
  is_name_char c = false /\ is_newline c = false /\ hex_value c = None.
Proof.
  intros H1 H2 H0.
  apply orb_false_iff in H2 as (H2 & Hl). apply orb_false_iff in H2 as (H2 & Hd).
  apply orb_false_iff in H2 as (H2 & H95). apply orb_false_iff in H2 as (H128 & H45).
  apply orb_false_iff in H1 as (H1 & _).
  assert (Lo : (32 <= c)%N).
  { destruct (N.leb_spec 1 c); destruct (N.leb_spec c 31); try discriminate H1; lia. }
  split; [|split].
  - unfold is_name_char, is_name_start. rewrite Hl, Hd, H95, H128, H45. reflexivity.
  - unfold is_newline.
    destruct (N.eqb_spec c 10); [lia|]. destruct (N.eqb_spec c 13); [lia|].
    destruct (N.eqb_spec c 12); [lia|]. reflexivity.
  - unfold hex_value. rewrite Hd. unfold is_letter in Hl.
    apply orb_false_iff in Hl as (Hu & Hw).
    destruct (N.leb_spec 97 c); destruct (N.leb_spec c 102); cbn [andb];
      destruct (N.leb_spec 65 c); destruct (N.leb_spec c 70); cbn [andb];
      try reflexivity; exfalso.
    all: try (destruct (N.leb_spec 97 c); [|lia]; destruct (N.leb_spec c 122); [|lia];
              discriminate Hw).
    all: destruct (N.leb_spec 65 c); [|lia]; destruct (N.leb_spec c 90); [|lia];
         discriminate Hu.
Qed.

Lemma escape_unit_read first len idx c tail f :
  c <> 0%N ->
  consume_name (S f) (escape_unit first len idx c ++ tail)
  = (let '(n, t) := consume_name f tail in (c :: n, t)).
Proof.
  intros H0. unfold escape_unit.
  destruct (N.eqb_spec c 0); [contradiction|].
  destruct (((1 <=? c) && (c <=? 31) || N.eqb c 127)%N
            || Nat.eqb idx 0 && is_digit c
            || Nat.eqb idx 1 && is_digit c && N.eqb first 45) eqn:B1.
  - assert (Hc : (0 < c < 256)%N).
    { apply control_or_digit_small.
      destruct ((1 <=? c) && (c <=? 31) || N.eqb c 127)%N; [reflexivity|].
      destruct (is_digit c); [reflexivity|].
      destruct (Nat.eqb idx 0), (Nat.eqb idx 1); discriminate B1. }
    cbn [app consume_name]. cbn [is_name_char is_name_start is_letter is_digit N.leb
      N.eqb N.compare Pos.compare Pos.compare_cont Pos.eqb andb orb].
    rewrite <- app_assoc. cbn [app]. rewrite (consume_escape_hex c tail Hc).
    reflexivity.
  - destruct (Nat.eqb idx 0 && Nat.eqb len 1 && N.eqb c 45) eqn:B2.
    + apply andb_prop in B2 as (_ & B2). apply N.eqb_eq in B2. subst c. reflexivity.
    + destruct ((128 <=? c)%N || N.eqb c 45 || N.eqb c 95 || is_digit c || is_letter c)
        eqn:B3.
      * cbn [app consume_name]. rewrite (raw_is_name_char c B3). reflexivity.
      * assert (B1' : (((1 <=? c) && (c <=? 31)) || N.eqb c 127)%N = false).
        { destruct ((1 <=? c) && (c <=? 31) || N.eqb c 127)%N; [discriminate B1|reflexivity]. }
        destruct (other_is_literal c B1' B3 H0) as (X1 & X2 & X3).
        cbn [app consume_name]. cbn [is_name_char is_name_start is_letter is_digit N.leb
          N.eqb N.compare Pos.compare Pos.compare_cont Pos.eqb andb orb consume_escape].
        rewrite X2, X3. reflexivity.
Qed.

Lemma escape_unit_length first len idx c : (1 <= List.length (escape_unit first len idx c))%nat.
Proof.
  unfold escape_unit.
  repeat match goal with |- context [if ?b then _ else _] => destruct b end;
    cbn [List.length]; lia.
Qed.

Lemma consume_name_escape s : forall first len idx rest fuel,
  no_nul s = true ->
  stops rest ->
  (List.length (escape_from first len idx s) <= fuel)%nat ->
  consume_name fuel (escape_from first len idx s ++ rest) = (s, rest).
Proof.
  induction s as [|c s IH]; intros first len idx rest fuel Hs Hr Hf.
  - apply consume_name_stops, Hr.
  - cbn in Hs. apply andb_prop in Hs as (Hc & Hs). apply negb_true_iff in Hc.
    apply N.eqb_neq in Hc. cbn [escape_from] in *. rewrite length_app in Hf.
    pose proof (escape_unit_length first len idx c).
    destruct fuel as [|fuel]; [lia|].
    rewrite <- app_assoc, escape_unit_read by exact Hc.
    rewrite (IH first len (S idx) rest fuel Hs Hr); [reflexivity|lia].
Qed.

(** A unit is written raw, or behind a backslash that starts an escape. *)
Lemma escape_unit_shape first len idx c :
  c <> 0%N ->
  (escape_unit first len idx c = [c]
   /\ (128 <=? c)%N || N.eqb c 45 || N.eqb c 95 || is_digit c || is_letter c = true
   /\ Nat.eqb idx 0 && is_digit c = false
   /\ Nat.eqb idx 1 && is_digit c && N.eqb first 45 = false
   /\ Nat.eqb idx 0 && Nat.eqb len 1 && N.eqb c 45 = false)
  \/ exists h t, escape_unit first len idx c = 92%N :: h :: t /\ is_newline h = false.
Proof.
  intros H0. unfold escape_unit.
  destruct (N.eqb_spec c 0); [contradiction|].
  destruct (((1 <=? c) && (c <=? 31) || N.eqb c 127)%N
            || Nat.eqb idx 0 && is_digit c
            || Nat.eqb idx 1 && is_digit c && N.eqb first 45) eqn:B1.
  - right. assert (Hc : (0 < c < 256)%N).
    { apply control_or_digit_small.
      destruct ((1 <=? c) && (c <=? 31) || N.eqb c 127)%N; [reflexivity|].
      destruct (is_digit c); [reflexivity|].
      destruct (Nat.eqb idx 0), (Nat.eqb idx 1); discriminate B1. }
    rewrite to_hex_small by lia. destruct (N.ltb_spec c 16).
    + do 2 eexists. split; [reflexivity|]. apply hex_digit_value. lia.
    + do 2 eexists. split; [reflexivity|]. apply hex_digit_value.
      apply N.Div0.div_lt_upper_bound. lia.
  - destruct (Nat.eqb idx 0 && Nat.eqb len 1 && N.eqb c 45) eqn:B2.
    + right. do 2 eexists. split; [reflexivity|].
      apply andb_prop in B2 as (_ & B2). apply N.eqb_eq in B2. subst c. reflexivity.
    + destruct ((128 <=? c)%N || N.eqb c 45 || N.eqb c 95 || is_digit c || is_letter c)
        eqn:B3.
      * left. split; [reflexivity|]. split; [reflexivity|].
        destruct ((1 <=? c) && (c <=? 31) || N.eqb c 127)%N; [discriminate B1|].
        cbn [orb] in B1. apply orb_false_elim in B1 as (X1 & X2). auto.
      * right. do 2 eexists. split; [reflexivity|].
        assert (B1' : (((1 <=? c) && (c <=? 31)) || N.eqb c 127)%N = false).
        { destruct ((1 <=? c) && (c <=? 31) || N.eqb c 127)%N; [discriminate B1|reflexivity]. }
        apply (other_is_literal c B1' B3 H0).
Qed.

Lemma raw_not_digit c :
  (128 <=? c)%N || N.eqb c 45 || N.eqb c 95 || is_digit c || is_letter c = true ->
  is_digit c = false ->
  is_name_start c || N.eqb c 45 = true.
Proof.
  unfold is_name_start, is_digit, is_letter. intros H D. tests.
Qed.

Lemma starts_ident_escaped h t : is_newline h = false -> starts_ident (92%N :: h :: t) = true.
Proof. intros H. cbn. rewrite H. reflexivity. Qed.

Lemma starts_ident_escape s rest :
  s <> [] -> no_nul s = true -> starts_ident (CSS_escape s ++ rest) = true.
Proof.
  intros Hne Hs. destruct s as [|c s]; [contradiction|]. clear Hne.
  cbn in Hs. apply andb_prop in Hs as (Hc & Hs). apply negb_true_iff, N.eqb_neq in Hc.
  unfold CSS_escape. cbn [hd escape_from List.length].
  destruct (escape_unit_shape c (S (List.length s)) 0 c Hc)
    as [(-> & B3 & D0 & _ & B2)|(h & t & -> & Hh)].
  2:{ cbn [app]. apply starts_ident_escaped, Hh. }
  cbn [Nat.eqb andb] in D0, B2.
  pose proof (raw_not_digit c B3 D0) as X.
  cbn [app starts_ident]. destruct (N.eqb_spec c 45) as [->|H45].
  2:{ rewrite orb_false_r in X. rewrite X. reflexivity. }
  destruct s as [|c1 s]; [discriminate B2|].
  cbn in Hs. apply andb_prop in Hs as (Hc1 & Hs).
  apply negb_true_iff, N.eqb_neq in Hc1. cbn [escape_from List.length].
  destruct (escape_unit_shape 45 (S (S (List.length s))) 1 c1 Hc1)
    as [(-> & B3' & _ & D1 & _)|(h & t & -> & Hh)].
  - cbn [app]. cbn [Nat.eqb andb N.eqb Pos.eqb] in D1. rewrite andb_true_r in D1.
    rewrite (raw_not_digit c1 B3' D1). reflexivity.
  - cbn [app]. cbn [is_name_start is_letter N.leb N.eqb N.compare Pos.compare
      Pos.compare_cont Pos.eqb andb orb valid_escape]. rewrite Hh. reflexivity.
Qed.

Lemma consume_ident_escape s rest :
  s <> [] -> no_nul s = true -> stops rest ->
  consume_ident (CSS_escape s ++ rest) = Some (s, rest).
Proof.
  intros Hne Hs Hr. unfold consume_ident.
  rewrite (starts_ident_escape s rest Hne Hs). f_equal.
  apply consume_name_escape; auto. rewrite length_app. unfold CSS_escape. lia.
Qed.

(** *** The selectors getSelector writes, parsed *)

Lemma expect_other c x r : x <> c -> expect c (x :: r) = None.
Proof. intros H. cbn. destruct (N.eqb_spec x c); [contradiction|reflexivity]. Qed.

Lemma parse_simples_end fuel : parse_simples (S fuel) [] = Some ([], []).
Proof. reflexivity. Qed.

Lemma parse_id_selector id :
  id <> [] -> no_nul id = true ->
  parse_selector (lit "#" ++ CSS_escape id) = Some [([SId id], [])].
Proof.
  intros Hne Hn. change (lit "#") with [35%N]. cbn [app].
  unfold parse_selector. cbn [List.length Nat.add parse_list skip_css_ws dropWhile
    is_css_ws is_newline N.eqb Pos.eqb orb].
  unfold parse_complex, parse_compound.
  cbn [expect N.eqb Pos.eqb consume_ident starts_ident is_name_start is_letter N.leb
    N.compare Pos.compare Pos.compare_cont andb orb List.length Nat.add parse_simples
    option_map].
  rewrite <- (app_nil_r (CSS_escape id)) at 1.
  rewrite (consume_ident_escape id [] Hne Hn I). cbn [option_map fst snd].
  destruct (CSS_escape id) eqn:Ee; reflexivity.
Qed.

(** *** HTML names *)

Lemma is_lower_letter c : is_lower c = true -> is_letter c = true.
Proof. unfold is_lower, is_letter. intros H. tests. Qed.

Lemma is_lower_name_char_ok c : is_lower_name_char c = true -> is_name_char c = true.
Proof.
  unfold is_lower_name_char, is_lower, is_name_char, is_name_start, is_letter, is_digit.
  intros H. tests.
Qed.

Lemma html_name_plain t : html_name t = true -> plain_name t = true.
Proof.
  destruct t as [|c r]; [discriminate|]. cbn. intros H.
  apply andb_prop in H as (Hc & Hr). rewrite (is_lower_letter c Hc). cbn.
  apply forallb_forall. intros x Hx. apply is_lower_name_char_ok.
  exact (proj1 (forallb_forall _ _) Hr x Hx).
Qed.

Lemma lower_unit_fixed c :
  is_lower_name_char c = true ->
  ascii_lower c = c /\ ascii_lower (ascii_upper c) = c /\ is_ascii (ascii_upper c) = true.
Proof.
  unfold is_lower_name_char, is_lower, is_digit, ascii_lower, ascii_upper, is_upper, is_ascii.
  intros H. repeat split; tests.
Qed.

Lemma lower_name_chars t :
  forallb is_lower_name_char t = true ->
  List.map ascii_lower t = t
  /\ List.map ascii_lower (List.map ascii_upper t) = t
  /\ forallb is_ascii (List.map ascii_upper t) = true.
Proof.
  induction t as [|c t IH]; [intros _; repeat split|].
  cbn. intros H. apply andb_prop in H as (Hc & Ht).
  destruct (IH Ht) as (A & B & C). destruct (lower_unit_fixed c Hc) as (A' & B' & C').
  rewrite A, B, C, A', B', C'. repeat split.
Qed.

Lemma html_name_chars t : html_name t = true -> forallb is_lower_name_char t = true.
Proof.
  destruct t as [|c r]; [discriminate|]. cbn. intros H.
  apply andb_prop in H as (Hc & Hr). unfold is_lower_name_char at 1. rewrite Hc, Hr.
  reflexivity.
Qed.

Lemma html_name_lower t : html_name t = true -> lower_ascii t = t.
Proof. intros H. apply (lower_name_chars t (html_name_chars t H)). Qed.

Lemma html_name_tag {E : Engine} t :
  html_name t = true -> toLowerCase (List.map ascii_upper t) = t.
Proof.
  intros H. destruct (lower_name_chars t (html_name_chars t H)) as (_ & B & C).
  rewrite (toLowerCase_ascii _ C). exact B.
Qed.

Lemma upper_unit_injective a b :
  is_lower_name_char a = true -> is_lower_name_char b = true ->
  ascii_upper a = ascii_upper b -> a = b.
Proof.
  intros Ha Hb Hab. destruct (lower_unit_fixed a Ha) as (_ & A & _).
  destruct (lower_unit_fixed b Hb) as (_ & B & _). rewrite <- A, <- B, Hab. reflexivity.
Qed.

Lemma html_name_upper_injective a b :
  html_name a = true -> html_name b = true ->
  List.map ascii_upper a = List.map ascii_upper b -> a = b.
Proof.
  intros Ha Hb Hab.
  destruct (lower_name_chars a (html_name_chars a Ha)) as (_ & A & _).
  destruct (lower_name_chars b (html_name_chars b Hb)) as (_ & B & _).
  rewrite <- A, <- B, Hab. reflexivity.
Qed.

(** *** Parsing what getSelector writes *)

Lemma skip_css_ws_keeps c r : is_css_ws c = false -> skip_css_ws (c :: r) = c :: r.
Proof. intros H. unfold skip_css_ws. cbn. rewrite H. reflexivity. Qed.

Lemma name_char_not_ws c : is_name_char c = true -> is_css_ws c = false.
Proof.
  intros H. unfold is_css_ws, is_newline.
  destruct (N.eqb_spec c 10) as [->|_]; [discriminate H|].
  destruct (N.eqb_spec c 13) as [->|_]; [discriminate H|].
  destruct (N.eqb_spec c 12) as [->|_]; [discriminate H|].
  destruct (N.eqb_spec c 9) as [->|_]; [discriminate H|].
  destruct (N.eqb_spec c 32) as [->|_]; [discriminate H|].
  reflexivity.
Qed.

Lemma plain_name_first t rest :
  plain_name t = true ->
  exists c r, t ++ rest = c :: r /\ is_letter c = true.
Proof.
  destruct t as [|c t]; [discriminate|]. cbn. intros H.
  apply andb_prop in H as (Hc & _). eauto.
Qed.

Lemma skip_css_ws_plain t rest :
  plain_name t = true -> skip_css_ws (t ++ rest) = t ++ rest.
Proof.
  intros H. destruct (plain_name_first t rest H) as (c & r & -> & Hc).
  apply skip_css_ws_keeps, name_char_not_ws, is_letter_name_char, Hc.
Qed.

Lemma parse_attr_written name v rest :
  plain_name name = true -> clean v = true ->
  parse_attr (name ++ 61%N :: 34%N :: escapeAttr v ++ 34%N :: 93%N :: rest)
  = Some (SAttrEq name v, rest).
Proof.
  intros Hn Hv. unfold parse_attr. rewrite (skip_css_ws_plain _ _ Hn).
  rewrite (consume_ident_plain name _ Hn) by (cbn; split; [reflexivity|discriminate]).
  rewrite (skip_css_ws_keeps 61 _ eq_refl).
  rewrite (skip_css_ws_keeps 34 _ eq_refl).
  rewrite consume_string_escapeAttr; [|exact Hv|rewrite length_app; lia].
  rewrite (skip_css_ws_keeps 93 _ eq_refl). reflexivity.
Qed.

Lemma parse_compound_typed t rest l r' :
  plain_name t = true -> stops rest ->
  parse_simples (List.length rest + 1) rest = Some (l, r') ->
  parse_compound (t ++ rest) = Some (SType t :: l, r').
Proof.
  intros Ht Hr Hp. unfold parse_compound.
  destruct (plain_name_first t rest Ht) as (c & r & Ec & Hc).
  assert (X : expect 42 (t ++ rest) = None).
  { rewrite Ec. apply expect_other. intros ->. discriminate Hc. }
  rewrite X, (consume_ident_plain t rest Ht Hr), Hp. reflexivity.
Qed.

Lemma parse_selector_single s c l :
  skip_css_ws s = s ->
  parse_compound s = Some (c, l) ->
  parse_rest (List.length l + 1) l = Some ([], []) ->
  parse_selector s = Some [(c, [])].
Proof.
  intros Hs Hc Hl. unfold parse_selector. rewrite Nat.add_1_r. cbn [parse_list].
  rewrite Hs. unfold parse_complex. rewrite Hc, Hl. reflexivity.
Qed.

Lemma parse_attr_selector name v :
  plain_name name = true -> clean v = true ->
  parse_selector (91%N :: name ++ 61%N :: 34%N :: escapeAttr v ++ [34%N; 93%N])
  = Some [([SAttrEq name v], [])].
Proof.
  intros Hn Hv. apply parse_selector_single with (l := []).
  - reflexivity.
  - unfold parse_compound. cbn [expect N.eqb Pos.eqb].
    unfold consume_ident. cbn [starts_ident N.eqb Pos.eqb is_name_start is_letter N.leb
      N.compare Pos.compare Pos.compare_cont andb orb].
    rewrite Nat.add_1_r. cbn [parse_simples].
    rewrite (parse_attr_written name v [] Hn Hv). reflexivity.
  - reflexivity.
Qed.

Lemma parse_typed_attr_selector t name v :
  plain_name t = true -> plain_name name = true -> clean v = true ->
  parse_selector (t ++ 91%N :: name ++ 61%N :: 34%N :: escapeAttr v ++ [34%N; 93%N])
  = Some [([SType t; SAttrEq name v], [])].
Proof.
  intros Ht Hn Hv. apply parse_selector_single with (l := []).
  - apply skip_css_ws_plain, Ht.
  - apply parse_compound_typed; [exact Ht|cbn; split; [reflexivity|discriminate]|].
    rewrite Nat.add_1_r. cbn [parse_simples].
    rewrite (parse_attr_written name v [] Hn Hv). reflexivity.
  - reflexivity.
Qed.

Lemma step_end_stops rest : step_end rest -> stops rest.
Proof. intros [->|(r & ->)]; cbn; [exact I|split; [reflexivity|discriminate]]. Qed.

Lemma parse_simples_step_end fuel rest :
  step_end rest -> parse_simples (S fuel) rest = Some ([], rest).
Proof. intros [->|(r & ->)]; reflexivity. Qed.

Lemma skip_css_ws_number k rest : skip_css_ws (N_to_str k ++ rest) = N_to_str k ++ rest.
Proof.
  destruct (N_to_str_spec k) as (d & -> & Dd & Nd & _).
  destruct d as [|c d]; [contradiction|]. cbn in Dd. apply andb_prop in Dd as (Dc & _).
  apply skip_css_ws_keeps. unfold is_digit in Dc. unfold is_css_ws, is_newline. tests.
Qed.

Lemma parse_pseudo_written k rest :
  parse_pseudo (lit "nth-of-type" ++ 40%N :: N_to_str k ++ 41%N :: rest)
  = Some (SNthOfType k, rest).
Proof.
  unfold parse_pseudo.
  rewrite (consume_ident_plain (lit "nth-of-type") _ eq_refl)
    by (cbn; split; [reflexivity|discriminate]).
  replace (str_eqb (lower_ascii (lit "nth-of-type")) (lit "nth-of-type")) with true
    by (vm_compute; reflexivity).
  rewrite skip_css_ws_number.
  destruct (digits_of_N_to_str k (41%N :: rest)) as (count & ->); [reflexivity|].
  rewrite (skip_css_ws_keeps 41 _ eq_refl). reflexivity.
Qed.

Lemma parse_compound_part x rest :
  plain_name (fst x) = true -> step_end rest ->
  parse_compound (part_text x ++ rest) = Some (part_compound x, rest).
Proof.
  destruct x as (t, [k|]); unfold part_text, part_compound; cbn [fst snd]; intros Ht Hr.
  - change (lit ":nth-of-type(") with (58%N :: lit "nth-of-type" ++ [40%N]).
    change (lit ")") with [41%N].
    replace ((t ++ (58%N :: lit "nth-of-type" ++ [40%N]) ++ N_to_str k ++ [41%N]) ++ rest)
      with (t ++ 58%N :: lit "nth-of-type" ++ 40%N :: N_to_str k ++ 41%N :: rest)
      by (repeat (rewrite <- ?app_assoc; cbn [app]); reflexivity).
    apply parse_compound_typed; [exact Ht|cbn; split; [reflexivity|discriminate]|].
    rewrite Nat.add_1_r. cbn [parse_simples]. rewrite parse_pseudo_written.
    match goal with |- context [parse_simples ?f rest] => assert (F : f <> 0%nat) end.
    { cbn [List.length]. rewrite length_app.
      change (List.length (lit "nth-of-type")) with 11%nat. lia. }
    destruct (List.length _); [contradiction|].
    rewrite (parse_simples_step_end _ rest Hr). reflexivity.
  - apply parse_compound_typed; [exact Ht|apply step_end_stops, Hr|].
    rewrite Nat.add_1_r. apply parse_simples_step_end, Hr.
Qed.

Lemma below_step_end xs : step_end (below xs).
Proof.
  destruct xs; [left; reflexivity|right]. unfold below. cbn [flat_map].
  change (lit " > ") with [32%N; 62%N; 32%N]. cbn [app]. eauto.
Qed.

Lemma below_length xs : (List.length xs <= List.length (below xs))%nat.
Proof.
  induction xs as [|x xs IH]; [reflexivity|]. unfold below in *. cbn [flat_map].
  rewrite !length_app. change (List.length (lit " > ")) with 3%nat.
  cbn [List.length]. lia.
Qed.

Lemma parse_rest_below xs : forall fuel,
  Forall (fun x => plain_name (fst x) = true) xs ->
  (List.length xs < fuel)%nat ->
  parse_rest fuel (below xs)
  = Some (List.map (fun x => (Child, part_compound x)) xs, []).
Proof.
  induction xs as [|x xs IH]; intros fuel Hx Hf.
  - destruct fuel; [inversion Hf|]. reflexivity.
  - destruct fuel; [inversion Hf|]. inversion Hx as [|? ? Hx1 Hxs]; subst.
    unfold below. cbn [flat_map]. fold (below xs).
    change (lit " > ") with [32%N; 62%N; 32%N]. cbn [app parse_rest].
    replace (skip_css_ws (32%N :: 62%N :: 32%N :: part_text x ++ below xs))
      with (62%N :: 32%N :: part_text x ++ below xs) by reflexivity.
    cbn iota beta.
    replace (skip_css_ws (32%N :: part_text x ++ below xs))
      with (skip_css_ws (part_text x ++ below xs)) by reflexivity.
    assert (K : skip_css_ws (part_text x ++ below xs) = part_text x ++ below xs).
    { destruct x as (t, [k|]); unfold part_text; cbn [fst snd] in *.
      - rewrite <- app_assoc. apply skip_css_ws_plain, Hx1.
      - apply skip_css_ws_plain, Hx1. }
    rewrite K, (parse_compound_part x _ Hx1 (below_step_end xs)).
    rewrite (IH fuel Hxs) by (cbn in Hf; lia). reflexivity.
Qed.

Lemma join_below x xs :
  join (lit " > ") (List.map part_text (x :: xs)) = part_text x ++ below xs.
Proof.
  revert x. induction xs as [|y xs IH]; intros x.
  - cbn. rewrite app_nil_r. reflexivity.
  - change (join (lit " > ") (List.map part_text (x :: y :: xs)))
      with (part_text x ++ lit " > " ++ join (lit " > ") (List.map part_text (y :: xs))).
    rewrite IH. unfold below. cbn [flat_map]. rewrite <- app_assoc. reflexivity.
Qed.

Lemma parse_path_selector x xs :
  Forall (fun x => plain_name (fst x) = true) (x :: xs) ->
  parse_selector (join (lit " > ") (List.map part_text (x :: xs)))
  = Some [(part_compound x, List.map (fun y => (Child, part_compound y)) xs)].
Proof.
  intros H. inversion H as [|? ? Hx Hxs]; subst. rewrite join_below.
  unfold parse_selector. rewrite Nat.add_1_r. cbn [parse_list].
  assert (K : skip_css_ws (part_text x ++ below xs) = part_text x ++ below xs).
  { destruct x as (t, [k|]); unfold part_text; cbn [fst snd] in *.
    - rewrite <- app_assoc. apply skip_css_ws_plain, Hx.
    - apply skip_css_ws_plain, Hx. }
  rewrite K. unfold parse_complex.
  rewrite (parse_compound_part x _ Hx (below_step_end xs)).
  rewrite (parse_rest_below xs _ Hxs) by (pose proof (below_length xs); lia).
  reflexivity.
Qed.

Lemma str_eqb_refl a : str_eqb a a = true.
Proof. unfold str_eqb. destruct (list_eq_dec N.eq_dec a a); congruence. Qed.

Lemma str_eqb_eq a b : str_eqb a b = true -> a = b.
Proof. unfold str_eqb. destruct (list_eq_dec N.eq_dec a b); [auto|discriminate]. Qed.

Lemma wf_children n c : wf_names n = true -> In c (childrenOf n) -> wf_names c = true.
Proof.
  destruct n as [l a ly cs|d]; cbn; [|contradiction]. intros H Hc.
  apply andb_prop in H as (_ & H). exact (proj1 (forallb_forall _ _) H c Hc).
Qed.

Lemma wf_nodeAt p : forall root n,
  wf_names root = true -> nodeAt root p = Some n -> wf_names n = true.
Proof.
  induction p as [|i p IH]; intros root n W H; cbn in H.
  - injection H as <-. exact W.
  - destruct (nth_error (childrenOf root) i) as [c|] eqn:Ec; [|discriminate].
    apply (IH c n); [|exact H]. apply (wf_children root c W). eapply nth_error_In, Ec.
Qed.

Lemma elementAt_nodeAt root p e :
  elementAt root p = Some e -> nodeAt root p = Some e /\ isElement e = true.
Proof.
  unfold elementAt. destruct (nodeAt root p) as [[l a ly cs|d]|]; try discriminate.
  intros H. injection H as <-. split; reflexivity.
Qed.

Lemma wf_element root p e :
  wf_names root = true -> elementAt root p = Some e ->
  html_name (localNameOf e) = true /\ wf_names e = true.
Proof.
  intros W H. destruct (elementAt_nodeAt root p e H) as (Hn & He).
  pose proof (wf_nodeAt p root e W Hn) as We. split; [|exact We].
  destruct e as [l a ly cs|d]; [|discriminate]. cbn in *.
  apply andb_prop in We as (Hl & _). exact Hl.
Qed.

Lemma In_firstn {A} (x : A) n l : In x (firstn n l) -> In x l.
Proof. intros H. rewrite <- (firstn_skipn n l). apply in_or_app. left. exact H. Qed.

Lemma same_type_same_tag node l :
  isElement node = true -> html_name (localNameOf node) = true ->
  (forall x, In x l -> wf_names x = true) ->
  filter (sameType node) l
  = filter (fun sib => str_eqb (tagName sib) (tagName node)) (filter isElement l).
Proof.
  intros He Hn. induction l as [|x l IH]; intros W; [reflexivity|].
  cbn [filter]. rewrite IH by (intros y Hy; apply W; right; exact Hy).
  unfold sameType at 1. rewrite He.
  destruct x as [lx ax lyx csx|d]; cbn [isElement andb filter]; [|reflexivity].
  assert (Hx : html_name lx = true).
  { specialize (W _ (or_introl eq_refl)). cbn in W. apply andb_prop in W as (Hx & _).
    exact Hx. }
  unfold tagName. cbn [localNameOf].
  destruct (str_eqb (localNameOf node) lx) eqn:A.
  - apply str_eqb_eq in A. rewrite A, str_eqb_refl. reflexivity.
  - destruct (str_eqb (List.map ascii_upper lx) (List.map ascii_upper (localNameOf node)))
      eqn:B; [|reflexivity].
    apply str_eqb_eq in B. apply html_name_upper_injective in B; auto.
    rewrite B, str_eqb_refl in A. discriminate A.
Qed.

Lemma find_first {A} (f : A -> bool) before p after :
  f p = true ->
  find f (before ++ p :: after)
  = Some (match find f before with Some q => q | None => p end).
Proof.
  intros H. induction before as [|b before IH]; cbn [app find].
  - rewrite H. reflexivity.
  - destruct (f b); [reflexivity|exact IH].
Qed.

Lemma from_subject_child cs : forall c1 acc,
  exists s ch,
    from_subject c1 (List.map (pair Child) cs) (List.map (pair Child) acc)
    = (s, List.map (pair Child) ch)
    /\ s :: ch = rev (c1 :: cs) ++ acc.
Proof.
  induction cs as [|c cs IH]; intros c1 acc.
  - exists c1, acc. split; reflexivity.
  - destruct (IH c (c1 :: acc)) as (s & ch & H1 & H2). exists s, ch. split.
    + exact H1.
    + rewrite H2. cbn [rev]. rewrite <- !app_assoc. reflexivity.
Qed.

Lemma nonempty_some o v : nonempty o = Some v -> o = Some v /\ v <> [].
Proof.
  destruct o as [[|c r]|]; cbn; try discriminate. intros H. injection H as <-.
  split; [reflexivity|discriminate].
Qed.

Section Selectors.
Context {E : Engine} (pg : Page).

Hypothesis W : wf_names (html pg) = true.

Lemma tag_lower p e :
  elementAt (html pg) p = Some e -> toLowerCase (tagName e) = localNameOf e.
Proof. intros H. apply html_name_tag. apply (wf_element (html pg) p e W H). Qed.

Lemma matches_own_type p e :
  elementAt (html pg) p = Some e -> matches_simple (html pg) p e (SType (localNameOf e)) = true.
Proof.
  intros H. cbn. rewrite html_name_lower by apply (wf_element (html pg) p e W H).
  apply str_eqb_refl.
Qed.

Lemma pathPart_own p node :
  elementAt (html pg) p = Some node ->
  exists k, pathPart pg p node = part_text (localNameOf node, k)
            /\ matches_compound (html pg) p (part_compound (localNameOf node, k)) = true.
Proof.
  intros He. destruct (wf_element (html pg) p node W He) as (Hn & _).
  destruct (elementAt_nodeAt (html pg) p node He) as (_ & Hel).
  unfold pathPart. rewrite (tag_lower p node He).
  match goal with |- context [Nat.ltb 1 ?n] => destruct (Nat.ltb 1 n) eqn:L end.
  - destruct (parentPath p) as [pp|] eqn:Pp; [|discriminate L].
    destruct (elementAt (html pg) pp) as [parent|] eqn:Ep; [|discriminate L].
    destruct (elementAt_nodeAt (html pg) pp parent Ep) as (Np & _).
    eexists (Some _). split; [reflexivity|].
    unfold matches_compound. rewrite He. cbn [part_compound fst snd forallb].
    rewrite (matches_own_type p node He). cbn [matches_simple andb].
    unfold siblingsOf. rewrite Pp, Np. unfold typeIndex.
    rewrite (same_type_same_tag node _ Hel Hn).
    + rewrite Nat.add_1_r, N.eqb_refl. reflexivity.
    + intros x Hx. apply In_firstn in Hx.
      apply (wf_children parent x); [|exact Hx]. apply (wf_nodeAt pp (html pg) parent W Np).
  - exists None. split; [reflexivity|].
    unfold matches_compound. rewrite He. cbn [part_compound fst snd forallb].
    rewrite (matches_own_type p node He). reflexivity.
Qed.

Lemma isDocumentBody_root : isDocumentBody pg [] = false.
Proof.
  unfold isDocumentBody, body. destruct (str_eqb _ _); [|reflexivity].
  destruct (findIndex _ _ _); reflexivity.
Qed.

(** The compounds of a path, outermost first, match the element at the
    path and its ancestors, each against the parent of the one below. *)
Let chain_ok (rp : list nat) (cs : list Compound) : Prop :=
  match rev cs with
  | [] => True
  | c :: above =>
      matches_compound (html pg) (rev rp) c = true
      /\ match_left (html pg) (List.map (pair Child) above) (ancestors_rev rp) = true
  end.

Lemma pathParts_chain rp :
  exists xs, pathParts pg rp = List.map part_text xs
             /\ Forall (fun x => plain_name (fst x) = true) xs
             /\ chain_ok rp (List.map part_compound xs).
Proof.
  assert (Nil : forall rp', exists xs : list (str * option N),
             [] = List.map part_text xs
             /\ Forall (fun x => plain_name (fst x) = true) xs
             /\ chain_ok rp' (List.map part_compound xs)).
  { intros rp'. exists []. repeat split. constructor. }
  induction rp as [|i rp IH].
  - cbn [pathParts rev]. rewrite isDocumentBody_root.
    destruct (elementAt (html pg) []) as [node|] eqn:He; [|apply Nil].
    destruct (pathPart_own [] node He) as (k & Hk & Mk).
    exists [(localNameOf node, k)]. split; [cbn [List.map]; rewrite <- Hk; reflexivity|].
    split.
    + constructor; [|constructor]. apply html_name_plain, (wf_element (html pg) [] node W He).
    + unfold chain_ok. cbn [List.map rev app]. split; [exact Mk|reflexivity].
  - cbn [pathParts]. destruct (isDocumentBody pg (rev (i :: rp))); [apply Nil|].
    destruct (elementAt (html pg) (rev (i :: rp))) as [node|] eqn:He; [|apply Nil].
    destruct IH as (xs & Hxs & Pxs & Cxs).
    destruct (pathPart_own _ node He) as (k & Hk & Mk).
    exists (xs ++ [(localNameOf node, k)]). split; [|split].
    + rewrite map_app, <- Hxs. cbn [List.map]. rewrite <- Hk. reflexivity.
    + apply Forall_app. split; [exact Pxs|]. constructor; [|constructor].
      apply html_name_plain, (wf_element (html pg) _ node W He).
    + unfold chain_ok in *. rewrite map_app, rev_app_distr. cbn [List.map rev app].
      split; [exact Mk|]. cbn [ancestors_rev].
      destruct (rev (List.map part_compound xs)) as [|c above]; [reflexivity|].
      cbn [List.map match_left]. destruct Cxs as (C1 & C2). rewrite C1, C2. reflexivity.
Qed.

Lemma pathParts_nonempty rp node :
  isDocumentBody pg (rev rp) = false -> elementAt (html pg) (rev rp) = Some node ->
  pathParts pg rp <> [].
Proof.
  intros B He. destruct rp as [|i rp]; cbn [pathParts]; rewrite B; rewrite He.
  - discriminate.
  - destruct (pathParts pg rp); discriminate.
Qed.

(** The structural path, parsed, matches the element it was built from. *)
Lemma path_selector_matches p node :
  isDocumentBody pg p = false -> elementAt (html pg) p = Some node ->
  exists sels, parse_selector (join (lit " > ") (pathParts pg (rev p))) = Some sels
               /\ matches_any (html pg) sels p = true.
Proof.
  intros B He. rewrite <- (rev_involutive p) in B, He.
  pose proof (pathParts_nonempty (rev p) node B He) as Ne.
  destruct (pathParts_chain (rev p)) as (xs & Hxs & Pxs & Cxs).
  destruct xs as [|x xs]; [rewrite Hxs in Ne; contradiction|].
  eexists. split; [rewrite Hxs; apply (parse_path_selector x xs Pxs)|].
  unfold matches_any. cbn [existsb]. rewrite orb_false_r.
  unfold matches_complex. cbn [fst snd].
  rewrite <- (map_map part_compound (pair Child)).
  destruct (from_subject_child (List.map part_compound xs) (part_compound x) [])
    as (s & ch & F1 & F2).
  cbn [List.map] in F1. rewrite F1.
  unfold chain_ok in Cxs. cbn [List.map] in Cxs. rewrite app_nil_r in F2.
  rewrite <- F2 in Cxs. destruct Cxs as (C1 & C2).
  rewrite rev_involutive in C1. unfold ancestors. rewrite C1, C2. reflexivity.
Qed.

Lemma id_selector_matches p e :
  elementAt (html pg) p = Some e -> matches_any (html pg) [([SId (idOf e)], [])] p = true.
Proof.
  intros He. unfold matches_any, matches_complex, matches_compound. cbn.
  rewrite He. cbn. rewrite str_eqb_refl. reflexivity.
Qed.

Lemma attr_matches p e name v :
  lower_ascii name = name ->
  existsb (str_eqb name) CASE_INSENSITIVE_ATTRS = false ->
  getAttribute e name = Some v ->
  matches_simple (html pg) p e (SAttrEq name v) = true.
Proof.
  intros Hl Hc Hv. cbn [matches_simple]. rewrite Hl, Hv, Hc. apply str_eqb_refl.
Qed.

End Selectors.

Section Resolution.
Context {E : Engine} (pg : Page).

Hypothesis W : wf_names (html pg) = true.

Lemma getSelector_matches p e :
  elementAt (html pg) p = Some e -> readable pg p e = true ->
  exists sels, parse_selector (getSelector pg p e) = Some sels
               /\ matches_any (html pg) sels p = true.
Proof.
  intros He. unfold readable, getSelector.
  pose proof (html_name_plain _ (proj1 (wf_element _ p e W He))) as Pl.
  destruct (idOf e) as [|c r] eqn:Id.
  2:{ intros Hn. exists [([SId (c :: r)], [])]. split.
      - apply parse_id_selector; [discriminate|exact Hn].
      - rewrite <- Id. apply (id_selector_matches pg p e He). }
  destruct (firstNonempty _) as [testId|] eqn:T.
  { destruct (nonempty (getAttribute e (lit "data-testid"))) as [x|] eqn:X;
      [|discriminate].
    intros Hc. unfold firstNonempty in T. cbn [flat_map] in T. rewrite X in T.
    cbn in T. injection T as ->. apply nonempty_some in X as (X & _).
    exists [([SAttrEq (lit "data-testid") testId], [])]. split.
    - apply (parse_attr_selector (lit "data-testid") testId eq_refl Hc).
    - unfold matches_any, matches_complex, matches_compound. cbn [existsb fst snd from_subject].
      rewrite He. cbn [forallb match_left].
      rewrite (attr_matches pg p e (lit "data-testid") testId eq_refl eq_refl X).
      reflexivity. }
  destruct (nonempty (getAttribute e (lit "name"))) as [name|] eqn:Nm.
  { intros Hc. apply nonempty_some in Nm as (Nm & _). rewrite (tag_lower pg W p e He).
    exists [([SType (localNameOf e); SAttrEq (lit "name") name], [])]. split.
    - apply (parse_typed_attr_selector (localNameOf e) (lit "name") name Pl eq_refl Hc).
    - unfold matches_any, matches_complex, matches_compound. cbn [existsb fst snd from_subject].
      rewrite He. cbn [forallb match_left].
      rewrite (matches_own_type pg W p e He).
      rewrite (attr_matches pg p e (lit "name") name eq_refl eq_refl Nm).
      reflexivity. }
  destruct (nonempty (getAttribute e (lit "aria-label"))) as [aria|] eqn:Ar.
  { intros Hc. apply nonempty_some in Ar as (Ar & _). rewrite (tag_lower pg W p e He).
    exists [([SType (localNameOf e); SAttrEq (lit "aria-label") aria], [])]. split.
    - apply (parse_typed_attr_selector (localNameOf e) (lit "aria-label") aria Pl eq_refl Hc).
    - unfold matches_any, matches_complex, matches_compound. cbn [existsb fst snd from_subject].
      rewrite He. cbn [forallb match_left].
      rewrite (matches_own_type pg W p e He).
      rewrite (attr_matches pg p e (lit "aria-label") aria eq_refl eq_refl Ar).
      reflexivity. }
  intros B. apply negb_true_iff in B. apply (path_selector_matches pg W p e B He).
Qed.

Lemma candidates_elements p : In p (candidates pg) -> In p (allElements pg).
Proof.
  unfold candidates, querySelectorAll. destruct (parse_selector CANDIDATES); [|intros []].
  intros H. apply filter_In in H. apply H.
Qed.

End Resolution.


(** *** The collected elements *)

Section Collecting.
Context {E : Engine} (pg : Page).

Lemma collectLoop_firstn k : forall cands acc,
  (1 <= k)%Z ->
  (Z.of_nat (List.length acc) < k)%Z ->
  collectLoop pg (ofZ k) cands acc
  = firstn (Z.to_nat k)
      (acc ++ flat_map (fun p => match elementAt (html pg) p with
                                 | Some element =>
                                     if isVisible element then [describe pg p element] else []
                                 | None => []
                                 end) cands).
Proof.
  induction cands as [|p rest IH]; intros acc Hk Hacc; cbn [collectLoop flat_map].
  - rewrite app_nil_r, firstn_all2; [reflexivity|lia].
  - destruct (elementAt (html pg) p) as [element|]; [|apply IH; auto].
    destruct (isVisible element); cbn [negb]; [|apply IH; auto].
    rewrite num_leb_ofZ, length_app. cbn [List.length app].
    destruct (Z.leb_spec k (Z.of_nat (List.length acc + 1))).
    + replace (acc ++ describe pg p element :: flat_map _ rest)
        with ((acc ++ [describe pg p element]) ++ flat_map
                (fun p => match elementAt (html pg) p with
                          | Some element =>
                              if isVisible element then [describe pg p element] else []
                          | None => []
                          end) rest)
        by (rewrite <- app_assoc; reflexivity).
      rewrite firstn_app.
      replace (Z.to_nat k - List.length (acc ++ [describe pg p element]))%nat with 0%nat
        by (rewrite length_app; cbn [List.length]; lia).
      cbn [firstn]. rewrite app_nil_r, firstn_all2; [reflexivity|].
      rewrite length_app. cbn [List.length]. lia.
    + rewrite IH; [|auto|rewrite length_app; cbn [List.length]; lia].
      rewrite <- app_assoc. reflexivity.
Qed.

Lemma compareRects_above a b : (compareRects a b <=? 0)%Z = true -> above a b.
Proof.
  unfold compareRects, above. intros H. apply Z.leb_le in H.
  destruct (Z.eqb_spec (rectY a - rectY b) 0); lia.
Qed.

Lemma compareRects_below a b : (compareRects a b <=? 0)%Z = false -> above b a.
Proof.
  unfold compareRects, above. intros H. apply Z.leb_gt in H.
  destruct (Z.eqb_spec (rectY a - rectY b) 0); lia.
Qed.

Lemma above_trans a b c : above a b -> above b c -> above a c.
Proof. unfold above. lia. Qed.

Lemma insertSorted_perm x l : Permutation.Permutation (insertSorted x l) (x :: l).
Proof.
  induction l as [|y l IH]; cbn [insertSorted]; [apply Permutation.Permutation_refl|].
  destruct (compareRects x y <=? 0)%Z; [apply Permutation.Permutation_refl|].
  eapply Permutation.perm_trans; [apply Permutation.perm_skip, IH|].
  apply Permutation.perm_swap.
Qed.

Lemma sortElements_perm l : Permutation.Permutation (sortElements l) l.
Proof.
  induction l as [|x l IH]; [apply Permutation.perm_nil|].
  unfold sortElements in *. cbn [fold_right].
  eapply Permutation.perm_trans; [apply insertSorted_perm|].
  apply Permutation.perm_skip, IH.
Qed.

Lemma insertSorted_sorted x l :
  Sorted.StronglySorted above l -> Sorted.StronglySorted above (insertSorted x l).
Proof.
  induction l as [|y l IH]; intros S; cbn [insertSorted].
  - constructor; constructor.
  - inversion S as [|? ? Sl Fl]; subst.
    destruct (compareRects x y <=? 0)%Z eqn:C.
    + apply compareRects_above in C. constructor; [exact S|].
      constructor; [exact C|].
      eapply Forall_impl; [|exact Fl]. intros z. apply above_trans, C.
    + apply compareRects_below in C. constructor; [apply IH, Sl|].
      apply Forall_forall. intros z Hz.
      apply (Permutation.Permutation_in z (insertSorted_perm x l)) in Hz.
      destruct Hz as [<-|Hz]; [exact C|].
      exact (proj1 (Forall_forall _ _) Fl z Hz).
Qed.

Lemma sortElements_sorted l : Sorted.StronglySorted above (sortElements l).
Proof.
  induction l as [|x l IH]; unfold sortElements in *; cbn [fold_right].
  - constructor.
  - apply insertSorted_sorted, IH.
Qed.

(** X9: the elements collectPageState returns are the first k visible
    candidates of the page in document order, k being the normalised
    maxElements (between 10 and 500), reordered by position: each
    element is above the ones after it, or level with them and not to
    their right.  The cut is made before the sort. *)
Theorem collected_in_order options state :
  collectPageState pg options = Ok state ->
  exists limit k,
    readProp (match options with VUndefined => VObj [] | _ => options end)
      (lit "maxElements") = Ok limit
    /\ normalizeLimit limit DEFAULT_MAX_ELEMENTS (ofZ 10) (ofZ 500) = ofZ k
    /\ (10 <= k <= 500)%Z
    /\ Permutation.Permutation (elements state)
         (firstn (Z.to_nat k) (visibleDescriptors pg))
    /\ Sorted.StronglySorted above (elements state).
Proof.
  unfold collectPageState.
  destruct (readProp _ (lit "maxElements")) as [limit| |]; cbn [res_bind]; try discriminate.
  intros H. injection H as <-. cbn [elements].
  destruct (normalizeLimit_range limit 120 10 500 ltac:(lia)) as (k & Hk & Hr).
  exists limit, k. split; [reflexivity|]. unfold DEFAULT_MAX_ELEMENTS.
  split; [exact Hk|]. split; [exact Hr|]. split; [|apply sortElements_sorted].
  eapply Permutation.perm_trans; [apply sortElements_perm|].
  rewrite Hk, collectLoop_firstn; [|lia|cbn; lia]. apply Permutation.Permutation_refl.
Qed.

Lemma Math_round_Q_le a (q : Q) : inject_Z a <= q -> (a <= Math_round_Q q)%Z.
Proof.
  intros H. unfold Math_round_Q.
  rewrite <- (Qfloor_Z a). apply Qfloor_resp_le.
  apply Qle_trans with q; [exact H|].
  rewrite <- (Qplus_0_r q) at 1. apply Qplus_le_compat; [apply Qle_refl|discriminate].
Qed.

(** X10: every collected element is reported with a width and a
    height of at least 4: isVisible keeps only the rectangles of at
    least 4 by 4, and rounding does not go below that. *)
Theorem collected_are_visible options state d :
  collectPageState pg options = Ok state ->
  In d (elements state) ->
  (4 <= rectWidth d)%Z /\ (4 <= rectHeight d)%Z.
Proof.
  intros Hs Hd.
  destruct (collected_described pg options state d Hs Hd) as (p & e & _ & _ & V & ->).
  unfold isVisible in V. cbn [describe rectWidth rectHeight].
  destruct (layoutOf e) as [style|]; [|discriminate V].
  destruct (_ || _); [discriminate V|].
  destruct (Qle_bool 4 (rwidth (rect style))) eqn:Hw; [|discriminate V].
  destruct (Qle_bool 4 (rheight (rect style))) eqn:Hh; [|discriminate V].
  apply Qle_bool_iff in Hw, Hh.
  split; apply Math_round_Q_le; [exact Hw|exact Hh].
Qed.

End Collecting.

(** *** The text snippet *)

Lemma single_spaced_weaken s : single_spaced true s = true -> single_spaced false s = true.
Proof.
  destruct s as [|c r]; [reflexivity|]. cbn. destruct (N.eqb c 32); [discriminate|auto].
Qed.

Lemma collapse_from_spaced s : forall b, single_spaced b (collapse_from b s) = true.
Proof.
  induction s as [|c r IH]; intros b; [reflexivity|]. cbn [collapse_from].
  destruct (is_ws c) eqn:Hc.
  - destruct b; [apply IH|]. cbn. apply IH.
  - cbn [single_spaced]. destruct (N.eqb_spec c 32) as [->|_]; [discriminate Hc|].
    rewrite Hc. apply IH.
Qed.

Lemma dropWhile_spaced s : forall b,
  single_spaced b s = true -> single_spaced true (dropWhile is_ws s) = true.
Proof.
  induction s as [|c r IH]; intros b H; [reflexivity|]. cbn [dropWhile].
  destruct (is_ws c) eqn:Hc.
  - cbn [single_spaced] in H. destruct (N.eqb c 32).
    + apply andb_prop in H as (_ & H). apply (IH true H).
    + rewrite Hc in H. discriminate H.
  - cbn [single_spaced] in *. destruct (N.eqb_spec c 32) as [->|_]; [discriminate Hc|].
    exact H.
Qed.

Lemma single_spaced_prefix s : forall b t,
  single_spaced b (s ++ t) = true -> single_spaced b s = true.
Proof.
  induction s as [|c r IH]; intros b t H; [reflexivity|]. cbn [app single_spaced] in *.
  destruct (N.eqb c 32); apply andb_prop in H as (H1 & H2); rewrite H1; cbn [andb];
    eapply IH; exact H2.
Qed.

Lemma dropWhile_suffix {A} (p : A -> bool) l : exists pre, l = pre ++ dropWhile p l.
Proof.
  induction l as [|x l (pre & IH)]; [exists []; reflexivity|]. cbn [dropWhile].
  destruct (p x); [|exists []; reflexivity].
  exists (x :: pre). cbn [app]. rewrite <- IH. reflexivity.
Qed.

Lemma trimEnd_prefix s : exists t, s = trimEnd s ++ t.
Proof.
  unfold trimEnd. destruct (dropWhile_suffix is_ws (rev s)) as (pre & H).
  exists (rev pre). rewrite <- rev_app_distr, <- H, rev_involutive. reflexivity.
Qed.

(** X11: the text snippet of a collected state has no whitespace but
    single spaces, and none at its start; with maxText 0 in the options
    it is empty. *)
Theorem snippet_is_single_spaced {E : Engine} (pg : Page) options state :
  collectPageState pg options = Ok state ->
  single_spaced true (textSnippet state) = true
  /\ (getProp options (lit "maxText") = VInt 0 -> textSnippet state = []).
Proof.
  unfold collectPageState.
  destruct (readProp _ (lit "maxElements")) as [limit| |] eqn:R; cbn [res_bind];
    try discriminate.
  intros H. injection H as <-. cbn [textSnippet]. split.
  - match goal with |- context [if ?c then _ else _] => destruct c end; [|reflexivity].
    match goal with |- context [collapse_ws ?t] => set (text := t) end.
    assert (T : single_spaced true (trim (collapse_ws text)) = true).
    { unfold trim. destruct (trimEnd_prefix (trimStart (collapse_ws text))) as (t & Ht).
      apply (single_spaced_prefix _ true t). rewrite <- Ht.
      apply (dropWhile_spaced _ false). apply collapse_from_spaced. }
    unfold sliceTo. destruct (normalizeLimit _ _ _ _) as [| | |q];
      [reflexivity|exact T|reflexivity|].
    unfold slice0. apply (single_spaced_prefix _ true (skipn (Z.to_nat (Qfloor q))
      (trim (collapse_ws text)))). rewrite firstn_skipn. exact T.
  - intros Z0.
    assert (X : getProp (match options with VUndefined => VObj [] | _ => options end)
                  (lit "maxText") = VInt 0)
      by (destruct options; try exact Z0; discriminate Z0).
    rewrite X. unfold DEFAULT_MAX_TEXT. rewrite normalizeLimit_spec. cbn [ToNumber VInt].
    reflexivity.
Qed.

(** *** What performAction performs *)

Section Performing.
Context {E : Engine} (pg : Page).

(** X12: performAction answers ok: true only for an action whose type
    is wait, scroll, click, type or key (so never for finish, which the
    prompt allows).  When it answers ok: false it has done nothing to
    the page, or has only scrolled to the target. *)
Theorem only_five_types_succeed action answer effects :
  performAction pg action = Ok (answer, effects) ->
  ((exists type, getProp action (lit "type") = VStr type /\ In type PERFORMED)
   /\ getProp answer (lit "ok") = VBool true)
  \/ (getProp answer (lit "ok") = VBool false
      /\ (effects = [] \/ exists element, effects = [ScrollIntoView element])).
Proof.
  unfold performAction, optProp.
  destruct (truthy (getProp action (lit "type"))); cbn [negb].
  2:{ intros H. injection H as <- <-. right. split; [reflexivity|left; reflexivity]. }
  assert (K : forall s, In (lit s) PERFORMED ->
                isStr (getProp action (lit "type")) s = true ->
                exists type, getProp action (lit "type") = VStr type /\ In type PERFORMED).
  { intros s Hs Ht. apply isStr_eq in Ht. rewrite Ht. exists (lit s). split; auto. }
  destruct (isStr _ "wait") eqn:Tw.
  { intros H. injection H as <- <-. left. split; [|reflexivity].
    apply (K "wait"%string); [cbn; auto|exact Tw]. }
  destruct (isStr _ "scroll") eqn:Ts.
  { intros H. injection H as <- <-. left. split; [|reflexivity].
    apply (K "scroll"%string); [cbn; auto|exact Ts]. }
  destruct (resolveTarget pg action) as [[element|]| |]; cbn [res_bind]; try discriminate.
  2:{ intros H. injection H as <- <-. right. split; [reflexivity|left; reflexivity]. }
  destruct (isStr _ "click") eqn:Tc.
  { intros H. injection H as <- <-. left. split; [|reflexivity].
    apply (K "click"%string); [cbn; auto|exact Tc]. }
  destruct (isStr _ "type") eqn:Tt.
  { intros H. injection H as <- <-. left. split; [|reflexivity].
    apply (K "type"%string); [cbn; auto 6|exact Tt]. }
  destruct (isStr _ "key") eqn:Tk.
  { intros H. injection H as <- <-. left. split; [|reflexivity].
    apply (K "key"%string); [cbn; auto 6|exact Tk]. }
  intros H. injection H as <- <-. right. split; [reflexivity|right; eauto].
Qed.

End Performing.

(** *** Acting on what was collected *)


(** *** On the example page *)

Import Examples.
#[local] Existing Instance Reference.engine.

Ltac found := vm_compute; repeat (first [left; reflexivity | right]).



Lemma label_length_witness :
  exists p element,
    elementAt (html page) p = Some element
    /\ label (describe page [1; 0]%nat (nodeOf [1; 0]%nat)) = getLabel page element
    /\ match labelSource page element with
       | FromOwnText text =>
           label (describe page [1; 0]%nat (nodeOf [1; 0]%nat)) = slice0 160 (trim text)
           /\ (List.length (label (describe page [1; 0]%nat (nodeOf [1; 0]%nat))) <= 160)%nat
       | FromAriaLabel v | FromLabelledBy v | FromPlaceholder v | FromAlt v =>
           label (describe page [1; 0]%nat (nodeOf [1; 0]%nat)) = trim v
       end.
Proof.
  apply (label_length page (VObj []) collected (describe page [1; 0]%nat (nodeOf [1; 0]%nat))).
  - vm_compute. reflexivity.
  - found.
Defined.

(** A field whose aria-label has 200 characters: its label has 200. *)
Lemma long_aria_label :
  nth_error (elements collected) 3 = Some (describe page [1; 3]%nat (nodeOf [1; 3]%nat))
  /\ getAttribute (nodeOf [1; 3]%nat) (lit "aria-label") = Some longLabel
  /\ List.length (label (describe page [1; 3]%nat (nodeOf [1; 3]%nat))) = 200%nat.
Proof. repeat split; vm_compute; reflexivity. Qed.



Import Cases.

Lemma collected_in_order_witness :
  exists limit k,
    readProp (VObj []) (lit "maxElements") = Ok limit
    /\ normalizeLimit limit DEFAULT_MAX_ELEMENTS (ofZ 10) (ofZ 500) = ofZ k
    /\ (10 <= k <= 500)%Z
    /\ Permutation.Permutation (elements collected)
         (firstn (Z.to_nat k) (visibleDescriptors page))
    /\ Sorted.StronglySorted above (elements collected).
Proof.
  apply (collected_in_order page (VObj []) collected). vm_compute. reflexivity.
Defined.

Lemma collected_are_visible_witness :
  (4 <= rectWidth firstCollected)%Z /\ (4 <= rectHeight firstCollected)%Z.
Proof.
  apply (collected_are_visible page (VObj []) collected firstCollected).
  - vm_compute. reflexivity.
  - vm_compute. left. reflexivity.
Defined.

Lemma snippet_is_single_spaced_witness :
  single_spaced true (textSnippet collected) = true
  /\ (getProp (VObj []) (lit "maxText") = VInt 0 -> textSnippet collected = []).
Proof.
  apply (snippet_is_single_spaced page (VObj []) collected). vm_compute. reflexivity.
Defined.

Lemma only_five_types_succeed_witness :
  ((exists type, getProp click (lit "type") = VStr type /\ In type PERFORMED)
   /\ getProp (fst (performed click)) (lit "ok") = VBool true)
  \/ (getProp (fst (performed click)) (lit "ok") = VBool false
      /\ (snd (performed click) = []
          \/ exists element, snd (performed click) = [ScrollIntoView element])).
Proof.
  apply (only_five_types_succeed page click (fst (performed click)) (snd (performed click))).
  vm_compute. reflexivity.
Defined.


End ContentFacts.

(** ** The background script *)

Module BackgroundFacts.
Import JS Background.

Arguments stamp : simpl never.
Arguments calls : simpl never.
Arguments lit : simpl never.

Section Facts.
Context {E : Engine} (env : Env).

Lemma bind_eq {A B} (c : M A) (k : A -> M B) m r m' :
  c m = (r, m') ->
  bind c k m = match r with
               | Ok a => k a m'
               | Throw e => (Throw e, m')
               | Stuck w => (Stuck w, m')
               end.
Proof. intros H. unfold bind. rewrite H. destruct r; reflexivity. Qed.
Arguments bind_eq {A B c k m r m'} H.

Lemma tryCatch_eq {A} (c : M A) (h : str -> M A) m r m' :
  c m = (r, m') ->
  tryCatch c h m = match r with
                   | Throw e => h e m'
                   | _ => (r, m')
                   end.
Proof. intros H. unfold tryCatch. rewrite H. destruct r; reflexivity. Qed.
Arguments tryCatch_eq {A c h m r m'} H.

Lemma log_eq entry m :
  log env entry m =
  (Ok tt,
   mkMachine
     (mkRunState (running (runState m)) (stopRequested (runState m))
        (tabId (runState m)) (logs (runState m) ++ [stamp env (tick m) entry])
        (startedAt (runState m)) (stoppedAt (runState m)))
     (cachedEnvKey m) (trace m ++ [AGENT_LOG (stamp env (tick m) entry)])
     (S (tick m))).
Proof. reflexivity. Qed.

(** *** Composition *)

Lemma calls_app a b : calls (a ++ b) = calls a ++ calls b.
Proof. apply filter_app. Qed.

Lemma calls_cons e l :
  calls (e :: l) = if is_call e then e :: calls l else calls l.
Proof. reflexivity. Qed.

Lemma calls_nil : calls [] = [].
Proof. reflexivity. Qed.

Lemma kept_refl m : running (runState m) = true -> kept env m m.
Proof. intros H. repeat split; auto. Qed.

Lemma kept_trans m1 m2 m3 : kept env m1 m2 -> kept env m2 m3 -> kept env m1 m3.
Proof.
  intros (r1 & t1 & s1 & p1 & n1) (r2 & t2 & s2 & p2 & n2).
  repeat split; try congruence. intros Hn Hs. auto.
Qed.

(** C6: a start while a run is in progress changes nothing but the log.
    runAgent returns with running, the tab, startedAt and stoppedAt as
    they were and stopRequested untouched; it appends one line, Agent
    already running, to the logs and sends that line as its only event,
    so it makes no request to the browser and begins no loop.  As the
    listener's answer to POPUP_START, the same is followed by the
    response alone. *)
Theorem start_while_running fuel tabId' instruction m :
  running (runState m) = true ->
  runAgent env fuel tabId' instruction m
  = (Ok tt,
     mkMachine
       (mkRunState true (stopRequested (runState m)) (tabId (runState m))
          (logs (runState m) ++ [stamp env (tick m) (lit "Agent already running.")])
          (startedAt (runState m)) (stoppedAt (runState m)))
       (cachedEnvKey m)
       (trace m ++ [AGENT_LOG (stamp env (tick m) (lit "Agent already running."))])
       (S (tick m)))
  /\ onMessage env (POPUP_START tabId' instruction) m
     = (Ok tt,
        mkMachine
          (mkRunState true (stopRequested (runState m)) (tabId (runState m))
             (logs (runState m) ++ [stamp env (tick m) (lit "Agent already running.")])
             (startedAt (runState m)) (stoppedAt (runState m)))
          (cachedEnvKey m)
          (trace m ++ [AGENT_LOG (stamp env (tick m) (lit "Agent already running."));
                       SendResponse (VObj [field "ok" (VBool true)])])
          (S (tick m))).
Proof.
  intros H.
  assert (A : alreadyRunning env m
              = (Ok true,
                 mkMachine
                   (mkRunState true (stopRequested (runState m)) (tabId (runState m))
                      (logs (runState m)
                       ++ [stamp env (tick m) (lit "Agent already running.")])
                      (startedAt (runState m)) (stoppedAt (runState m)))
                   (cachedEnvKey m)
                   (trace m
                    ++ [AGENT_LOG (stamp env (tick m) (lit "Agent already running."))])
                   (S (tick m)))).
  { unfold alreadyRunning. erewrite bind_eq by reflexivity. cbn beta iota. rewrite H.
    erewrite bind_eq by apply log_eq. rewrite H. reflexivity. }
  split.
  - unfold runAgent. rewrite (bind_eq A). reflexivity.
  - unfold onMessage. rewrite (bind_eq A). cbn beta iota.
    erewrite bind_eq by reflexivity. cbn beta iota. unfold emit. cbn [runState cachedEnvKey trace tick].
    rewrite <- app_assoc. reflexivity.
Qed.

Lemma run_running {A} {c : M A} {m r m' evs} :
  run_to env c m r m' evs -> running (runState m') = true.
Proof. intros (_ & (H & _) & _). exact H. Qed.

Lemma runs_ret {A} (a : A) m (Q : Res A -> Machine -> list Event -> Prop) :
  running (runState m) = true -> Q (Ok a) m [] -> runs env (ret a) m Q.
Proof.
  intros H HQ. exists (Ok a), m, []. split; [|exact HQ].
  split; [reflexivity|]. split; [apply kept_refl; auto|].
  rewrite app_nil_r. auto.
Qed.

Lemma runs_lift {A} (r : Res A) m (Q : Res A -> Machine -> list Event -> Prop) :
  running (runState m) = true -> Q r m [] -> runs env (lift r) m Q.
Proof.
  intros H HQ. exists r, m, []. split; [|exact HQ].
  split; [reflexivity|]. split; [apply kept_refl; auto|].
  rewrite app_nil_r. auto.
Qed.

Lemma runs_lift_eq {A} (r : Res A) m :
  running (runState m) = true ->
  runs env (lift r) m (fun r' m' evs => r' = r /\ evs = []).
Proof. intros H. apply runs_lift; auto. Qed.

Lemma runs_ret_eq {A} (a : A) m :
  running (runState m) = true ->
  runs env (ret a) m (fun r' m' evs => r' = Ok a /\ m' = m /\ evs = []).
Proof. intros H. apply runs_ret; auto. Qed.

Lemma runs_throw {A} e m (Q : Res A -> Machine -> list Event -> Prop) :
  running (runState m) = true -> Q (Throw e) m [] -> runs env (throw e) m Q.
Proof. apply (runs_lift (Throw e)). Qed.

Lemma runs_bind {A B} (c : M A) (k : A -> M B) m Q1
    (Q : Res B -> Machine -> list Event -> Prop) :
  runs env c m Q1 ->
  (forall r1 m1 evs1,
     kept env m m1 -> Q1 r1 m1 evs1 ->
     match r1 with
     | Ok a => runs env (k a) m1 (fun r m2 evs2 => Q r m2 (evs1 ++ evs2))
     | _ => Q (recast r1) m1 evs1
     end) ->
  runs env (bind c k) m Q.
Proof.
  intros (r1 & m1 & evs1 & (H1 & K1 & T1 & B1) & HQ1) Hk.
  specialize (Hk r1 m1 evs1 K1 HQ1). destruct r1 as [a|e|w].
  - destruct Hk as (r & m2 & evs2 & (H2 & K2 & T2 & B2) & HQ).
    exists r, m2, (evs1 ++ evs2). split; [|exact HQ].
    split; [rewrite (bind_eq H1); exact H2|].
    split; [eapply kept_trans; eauto|].
    rewrite T2, T1, app_assoc. split; auto. apply Forall_app; auto.
  - exists (Throw e), m1, evs1. split; [|exact Hk].
    split; [rewrite (bind_eq H1); reflexivity|]. auto.
  - exists (Stuck w), m1, evs1. split; [|exact Hk].
    split; [rewrite (bind_eq H1); reflexivity|]. auto.
Qed.

Lemma runs_tryCatch {A} (c : M A) (h : str -> M A) m Q1
    (Q : Res A -> Machine -> list Event -> Prop) :
  runs env c m Q1 ->
  (forall r1 m1 evs1,
     kept env m m1 -> Q1 r1 m1 evs1 ->
     match r1 with
     | Throw e => runs env (h e) m1 (fun r m2 evs2 => Q r m2 (evs1 ++ evs2))
     | _ => Q r1 m1 evs1
     end) ->
  runs env (tryCatch c h) m Q.
Proof.
  intros (r1 & m1 & evs1 & (H1 & K1 & T1 & B1) & HQ1) Hk.
  specialize (Hk r1 m1 evs1 K1 HQ1). destruct r1 as [a|e|w].
  - exists (Ok a), m1, evs1. split; [|exact Hk].
    split; [rewrite (tryCatch_eq H1); reflexivity|]. auto.
  - destruct Hk as (r & m2 & evs2 & (H2 & K2 & T2 & B2) & HQ).
    exists r, m2, (evs1 ++ evs2). split; [|exact HQ].
    split; [rewrite (tryCatch_eq H1); exact H2|].
    split; [eapply kept_trans; eauto|].
    rewrite T2, T1, app_assoc. split; auto. apply Forall_app; auto.
  - exists (Stuck w), m1, evs1. split; [|exact Hk].
    split; [rewrite (tryCatch_eq H1); reflexivity|]. auto.
Qed.

Lemma runs_conseq {A} (c : M A) m (Q1 Q : Res A -> Machine -> list Event -> Prop) :
  runs env c m Q1 ->
  (forall r m' evs, kept env m m' -> Q1 r m' evs -> Q r m' evs) ->
  runs env c m Q.
Proof.
  intros (r & m' & evs & R & HQ) H. exists r, m', evs. split; auto.
  apply H; auto. apply R.
Qed.

(** *** The primitives *)

Lemma runs_getRunState m :
  running (runState m) = true ->
  runs env getRunState m (fun r m' evs => r = Ok (runState m) /\ m' = m /\ evs = []).
Proof.
  intros H. exists (Ok (runState m)), m, []. split; auto.
  split; [reflexivity|]. split; [apply kept_refl; auto|].
  rewrite app_nil_r. auto.
Qed.

Lemma runs_log entry m :
  running (runState m) = true ->
  runs env (log env entry) m
    (fun r m' evs => r = Ok tt /\ evs = [AGENT_LOG (stamp env (tick m) entry)]).
Proof.
  intros H. do 3 eexists. split; [split; [apply log_eq|]|split; reflexivity].
  split; [repeat split; auto|]. split; [reflexivity|]. repeat constructor.
Qed.

Lemma runs_emit e m :
  running (runState m) = true -> is_call e = true ->
  runs env (emit e) m (fun r m' evs => r = Ok tt /\ evs = [e] /\ tick m' = tick m).
Proof.
  intros H C. do 3 eexists. split; [split; [reflexivity|]|repeat split; reflexivity].
  split; [repeat split; auto|]. split; [reflexivity|].
  repeat constructor. destruct e; try exact I; discriminate.
Qed.

Let listened (m m' : Machine) (stop : bool) : Prop :=
  (exists evs, trace m' = trace m ++ evs /\ Forall (reported env) evs)
  /\ running (runState m') = true
  /\ tabId (runState m') = tabId (runState m)
  /\ startedAt (runState m') = startedAt (runState m)
  /\ stoppedAt (runState m') = stoppedAt (runState m)
  /\ stopRequested (runState m') = stopRequested (runState m) || stop.

Lemma onMessage_running msg m :
  running (runState m) = true ->
  exists m', onMessage env msg m = (Ok tt, m') /\ listened m m' (is_stop msg).
Proof.
  intros H. destruct msg; cbn [onMessage is_stop].
  - eexists. split.
    + unfold alreadyRunning. erewrite bind_eq.
      2:{ erewrite bind_eq by reflexivity. cbn beta iota. rewrite H.
          erewrite bind_eq by apply log_eq. reflexivity. }
      reflexivity.
    + unfold listened. cbn. rewrite orb_false_r. repeat split; auto.
      eexists. rewrite <- app_assoc. split; [reflexivity|].
      constructor; [left; eexists; reflexivity|]. constructor; [right; right; eexists; reflexivity|constructor].
  - eexists. split; [reflexivity|]. unfold listened. cbn. rewrite orb_true_r.
    repeat split; auto.
    eexists. rewrite <- app_assoc. split; [reflexivity|].
    constructor; [right; left; rewrite H; do 3 eexists; reflexivity|].
    constructor; [right; right; eexists; reflexivity|constructor].
  - eexists. split; [reflexivity|]. unfold listened. cbn. rewrite orb_false_r.
    repeat split; auto.
    eexists. split; [reflexivity|]. constructor; [right; right; eexists; reflexivity|constructor].
  - eexists. split; [reflexivity|]. unfold listened. cbn. rewrite orb_false_r.
    repeat split; auto.
    eexists. rewrite <- app_assoc. split; [reflexivity|].
    constructor; [right; left; rewrite H; do 3 eexists; reflexivity|].
    constructor; [right; right; eexists; reflexivity|constructor].
  - eexists. split; [reflexivity|]. unfold listened. rewrite orb_false_r.
    repeat split; auto.
    exists []. rewrite app_nil_r. auto.
Qed.

Lemma deliver_running msgs : forall m,
  running (runState m) = true ->
  exists m', forEach (onMessage env) msgs m = (Ok tt, m')
             /\ listened m m' (stopArrives msgs).
Proof.
  induction msgs as [|msg msgs IH]; intros m H.
  - exists m. split; [reflexivity|]. unfold listened. cbn. rewrite orb_false_r. repeat split; auto.
    exists []. rewrite app_nil_r. auto.
  - destruct (onMessage_running msg m H) as (m1 & E1 & (evs1 & T1 & R1) & H1 & a1 & b1 & c1 & d1).
    destruct (IH m1 H1) as (m2 & E2 & (evs2 & T2 & R2) & H2 & a2 & b2 & c2 & d2).
    exists m2. split.
    + cbn [forEach]. rewrite (bind_eq E1). exact E2.
    + repeat split; try congruence.
      * exists (evs1 ++ evs2). rewrite T2, T1, app_assoc. split; auto.
        apply Forall_app; auto.
      * rewrite d2, d1. cbn. rewrite orb_assoc. reflexivity.
Qed.

Lemma reported_told e : reported env e -> told e.
Proof.
  intros [(t & ->)|[(a & b & c & ->)|(v & ->)]]; cbn; auto.
Qed.

Lemma told_busy e : told e -> busy e.
Proof. destruct e; cbn; auto. intros ->. exact I. Qed.

Lemma reported_busy evs : Forall (reported env) evs -> Forall busy evs.
Proof.
  apply Forall_impl. intros e H. apply told_busy, reported_told, H.
Qed.

Lemma reported_calls evs : Forall (reported env) evs -> calls evs = [].
Proof.
  induction 1 as [|e l H _ IH]; [reflexivity|].
  apply reported_told in H. rewrite calls_cons.
  destruct e; cbn in *; try contradiction; exact IH.
Qed.

Lemma listened_kept m0 m m' t :
  runState m0 = runState m ->
  listened m0 m' (stopArrives (arrivals env t)) -> kept env m m'.
Proof.
  intros Hm (_ & r & a & b & c & d). rewrite Hm in *.
  repeat split; auto. intros Hn Hs. rewrite d, Hs, Hn. reflexivity.
Qed.

Lemma runs_resume {A} (answer : nat -> A) m :
  running (runState m) = true ->
  runs env (resume env answer) m
    (fun r m' evs => r = Ok (answer (tick m)) /\ Forall (reported env) evs).
Proof.
  intros H.
  pose (m0 := mkMachine (runState m) (cachedEnvKey m) (trace m) (S (tick m))).
  destruct (deliver_running (arrivals env (tick m)) m0 H) as (m1 & E1 & L).
  pose proof L as ((evs & T & R) & _).
  exists (Ok (answer (tick m))), m1, evs. split; [|auto]. split.
  - unfold resume. erewrite bind_eq by reflexivity. cbn beta iota.
    fold m0. rewrite (bind_eq E1). reflexivity.
  - split; [apply (listened_kept m0 m m1 (tick m)); auto|].
    split; [exact T|apply reported_busy; auto].
Qed.

Lemma runs_await {A} (request : Event) (answer : nat -> A) m :
  running (runState m) = true -> is_call request = true ->
  runs env (await env request answer) m
    (fun r m' evs => r = Ok (answer (tick m))
                     /\ exists evs', evs = request :: evs' /\ Forall (reported env) evs').
Proof.
  intros H C. unfold await. eapply runs_bind; [apply runs_emit; auto|].
  intros r1 m1 evs1 K1 (-> & -> & Ht). eapply runs_conseq; [apply runs_resume; apply K1|].
  cbn beta. intros r m' evs _ (-> & R). rewrite Ht. split; auto. exists evs. auto.
Qed.

Lemma runs_settle s m :
  running (runState m) = true ->
  runs env (settle s) m (fun r m' evs => r = settled s /\ evs = []).
Proof.
  intros H. destruct s; [apply runs_ret|apply runs_throw]; auto.
Qed.

Lemma runs_sendToTab_result msg m :
  running (runState m) = true ->
  runs env (sendToTab_result env msg) m
    (fun r m' evs => r = settled (tabsSendMessage env (tick m) msg)
                     /\ Forall (reported env) evs).
Proof.
  intros H. unfold sendToTab_result.
  eapply runs_bind; [apply runs_resume; auto|].
  intros r1 m1 evs1 K1 (-> & R). eapply runs_conseq; [apply runs_settle; apply K1|].
  cbn beta. intros r m' evs _ (-> & ->). rewrite app_nil_r. auto.
Qed.

Lemma runs_sendToTab tabId msg m :
  running (runState m) = true ->
  runs env (sendToTab env tabId msg) m
    (fun r m' evs =>
       r = settled (tabsSendMessage env (tick m) msg)
       /\ exists evs', evs = TabsSendMessage tabId msg :: evs' /\ Forall (reported env) evs').
Proof.
  intros H. unfold sendToTab.
  eapply runs_bind; [apply runs_emit; auto|].
  intros r1 m1 evs1 K1 (-> & -> & Ht).
  eapply runs_conseq; [apply runs_sendToTab_result; apply K1|].
  cbn beta. intros r m' evs _ (-> & R). rewrite Ht. split; auto. exists evs. auto.
Qed.

Lemma runs_sleep ms m :
  running (runState m) = true ->
  runs env (sleep env ms) m
    (fun r m' evs =>
       r = Ok tt /\ exists evs', evs = SetTimeout ms :: evs' /\ Forall (reported env) evs').
Proof.
  intros H. eapply runs_conseq; [apply runs_await; auto|].
  cbn beta. intros r m' evs _ (-> & X). auto.
Qed.

Ltac norm_evs := cbn [app]; rewrite ?app_nil_r, <- ?app_assoc; cbn [app].

Lemma shot_events_get tabId evs :
  Forall (reported env) evs -> shot_events env tabId (TabsGet tabId :: evs).
Proof.
  intros R. exists evs. split; auto. eapply Forall_impl; [|exact R]. auto.
Qed.

Lemma shot_events_capture tabId w evs1 evs2 :
  Forall (reported env) evs1 -> Forall (reported env) evs2 ->
  shot_events env tabId (TabsGet tabId :: evs1 ++ CaptureVisibleTab w :: evs2).
Proof.
  intros R1 R2. eexists. split; [reflexivity|]. apply Forall_app. split.
  - eapply Forall_impl; [|exact R1]. auto.
  - constructor; [right; eauto|]. eapply Forall_impl; [|exact R2]. auto.
Qed.

Lemma runs_captureScreenshot tabId m :
  running (runState m) = true ->
  runs env (captureScreenshot env tabId) m
    (fun r m' evs => not_stuck r /\ shot_events env tabId evs).
Proof.
  intros H. unfold captureScreenshot.
  eapply runs_bind; [apply runs_await; auto|].
  intros r1 m1 evs1 K1 (-> & evs1' & -> & R1).
  eapply runs_bind; [apply runs_settle; apply K1|].
  intros r2 m2 evs2 K2 (-> & ->).
  destruct (tabsGet env (tick m)) as [tab|e]; cbn [settled recast];
    [|norm_evs; split; [exact I|apply shot_events_get; auto]].
  eapply runs_bind; [apply runs_lift_eq; apply K2|].
  intros r3 m3 evs3 K3 (-> & ->).
  unfold readProp. destruct (nullish tab); cbn [recast];
    [norm_evs; split; [exact I|apply shot_events_get; auto]|].
  set (windowId := getProp tab (lit "windowId")).
  eapply runs_bind; [apply runs_await; [apply K3|reflexivity]|].
  intros r4 m4 evs4 K4 (-> & evs4' & -> & R4).
  eapply runs_bind; [apply runs_settle; apply K4|].
  intros r5 m5 evs5 K5 (-> & ->).
  destruct (captureVisibleTab env (tick m3)) as [dataUrl|e]; cbn [settled recast];
    [|norm_evs; split; [exact I|apply shot_events_capture; auto]].
  destruct (negb (truthy dataUrl));
    [apply runs_ret; [apply K5|]; norm_evs; split; [exact I|apply shot_events_capture; auto]|].
  destruct dataUrl;
    (apply runs_throw || apply runs_ret); try apply K5;
    norm_evs; (split; [exact I|apply shot_events_capture; auto]).
Qed.

Lemma runs_collect_fast settings opts tabId m :
  truthy (fastMode settings) = true ->
  running (runState m) = true ->
  runs env (collect env settings opts tabId) m
    (fun r m' evs =>
       r = res_map (fun st => (st, VNull))
             (settled (tabsSendMessage env (tick m) (COLLECT_STATE opts)))
       /\ exists evs', evs = TabsSendMessage tabId (COLLECT_STATE opts) :: evs'
                       /\ Forall (reported env) evs').
Proof.
  intros F H. unfold collect. rewrite F.
  eapply runs_bind; [apply runs_emit; auto|].
  intros r1 m1 evs1 K1 (-> & -> & Ht).
  eapply runs_bind; [apply runs_ret_eq; apply K1|].
  intros r2 m2 evs2 K2 (-> & -> & ->).
  eapply runs_bind; [apply runs_sendToTab_result; apply K1|].
  intros r3 m3 evs3 K3 (-> & R). rewrite Ht.
  destruct (tabsSendMessage env (tick m) (COLLECT_STATE opts)); cbn [settled res_map recast].
  - apply runs_ret; [apply K3|]. norm_evs. split; eauto.
  - norm_evs. split; eauto.
Qed.

Let capture_or_report (e : Event) : Prop :=
  reported env e
  \/ (exists w, e = CaptureVisibleTab w)
  \/ (exists t message, e = AGENT_LOG (stamp env t (lit "Screenshot failed: " ++ message))).

Lemma runs_collect_normal settings opts tabId m :
  truthy (fastMode settings) = false ->
  running (runState m) = true ->
  runs env (collect env settings opts tabId) m
    (fun r m' evs =>
       (exists t shot,
          r = res_map (fun st => (st, shot))
                (settled (tabsSendMessage env t (COLLECT_STATE opts))))
       /\ exists evs', evs = TabsSendMessage tabId (COLLECT_STATE opts)
                             :: TabsGet tabId :: evs'
                       /\ Forall capture_or_report evs').
Proof.
  intros F H. unfold collect. rewrite F.
  eapply runs_bind; [apply runs_emit; auto|].
  intros r1 m1 evs1 K1 (-> & -> & Ht).
  eapply runs_bind.
  { eapply runs_tryCatch; [apply runs_captureScreenshot; apply K1|].
    intros r2 m2 evs2 K2 (N2 & evs2' & -> & R2).
    instantiate (1 := fun r _ evs =>
      (exists shot, r = Ok shot)
      /\ exists evs', evs = TabsGet tabId :: evs' /\ Forall capture_or_report evs').
    assert (R2' : Forall capture_or_report evs2').
    { eapply Forall_impl; [|exact R2]. intros x [X|X]; [left|right; left]; auto. }
    destruct r2 as [shot|e|w]; [split; eauto| |destruct N2].
    eapply runs_bind; [apply runs_log; apply K2|].
    intros r3 m3 evs3 K3 (-> & ->).
    apply runs_ret; [apply K3|]. norm_evs. split; [eauto|].
    eexists. split; [reflexivity|]. apply Forall_app. split; auto.
    constructor; [right; right; eauto|constructor]. }
  intros r2 m2 evs2 K2 ((shot & ->) & evs2' & -> & R2).
  eapply runs_bind; [apply runs_sendToTab_result; apply K2|].
  intros r3 m3 evs3 K3 (-> & R3).
  assert (X : Forall capture_or_report (evs2' ++ evs3)).
  { apply Forall_app. split; auto. eapply Forall_impl; [|exact R3]. left. auto. }
  destruct (tabsSendMessage env (tick m2) (COLLECT_STATE opts)) as [st|e] eqn:Et;
    cbn [settled res_map recast].
  - apply runs_ret; [apply K3|]. norm_evs. split.
    + exists (tick m2), shot. rewrite Et. reflexivity.
    + eauto.
  - norm_evs. split.
    + exists (tick m2), VNull. rewrite Et. reflexivity.
    + eauto.
Qed.

Lemma runs_callGemini key model_ prompt shot m :
  running (runState m) = true ->
  runs env (callGemini env key model_ prompt shot) m
    (fun r m' evs =>
       r = geminiResult (fetchReply env (tick m))
       /\ exists u body evs', evs = Fetch u key body :: evs' /\ Forall (reported env) evs').
Proof.
  intros H. unfold callGemini.
  eapply runs_bind; [apply runs_await; auto|].
  intros r1 m1 evs1 K1 (-> & evs1' & -> & R1).
  unfold geminiResult. destruct (fetchReply env (tick m)) as [e|ok status text].
  - apply runs_throw; [apply K1|]. norm_evs. split; eauto.
  - destruct (negb ok).
    + apply runs_throw; [apply K1|]. norm_evs. split; eauto.
    + apply runs_lift; [apply K1|]. norm_evs. split; eauto.
Qed.

Lemma runs_performOne settings tabId action m :
  running (runState m) = true ->
  nullish action = false ->
  runs env (performOne env settings tabId action) m
    (fun r m' evs => r = Ok tt /\ action_events env settings tabId action evs).
Proof.
  intros H N. unfold performOne, readProp. rewrite N.
  eapply runs_bind; [apply runs_lift_eq; auto|].
  intros r0 m0 evs0 K0 (-> & ->).
  eapply runs_bind; [apply runs_log; apply K0|].
  intros r1 m1 evs1 K1 (-> & ->).
  set (send := TabsSendMessage tabId (PERFORM_ACTION action)).
  eapply runs_bind.
  { eapply runs_tryCatch with
      (Q1 := fun r _ evs =>
         exists evs', Forall (reported env) evs'
           /\ ((exists e, r = Throw e /\ evs = send :: evs')
               \/ (r = Ok tt /\ exists t outcome,
                     evs = send :: evs' ++ [AGENT_LOG (stamp env t outcome)]
                     /\ outcome_entry outcome)))
      (Q := fun r _ evs =>
         r = Ok tt /\ exists evs' t outcome,
           evs = send :: evs' ++ [AGENT_LOG (stamp env t outcome)]
           /\ Forall (reported env) evs' /\ outcome_entry outcome).
    - eapply runs_bind; [apply runs_sendToTab; apply K1|].
      intros r2 m2 evs2 K2 (-> & evs2' & -> & R2).
      destruct (tabsSendMessage env (tick m1) (PERFORM_ACTION action)) as [result|e];
        cbn [settled recast].
      + destruct (truthy (optProp result (lit "ok")));
          (eapply runs_conseq; [apply runs_log; apply K2|]);
          cbn beta; intros r m' evs _ (-> & ->); exists evs2'; (split; [auto|]);
          right; (split; [auto|]); do 2 eexists; (split; [reflexivity|]);
          eexists; [left|right; left]; reflexivity.
      + exists evs2'. split; auto. left. eauto.
    - intros r2 m2 evs2 K2 (evs2' & R2 & [(e & -> & ->)|(-> & t & outcome & -> & O)]).
      + eapply runs_conseq; [apply runs_log; apply K2|].
        cbn beta. intros r m' evs _ (-> & ->). split; auto.
        do 3 eexists. split; [reflexivity|]. split; auto.
        eexists. right. right. reflexivity.
      + split; auto. do 3 eexists. split; [reflexivity|]. auto. }
  intros r2 m2 evs2 K2 (-> & evs2' & t & outcome & -> & R2 & O).
  eapply runs_conseq; [apply runs_sleep; apply K2|].
  cbn beta. intros r m' evs _ (-> & evs' & -> & R). split; auto.
  subst send. norm_evs. exists (tick m0), t, outcome, evs2', evs'. auto.
Qed.

Lemma runs_orBreak {A} (c : M A) (h : str -> M unit) m Q1
    (Q : Res (option A) -> Machine -> list Event -> Prop) :
  runs env c m Q1 ->
  (forall r1 m1 evs1,
     kept env m m1 -> Q1 r1 m1 evs1 ->
     match r1 with
     | Ok a => Q (Ok (Some a)) m1 evs1
     | Throw e =>
         runs env (h e) m1
           (fun r m2 evs2 => Q (res_map (fun _ => None) r) m2 (evs1 ++ evs2))
     | Stuck w => Q (Stuck w) m1 evs1
     end) ->
  runs env (orBreak c h) m Q.
Proof.
  intros Hc Hk. unfold orBreak.
  eapply runs_tryCatch with
    (Q1 := fun r m1 evs1 =>
       match r with
       | Ok None => False
       | Ok (Some a) => Q1 (Ok a) m1 evs1
       | Throw e => Q1 (Throw e) m1 evs1
       | Stuck w => Q1 (Stuck w) m1 evs1
       end).
  - eapply runs_bind; [exact Hc|].
    intros r1 m1 evs1 K1 HQ1. destruct r1; cbn [recast]; auto.
    apply runs_ret; [apply K1|]. rewrite app_nil_r. exact HQ1.
  - intros r1 m1 evs1 K1 HQ1. destruct r1 as [[a|]|e|w].
    + exact (Hk (Ok a) m1 evs1 K1 HQ1).
    + destruct HQ1.
    + specialize (Hk (Throw e) m1 evs1 K1 HQ1). cbn beta iota in Hk.
      eapply runs_bind; [exact Hk|].
      intros r2 m2 evs2 K2 HQ. destruct r2; cbn [res_map recast] in *; auto.
      apply runs_ret; [apply K2|]. rewrite app_nil_r. exact HQ.
    + exact (Hk (Stuck w) m1 evs1 K1 HQ1).
Qed.

(** *** Every event of the loop is one the loop may send *)

Section Loop.
Variables (settings : Settings) (opts tabId instruction : Value).

Let ok (e : Event) : Prop := loop_event settings opts tabId e.

Lemma reported_ok evs : Forall (reported env) evs -> Forall ok evs.
Proof. apply Forall_impl. intros e H. left. apply reported_told, H. Qed.

Lemma action_events_ok action evs :
  action_events env settings tabId action evs -> Forall ok evs.
Proof.
  intros (t1 & t2 & outcome & evs1 & evs2 & -> & R1 & R2 & _).
  constructor; [left; exact I|].
  constructor; [right; right; right; right; left; eauto|].
  apply Forall_app. split; [apply reported_ok; auto|].
  constructor; [left; exact I|].
  constructor; [right; right; right; right; right; reflexivity|].
  apply reported_ok; auto.
Qed.

Lemma runs_performOne_ok action m :
  running (runState m) = true ->
  runs env (performOne env settings tabId action) m (fun _ _ evs => Forall ok evs).
Proof.
  intros H. destruct (nullish action) eqn:N.
  - unfold performOne, readProp. rewrite N.
    eapply runs_bind; [apply runs_lift_eq; auto|].
    intros r0 m0 evs0 K0 (-> & ->). cbn [recast]. constructor.
  - eapply runs_conseq; [apply runs_performOne; auto|].
    cbn beta. intros r m' evs _ (_ & A). eapply action_events_ok; eauto.
Qed.

Lemma runs_performActions_ok actions : forall m,
  running (runState m) = true ->
  runs env (performActions env settings tabId actions) m (fun _ _ evs => Forall ok evs).
Proof.
  induction actions as [|a rest IH]; intros m H; cbn [performActions].
  - apply runs_ret; auto.
  - eapply runs_bind; [apply runs_getRunState; auto|].
    intros r0 m0 evs0 K0 (-> & -> & ->).
    destruct (stopRequested (runState m)); [apply runs_ret; auto|].
    eapply runs_bind; [apply runs_performOne_ok; auto|].
    intros r1 m1 evs1 K1 F1. destruct r1; auto.
    eapply runs_conseq; [apply IH; apply K1|].
    cbn beta. intros r m' evs _ F. norm_evs. apply Forall_app. auto.
Qed.

Lemma runs_collect_ok m :
  running (runState m) = true ->
  runs env (collect env settings opts tabId) m (fun _ _ evs => Forall ok evs).
Proof.
  intros H. destruct (truthy (fastMode settings)) eqn:F.
  - eapply runs_conseq; [apply runs_collect_fast; auto|].
    cbn beta. intros r m' evs _ (_ & evs' & -> & R).
    constructor; [right; left; reflexivity|apply reported_ok; auto].
  - eapply runs_conseq; [apply runs_collect_normal; auto|].
    cbn beta. intros r m' evs _ (_ & evs' & -> & R).
    constructor; [right; left; reflexivity|].
    constructor; [right; right; left; auto|].
    eapply Forall_impl; [|exact R].
    intros e [X|[X|(t & msg & ->)]]; [left; apply reported_told, X| |left; exact I].
    right. right. left. auto.
Qed.

(** c, run during a run, sends only events the loop may send. *)
Let sound {A} (c : M A) : Prop :=
  forall m, running (runState m) = true ->
            runs env c m (fun _ _ evs => Forall ok evs).

Lemma sound_bind {A B} (c : M A) (k : A -> M B) :
  sound c -> (forall a, sound (k a)) -> sound (bind c k).
Proof.
  intros Hc Hk m H. eapply runs_bind; [apply Hc; auto|].
  intros r1 m1 evs1 K1 F1. destruct r1; auto.
  eapply runs_conseq; [apply Hk; apply K1|].
  cbn beta. intros r m' evs _ F. apply Forall_app. auto.
Qed.

Lemma sound_tryCatch {A} (c : M A) (h : str -> M A) :
  sound c -> (forall e, sound (h e)) -> sound (tryCatch c h).
Proof.
  intros Hc Hh m H. eapply runs_tryCatch; [apply Hc; auto|].
  intros r1 m1 evs1 K1 F1. destruct r1; auto.
  eapply runs_conseq; [apply Hh; apply K1|].
  cbn beta. intros r m' evs _ F. apply Forall_app. auto.
Qed.

Lemma sound_ret {A} (a : A) : sound (ret a).
Proof. intros m H. apply runs_ret; auto. Qed.

Lemma sound_lift {A} (r : Res A) : sound (lift r).
Proof. intros m H. apply runs_lift; auto. Qed.

Lemma sound_log entry : sound (log env entry).
Proof.
  intros m H. eapply runs_conseq; [apply runs_log; auto|].
  cbn beta. intros r m' evs _ (-> & ->). repeat constructor.
Qed.

Lemma sound_getRunState : sound getRunState.
Proof.
  intros m H. eapply runs_conseq; [apply runs_getRunState; auto|].
  cbn beta. intros r m' evs _ (_ & _ & ->). constructor.
Qed.

Lemma sound_orBreak {A} (c : M A) (h : str -> M unit) :
  sound c -> (forall e, sound (h e)) -> sound (orBreak c h).
Proof.
  intros Hc Hh. unfold orBreak. apply sound_tryCatch.
  - apply sound_bind; auto. intros a. apply sound_ret.
  - intros e. apply sound_bind; auto. intros _. apply sound_ret.
Qed.

Lemma sound_performActions actions : sound (performActions env settings tabId actions).
Proof. intros m H. apply runs_performActions_ok; auto. Qed.

Lemma sound_callGemini key prompt shot :
  key = apiKey settings ->
  sound (callGemini env key (model settings) prompt shot).
Proof.
  intros -> m H. eapply runs_conseq; [apply runs_callGemini; auto|].
  cbn beta. intros r m' evs _ (_ & u & body & evs' & -> & R).
  constructor; [right; right; right; left; eauto|apply reported_ok; auto].
Qed.

Lemma sound_stepBody step :
  sound (stepBody env settings opts tabId instruction step).
Proof.
  unfold stepBody.
  apply sound_bind; [apply sound_getRunState|]. intros rs.
  destruct (stopRequested rs); [apply sound_ret|].
  apply sound_bind; [apply sound_log|]. intros _.
  apply sound_bind.
  { apply sound_orBreak; [intros m H; apply runs_collect_ok; auto|].
    intros e. apply sound_log. }
  intros [[state screenshot]|]; [|apply sound_ret].
  apply sound_bind; [apply sound_lift|]. intros promptText.
  apply sound_bind.
  { apply sound_orBreak; [apply sound_callGemini; reflexivity|].
    intros e. apply sound_log. }
  intros [modelResponse|]; [|apply sound_ret].
  apply sound_bind.
  { apply sound_orBreak; [apply sound_lift|]. intros e. apply sound_log. }
  intros [agentResponse|]; [|apply sound_ret].
  apply sound_bind; [apply sound_lift|]. intros plan.
  apply sound_bind; [destruct (truthy plan); [apply sound_log|apply sound_ret]|].
  intros _.
  destruct (truthy (getProp agentResponse (lit "done"))).
  { apply sound_bind; [apply sound_log|]. intros _. apply sound_ret. }
  destruct (match getProp agentResponse (lit "actions") with
            | VArr l => l
            | _ => []
            end) as [|a rest].
  { apply sound_bind; [apply sound_log|]. intros _. apply sound_ret. }
  apply sound_bind; [apply sound_performActions|]. intros _. apply sound_ret.
Qed.

Lemma sound_agentLoop fuel : forall step,
  sound (agentLoop env fuel settings opts tabId instruction step).
Proof.
  induction fuel as [|fuel IH]; intros step; cbn [agentLoop];
    destruct (num_leb (ofZ step) (ToNumber (maxSteps settings)));
    try apply sound_ret.
  - intros m H. exists (Stuck OutOfFuel), m, []. split; [|constructor].
    split; [reflexivity|]. split; [apply kept_refl; auto|].
    rewrite app_nil_r. auto.
  - apply sound_bind; [apply sound_stepBody|].
    intros [|]; [apply sound_ret|apply IH].
Qed.

End Loop.

(** *** The run as a whole *)

Lemma runs_ensureContentScript tabId m :
  running (runState m) = true ->
  runs env (ensureContentScript env tabId) m
    (fun r m' evs =>
       exists evs', Forall (reported env) evs'
         /\ match executeScript env (tick m) with
            | Fulfilled _ => r = Ok true /\ evs = ExecuteScript tabId :: evs'
            | Rejected e =>
                r = Ok false
                /\ exists t,
                     evs = ExecuteScript tabId :: evs'
                           ++ [AGENT_LOG (stamp env t
                                 (lit "Failed to inject content script: " ++ e))]
            end).
Proof.
  intros H. unfold ensureContentScript.
  eapply runs_tryCatch with
    (Q1 := fun r _ evs =>
       exists evs', Forall (reported env) evs' /\ evs = ExecuteScript tabId :: evs'
         /\ match executeScript env (tick m) with
            | Fulfilled _ => r = Ok true
            | Rejected e => r = Throw e
            end).
  - eapply runs_bind; [apply runs_await; auto|].
    intros r1 m1 evs1 K1 (-> & evs1' & -> & R1).
    eapply runs_bind; [apply runs_settle; apply K1|].
    intros r2 m2 evs2 K2 (-> & ->).
    destruct (executeScript env (tick m)); cbn [settled recast].
    + apply runs_ret; [apply K2|]. norm_evs. eauto.
    + norm_evs. eauto.
  - intros r1 m1 evs1 K1 (evs' & R & -> & Hr).
    destruct (executeScript env (tick m)); subst r1.
    + eauto.
    + eapply runs_bind; [apply runs_log; apply K1|].
      intros r2 m2 evs2 K2 (-> & ->).
      apply runs_ret; [apply K2|]. norm_evs. exists evs'. split; auto. split; eauto.
Qed.

Lemma finishRun_eq m :
  finishRun env m =
  (Ok tt,
   mkMachine
     (mkRunState false false (tabId (runState m))
        (logs (runState m) ++ [stamp env (S (tick m)) (lit "Agent stopped.")])
        (startedAt (runState m)) (Some (dateNow env (tick m))))
     (cachedEnvKey m)
     (trace m
      ++ [AGENT_STATUS false (startedAt (runState m)) (Some (dateNow env (tick m)))
            (logs (runState m));
          AGENT_LOG (stamp env (S (tick m)) (lit "Agent stopped."))])
     (S (S (tick m)))).
Proof.
  unfold finishRun, sendStatus.
  do 3 (erewrite bind_eq by reflexivity; cbn beta iota).
  erewrite bind_eq.
  2:{ erewrite bind_eq by reflexivity. reflexivity. }
  cbn beta iota. rewrite log_eq. cbn [runState trace tick cachedEnvKey running
    stopRequested tabId logs startedAt stoppedAt]. rewrite <- app_assoc. reflexivity.
Qed.

Lemma startRun_eq tabId m :
  startRun env tabId m =
  (Ok tt,
   mkMachine
     (mkRunState true false tabId (logs (runState m)) (Some (dateNow env (tick m))) None)
     (cachedEnvKey m)
     (trace m ++ [AGENT_STATUS true (Some (dateNow env (tick m))) None (logs (runState m))])
     (S (tick m))).
Proof. reflexivity. Qed.

(** runAgent once the settings are read and hold a key. *)
Lemma runAgent_started fuel tabId instruction m0 settings m1 :
  running (runState m0) = false ->
  getSettings env m0 = (Ok settings, m1) ->
  truthy (apiKey settings) = true ->
  runAgent env fuel tabId instruction m0 =
  (startRun env tabId ;;
   log env (lit "Injecting content script...") ;;
   injected <- ensureContentScript env tabId ;;
   if negb injected then
     rs <- getRunState ;;
     setRunState (mkRunState false (stopRequested rs) (Background.tabId rs) (logs rs)
                    (startedAt rs) (stoppedAt rs))
   else
     agentLoop env fuel settings (collectOptionsOf settings) tabId instruction 1 ;;
     finishRun env) m1.
Proof.
  intros H G K. unfold runAgent.
  erewrite bind_eq.
  2:{ unfold alreadyRunning. erewrite bind_eq by reflexivity. cbn beta iota.
      rewrite H. reflexivity. }
  cbn beta iota. rewrite (bind_eq G). cbn beta iota. rewrite K. reflexivity.
Qed.


(** C1: the path the claim is wrong on.  When the injection of the
    content script is rejected, runAgent returns with running false but
    stoppedAt still null: after the first status it sends the line
    Injecting content script, the injection request, what the listener
    sends meanwhile and the line Failed to inject content script; no
    final status and no line Agent stopped follow. *)
Theorem injection_failure_skips_finish fuel tabId instruction m0 settings m1 :
  running (runState m0) = false ->
  getSettings env m0 = (Ok settings, m1) ->
  truthy (apiKey settings) = true ->
  (forall t, exists e, executeScript env t = Rejected e) ->
  exists m' t1 evs e t2,
    runAgent env fuel tabId instruction m0 = (Ok tt, m')
    /\ running (runState m') = false
    /\ stoppedAt (runState m') = None
    /\ trace m' =
       trace m1
       ++ [AGENT_STATUS true (Some (dateNow env (tick m1))) None (logs (runState m1));
           AGENT_LOG (stamp env t1 (lit "Injecting content script..."));
           ExecuteScript tabId]
       ++ evs
       ++ [AGENT_LOG (stamp env t2 (lit "Failed to inject content script: " ++ e))]
    /\ Forall (reported env) evs.
Proof.
  intros H G K Inj.
  rewrite (runAgent_started fuel tabId instruction m0 settings m1 H G K).
  rewrite (bind_eq (startRun_eq tabId m1)). cbn beta iota.
  match goal with |- context [bind _ _ ?m] => set (m2 := m) end.
  assert (H2 : running (runState m2) = true) by reflexivity.
  destruct (runs_log (lit "Injecting content script...") m2 H2)
    as (r3 & m3 & evs3 & (E3 & K3 & T3 & B3) & -> & ->).
  rewrite (bind_eq E3). cbn beta iota.
  destruct (runs_ensureContentScript tabId m3 (proj1 K3))
    as (r4 & m4 & evs4 & (E4 & K4 & T4 & B4) & evs4' & R4 & X).
  rewrite (bind_eq E4).
  destruct (Inj (tick m3)) as (e & Ev). rewrite Ev in X. destruct X as (-> & t2 & ->).
  cbn beta iota. cbn [negb].
  eexists. exists (tick m2), evs4', e, t2. split; [reflexivity|].
  cbn [runState running stoppedAt trace].
  destruct K4 as (_ & _ & _ & S4 & _). destruct K3 as (_ & _ & _ & S3 & _).
  split; [reflexivity|]. split; [rewrite S4, S3; reflexivity|]. split; [|exact R4].
  rewrite T4, T3. cbn [trace m2]. rewrite <- !app_assoc. reflexivity.
Qed.


(** *** The step budget *)

Lemma num_leb_int a b : num_leb (ofZ a) (ToNumber (VInt b)) = (a <=? b)%Z.
Proof.
  cbn. unfold Qle_bool. cbn. rewrite !Z.mul_1_r. reflexivity.
Qed.

Lemma calls_capture tabId evs :
  Forall capture_or_report evs -> Forall (shot_call tabId) (calls evs).
Proof.
  induction 1 as [|e l H _ IH]; [constructor|]. rewrite calls_cons.
  destruct H as [H|[(w & ->)|(t & msg & ->)]]; cbn [is_call]; auto.
  - apply reported_told in H. destruct e; cbn in *; try contradiction; auto.
  - constructor; auto. right. eauto.
Qed.

Lemma calls_action settings tabId action evs :
  action_events env settings tabId action evs ->
  calls evs = [TabsSendMessage tabId (PERFORM_ACTION action);
               SetTimeout (stepDelayMs settings)].
Proof.
  intros (t1 & t2 & outcome & evs1 & evs2 & -> & R1 & R2 & _).
  rewrite !calls_cons, calls_app, !calls_cons. cbn [is_call].
  rewrite (reported_calls evs1 R1), (reported_calls evs2 R2). reflexivity.
Qed.

Lemma runs_performActions_one settings tabId action m :
  running (runState m) = true ->
  stopRequested (runState m) = false ->
  nullish action = false ->
  runs env (performActions env settings tabId [action]) m
    (fun r m' evs => r = Ok tt /\ action_events env settings tabId action evs).
Proof.
  intros H Hs Na. cbn [performActions].
  eapply runs_bind; [apply runs_getRunState; auto|].
  intros r0 m0 evs0 K0 (-> & -> & ->). rewrite Hs.
  eapply runs_bind; [apply runs_performOne; auto|].
  intros r1 m1 evs1 K1 (-> & A1).
  apply runs_ret; [apply K1|]. norm_evs. auto.
Qed.

Section Budget.
Variables (settings : Settings) (tabId instruction : Value).
Hypothesis Hcoop : cooperative env settings instruction.

Let opts := collectOptionsOf settings.

Lemma runs_collect_cooperative m :
  running (runState m) = true ->
  runs env (collect env settings opts tabId) m
    (fun r m' evs =>
       exists state shot shots,
         r = Ok (state, shot)
         /\ (forall step b, exists p,
               buildPrompt instruction state step (maxSteps settings) b = Ok p)
         /\ calls evs = TabsSendMessage tabId (COLLECT_STATE opts) :: shots
         /\ Forall (shot_call tabId) shots).
Proof.
  intros H. destruct Hcoop as (_ & Hstate & _).
  destruct (truthy (fastMode settings)) eqn:F.
  - eapply runs_conseq; [apply runs_collect_fast; auto|].
    cbn beta. intros r m' evs _ (-> & evs' & -> & R).
    destruct (Hstate (tick m) opts) as (state & -> & Hp).
    exists state, VNull, []. rewrite calls_cons. cbn [is_call].
    rewrite (reported_calls evs' R). auto.
  - eapply runs_conseq; [apply runs_collect_normal; auto|].
    cbn beta. intros r m' evs _ ((t & shot & ->) & evs' & -> & R).
    destruct (Hstate t opts) as (state & -> & Hp).
    exists state, shot, (TabsGet tabId :: calls evs'). rewrite !calls_cons. cbn [is_call].
    repeat split; auto. constructor; [left; reflexivity|apply calls_capture; auto].
Qed.

Lemma runs_stepBody_cycle step m :
  running (runState m) = true ->
  stopRequested (runState m) = false ->
  runs env (stepBody env settings opts tabId instruction step) m
    (fun r m' evs =>
       r = Ok Continue
       /\ stopRequested (runState m') = false
       /\ cycle settings opts tabId (calls evs)).
Proof.
  intros H Hs. pose proof Hcoop as (Hnever & _ & Hmodel). unfold stepBody.
  eapply runs_bind; [apply runs_getRunState; auto|].
  intros r0 m0 evs0 K0 (-> & -> & ->). rewrite Hs.
  eapply runs_bind; [apply runs_log; auto|].
  intros r1 m1 evs1 K1 (-> & ->).
  eapply runs_bind.
  { eapply runs_orBreak with
      (Q := fun r _ evs =>
         exists state shot shots,
           r = Ok (Some (state, shot))
           /\ (forall step b, exists p,
                 buildPrompt instruction state step (maxSteps settings) b = Ok p)
           /\ calls evs = TabsSendMessage tabId (COLLECT_STATE opts) :: shots
           /\ Forall (shot_call tabId) shots);
      [apply runs_collect_cooperative; apply K1|].
    intros r2 m2 evs2 K2 (state & shot & shots & -> & Hp & C & S).
    exists state, shot, shots. auto. }
  intros r2 m2 evs2 K2 (state & shot & shots & -> & Hp & C2 & S2).
  destruct (Hp step (truthy shot)) as (promptText & Ep). rewrite Ep.
  eapply runs_bind; [apply runs_lift_eq; apply K2|].
  intros r3 m3 evs3 K3 (-> & ->).
  eapply runs_bind.
  { eapply runs_orBreak with
      (Q := fun r _ evs =>
         exists response decision action u body,
           r = Ok (Some response)
           /\ parseAgentResponse response = Ok decision
           /\ nullish decision = false
           /\ truthy (getProp decision (lit "done")) = false
           /\ getProp decision (lit "actions") = VArr [action]
           /\ nullish action = false
           /\ calls evs = [Fetch u (apiKey settings) body]);
      [apply runs_callGemini; apply K3|].
    intros r4 m4 evs4 K4 (-> & u & body & evs4' & -> & R4).
    destruct (Hmodel (tick m3)) as (response & decision & action & -> & X).
    exists response, decision, action, u, body. split; auto.
    rewrite calls_cons. cbn [is_call]. rewrite (reported_calls evs4' R4).
    destruct X as (? & ? & ? & ? & ?). auto 10. }
  intros r4 m4 evs4 K4
    (response & decision & action & u & body & -> & Ed & Nd & Dd & Ad & Na & C4).
  eapply runs_bind.
  { eapply runs_orBreak with
      (Q := fun r _ evs => r = Ok (Some decision) /\ evs = []);
      [apply runs_lift_eq; apply K4|].
    intros r5 m5 evs5 K5 (-> & ->). rewrite Ed. auto. }
  intros r5 m5 evs5 K5 (-> & ->).
  unfold readProp. rewrite Nd.
  eapply runs_bind; [apply runs_lift_eq; apply K5|].
  intros r6 m6 evs6 K6 (-> & ->).
  eapply runs_bind with (Q1 := fun r _ evs => r = Ok tt /\ calls evs = []).
  { destruct (truthy (getProp decision (lit "plan"))).
    - eapply runs_conseq; [apply runs_log; apply K6|].
      cbn beta. intros r m' evs _ (-> & ->). auto.
    - apply runs_ret; [apply K6|]. auto. }
  intros r7 m7 evs7 K7 (-> & C7). rewrite Dd, Ad.
  assert (S7 : stopRequested (runState m7) = false).
  { apply K7; auto. apply K6; auto. apply K5; auto. apply K4; auto. apply K3; auto.
    apply K2; auto. apply K1; auto. }
  eapply runs_bind; [apply runs_performActions_one; [apply K7|exact S7|exact Na]|].
  intros r8 m8 evs8 K8 (-> & A8).
  apply runs_ret; [apply K8|]. norm_evs.
  split; [reflexivity|]. split.
  { apply K8; auto. }
  rewrite calls_cons. cbn [is_call]. rewrite !calls_app, C2, C4, C7.
  rewrite (calls_action settings tabId action evs8 A8). cbn [app].
  exists shots, u, body, action. split; [|exact S2].
  reflexivity.
Qed.

Lemma runs_agentLoop_cycles (N : Z) :
  maxSteps settings = VInt N ->
  forall n fuel step m,
    (n <= fuel)%nat ->
    (step + Z.of_nat n = N + 1)%Z ->
    running (runState m) = true ->
    stopRequested (runState m) = false ->
    runs env (agentLoop env fuel settings opts tabId instruction step) m
      (fun r m' evs => r = Ok tt /\ cycles settings opts tabId n (calls evs)).
Proof.
  intros HN. induction n as [|n IH]; intros fuel step m Hf Hstep H Hs.
  - destruct fuel; cbn [agentLoop]; rewrite HN, num_leb_int;
      replace (step <=? N)%Z with false by (symmetry; apply Z.leb_gt; lia);
      apply runs_ret; auto; split; reflexivity.
  - destruct fuel as [|fuel]; [lia|]. cbn [agentLoop]. rewrite HN, num_leb_int.
    replace (step <=? N)%Z with true by (symmetry; apply Z.leb_le; lia).
    eapply runs_bind; [apply runs_stepBody_cycle; auto|].
    intros r1 m1 evs1 K1 (-> & S1 & C1).
    eapply runs_conseq; [apply (IH fuel (step + 1)%Z m1); [lia|lia|apply K1|exact S1]|].
    cbn beta. intros r m' evs _ (-> & C). split; [reflexivity|].
    rewrite calls_app. exists (calls evs1), (calls evs). auto.
Qed.

End Budget.

(** C5: with maxSteps N of at least 1, in a browser where no stop
    request arrives, the injection succeeds, every state request is
    answered and every decision is not done and holds exactly one
    action, runAgent ends idle and its requests to the browser after the
    settings are the injection followed by exactly N cycles, each a
    state request (with its screenshot requests), one call of the
    service, one action and one delay. *)
Theorem step_budget (N : Z) fuel tabId instruction m0 settings m1 :
  (1 <= N)%Z ->
  (Z.to_nat N <= fuel)%nat ->
  running (runState m0) = false ->
  getSettings env m0 = (Ok settings, m1) ->
  truthy (apiKey settings) = true ->
  maxSteps settings = VInt N ->
  (forall t, exists v, executeScript env t = Fulfilled v) ->
  cooperative env settings instruction ->
  exists m' evs,
    runAgent env fuel tabId instruction m0 = (Ok tt, m')
    /\ idle (runState m')
    /\ trace m' = trace m1 ++ evs
    /\ exists cs,
         calls evs = ExecuteScript tabId :: cs
         /\ cycles settings (collectOptionsOf settings) tabId (Z.to_nat N) cs.
Proof.
  intros HN Hfuel H G K HM Inj Hcoop.
  rewrite (runAgent_started fuel tabId instruction m0 settings m1 H G K).
  rewrite (bind_eq (startRun_eq tabId m1)). cbn beta iota.
  match goal with |- context [bind _ _ ?m] => set (m2 := m) end.
  assert (H2 : running (runState m2) = true) by reflexivity.
  assert (S2 : stopRequested (runState m2) = false) by reflexivity.
  destruct (runs_log (lit "Injecting content script...") m2 H2)
    as (r3 & m3 & evs3 & (E3 & K3 & T3 & B3) & -> & ->).
  rewrite (bind_eq E3). cbn beta iota.
  destruct (runs_ensureContentScript tabId m3 (proj1 K3))
    as (r4 & m4 & evs4 & (E4 & K4 & T4 & B4) & evs4' & R4 & X).
  rewrite (bind_eq E4).
  destruct (Inj (tick m3)) as (v & Ev). rewrite Ev in X. destruct X as (-> & ->).
  cbn beta iota. cbn [negb].
  assert (S4 : stopRequested (runState m4) = false).
  { apply K4; [apply Hcoop|]. apply K3; [apply Hcoop|exact S2]. }
  destruct (runs_agentLoop_cycles settings tabId instruction Hcoop N HM
              (Z.to_nat N) fuel 1%Z m4 Hfuel ltac:(lia) (proj1 K4) S4)
    as (r5 & m5 & evs5 & (E5 & K5 & T5 & B5) & -> & C5).
  rewrite (bind_eq E5). cbn beta iota. rewrite finishRun_eq.
  eexists.
  exists ([AGENT_STATUS true (Some (dateNow env (tick m1))) None (logs (runState m1))]
          ++ [AGENT_LOG (stamp env (tick m2) (lit "Injecting content script..."))]
          ++ (ExecuteScript tabId :: evs4') ++ evs5
          ++ [AGENT_STATUS false (startedAt (runState m5)) (Some (dateNow env (tick m5)))
                (logs (runState m5));
              AGENT_LOG (stamp env (S (tick m5)) (lit "Agent stopped."))]).
  split; [reflexivity|]. split.
  { unfold idle. cbn [runState running stopRequested stoppedAt].
    repeat split; try reflexivity. discriminate. }
  split.
  { cbn [trace]. rewrite T5, T4, T3. cbn [trace m2]. rewrite <- !app_assoc. reflexivity. }
  exists (calls evs5). split; [|exact C5].
  repeat (rewrite calls_app || rewrite calls_cons || rewrite calls_nil).
  cbn [is_call app]. rewrite (reported_calls evs4' R4), app_nil_r. reflexivity.
Qed.

(** *** Stop requests between actions *)

Lemma performActions_stopped settings tabId actions m :
  stopRequested (runState m) = true ->
  performActions env settings tabId actions m = (Ok tt, m).
Proof.
  intros Hs. destruct actions; [reflexivity|]. cbn [performActions].
  erewrite bind_eq by reflexivity. cbn beta iota. rewrite Hs. reflexivity.
Qed.

Lemma performActions_cons settings tabId action rest m :
  stopRequested (runState m) = false ->
  performActions env settings tabId (action :: rest) m =
  (performOne env settings tabId action ;; performActions env settings tabId rest) m.
Proof.
  intros Hs. cbn [performActions].
  erewrite bind_eq by reflexivity. cbn beta iota. rewrite Hs. reflexivity.
Qed.

Lemma performActions_app settings tabId before after : forall m,
  performActions env settings tabId (before ++ after) m =
  (performActions env settings tabId before ;;
   performActions env settings tabId after) m.
Proof.
  induction before as [|a before IH]; intros m.
  - reflexivity.
  - destruct (stopRequested (runState m)) eqn:Hs.
    + rewrite (performActions_stopped settings tabId ((a :: before) ++ after) m Hs).
      rewrite (bind_eq (performActions_stopped settings tabId (a :: before) m Hs)).
      cbn beta iota. symmetry. apply performActions_stopped, Hs.
    + cbn [app]. rewrite (performActions_cons settings tabId a (before ++ after) m Hs).
      unfold bind at 2.
      rewrite (performActions_cons settings tabId a before m Hs).
      unfold bind at 1 2.
      destruct (performOne env settings tabId a m) as [[[]|e|w] m1]; try reflexivity.
      rewrite IH. reflexivity.
Qed.

Lemma agentLoop_stopped fuel settings opts tabId instruction step m :
  stopRequested (runState m) = true ->
  agentLoop env (S fuel) settings opts tabId instruction step m = (Ok tt, m).
Proof.
  intros Hs. cbn [agentLoop].
  destruct (num_leb (ofZ step) (ToNumber (maxSteps settings))); [|reflexivity].
  erewrite bind_eq.
  2:{ unfold stepBody. erewrite bind_eq by reflexivity. cbn beta iota.
      rewrite Hs. reflexivity. }
  reflexivity.
Qed.


(** *** Decisions are not validated *)

Lemma unknown_action_sent settings tabId response raw decision
    action type rest m :
  extractResponseText response = Ok raw ->
  raw <> [] ->
  JSON_parse raw = Ok decision ->
  getProp action (lit "type") = VStr type ->
  ~ In type ACTION_TYPES ->
  running (runState m) = true ->
  stopRequested (runState m) = false ->
  parseAgentResponse response = Ok decision
  /\ exists m1 evs,
       performOne env settings tabId action m = (Ok tt, m1)
       /\ trace m1 = trace m ++ evs
       /\ action_events env settings tabId action evs
       /\ performActions env settings tabId (action :: rest) m
          = performActions env settings tabId rest m1.
Proof.
  intros Hx Hraw Hp Ht _ H Hs. split.
  - unfold parseAgentResponse. rewrite Hx. cbn [res_bind].
    destruct raw; [contradiction|]. unfold JSON_parse_retry. rewrite Hp. reflexivity.
  - assert (Na : nullish action = false).
    { destruct action; try reflexivity; discriminate Ht. }
    destruct (runs_performOne settings tabId action m H Na)
      as (r & m1 & evs & (Eq & K & T & _) & -> & A).
    exists m1, evs. repeat split; auto.
    rewrite (performActions_cons settings tabId action rest m Hs), (bind_eq Eq).
    reflexivity.
Qed.

End Facts.


Import BackgroundSpec.

#[local] Arguments bind_eq {A B c k m r m'} H.
#[local] Arguments tryCatch_eq {A c h m r m'} H.

Ltac flatten_events := cbn [app]; rewrite ?app_nil_r, <- ?app_assoc; cbn [app].

(** *** Runs that end early *)

Section Runs.
Context {E : Engine} (env : Env).

(** A run whose injection succeeds: what comes before its loop and
    after it. *)
Lemma runAgent_around_loop fuel tabId instruction m0 settings m1
    (Q : Res unit -> Machine -> list Event -> Prop) :
  running (runState m0) = false ->
  getSettings env m0 = (Ok settings, m1) ->
  truthy (apiKey settings) = true ->
  (forall t, exists v, executeScript env t = Fulfilled v) ->
  (forall m, running (runState m) = true ->
             (neverStopped env -> stopRequested (runState m) = false) ->
             runs env (agentLoop env fuel settings (collectOptionsOf settings)
                         tabId instruction 1) m Q) ->
  exists before r m5 evs,
    Q r m5 evs
    /\ runAgent env fuel tabId instruction m0
       = match r with
         | Ok _ => finishRun env m5
         | Throw e => (Throw e, m5)
         | Stuck w => (Stuck w, m5)
         end
    /\ running (runState m5) = true
    /\ stoppedAt (runState m5) = None
    /\ trace m5 = trace m1 ++ before ++ evs
    /\ calls before = [ExecuteScript tabId]
    /\ Forall busy (before ++ evs)
    /\ startedAt (runState m5) = Some (dateNow env (tick m1))
    /\ exists listened,
         before = AGENT_STATUS true (Some (dateNow env (tick m1))) None (logs (runState m1))
                  :: AGENT_LOG (stamp env (S (tick m1)) (lit "Injecting content script..."))
                  :: ExecuteScript tabId :: listened
         /\ Forall (reported env) listened.
Proof.
  intros H G K Inj Loop.
  rewrite (runAgent_started env fuel tabId instruction m0 settings m1 H G K).
  rewrite (bind_eq (startRun_eq env tabId m1)). cbn beta iota.
  match goal with |- context [bind _ _ ?m] => set (m2 := m) end.
  assert (H2 : running (runState m2) = true) by reflexivity.
  assert (S2 : stopRequested (runState m2) = false) by reflexivity.
  destruct (runs_log env (lit "Injecting content script...") m2 H2)
    as (r3 & m3 & evs3 & (E3 & K3 & T3 & B3) & -> & ->).
  rewrite (bind_eq E3). cbn beta iota.
  destruct (runs_ensureContentScript env tabId m3 (proj1 K3))
    as (r4 & m4 & evs4 & (E4 & K4 & T4 & B4) & evs4' & R4 & X).
  rewrite (bind_eq E4).
  destruct (Inj (tick m3)) as (v & Ev). rewrite Ev in X. destruct X as (-> & ->).
  cbn beta iota. cbn [negb].
  assert (S4 : neverStopped env -> stopRequested (runState m4) = false).
  { intros Hn. apply K4; [exact Hn|]. apply K3; [exact Hn|exact S2]. }
  destruct (Loop m4 (proj1 K4) S4) as (r5 & m5 & evs5 & (E5 & K5 & T5 & B5) & Q5).
  rewrite (bind_eq E5).
  exists ([AGENT_STATUS true (Some (dateNow env (tick m1))) None (logs (runState m1))]
          ++ [AGENT_LOG (stamp env (tick m2) (lit "Injecting content script..."))]
          ++ (ExecuteScript tabId :: evs4')), r5, m5, evs5.
  split; [exact Q5|]. split; [destruct r5 as [[]| |]; reflexivity|].
  split; [apply K5|]. split.
  { destruct K5 as (_ & _ & _ & S5 & _). destruct K4 as (_ & _ & _ & S4' & _).
    destruct K3 as (_ & _ & _ & S3 & _). rewrite S5, S4', S3. reflexivity. }
  split.
  { rewrite T5, T4, T3. cbn [trace m2]. rewrite <- !app_assoc. reflexivity. }
  split.
  { repeat (rewrite calls_app || rewrite calls_cons || rewrite calls_nil).
    cbn [is_call app]. rewrite (reported_calls env evs4' R4). reflexivity. }
  split.
  { repeat (apply Forall_app; split); auto. constructor; [exact I|constructor]. }
  split.
  { destruct K5 as (_ & _ & S5 & _). destruct K4 as (_ & _ & S4' & _).
    destruct K3 as (_ & _ & S3 & _). rewrite S5, S4', S3. reflexivity. }
  exists evs4'. split; [reflexivity|exact R4].
Qed.

(** X2: when Number(maxSteps) is not at least 1 (0, a fraction below
    1, a negative number, NaN), a run whose injection succeeds takes no
    step: it ends idle, and the injection is the only request it makes
    of the browser. *)
Theorem no_step_below_one fuel tabId instruction m0 settings m1 :
  running (runState m0) = false ->
  getSettings env m0 = (Ok settings, m1) ->
  truthy (apiKey settings) = true ->
  num_leb (ofZ 1) (ToNumber (maxSteps settings)) = false ->
  (forall t, exists v, executeScript env t = Fulfilled v) ->
  exists m' evs,
    runAgent env fuel tabId instruction m0 = (Ok tt, m')
    /\ idle (runState m')
    /\ trace m' = trace m1 ++ evs
    /\ calls evs = [ExecuteScript tabId].
Proof.
  intros H G K Hmax Inj.
  destruct (runAgent_around_loop fuel tabId instruction m0 settings m1
              (fun r _ evs => r = Ok tt /\ evs = []) H G K Inj)
    as (before & r & m5 & evs & (-> & ->) & R & H5 & _ & T & C & _).
  { intros m Hm _. destruct fuel; cbn [agentLoop]; rewrite Hmax;
      apply runs_ret; auto. }
  rewrite R, finishRun_eq. eexists. eexists. split; [reflexivity|].
  split.
  { unfold idle. cbn [runState running stopRequested stoppedAt].
    repeat split; try reflexivity. discriminate. }
  split.
  { cbn [trace]. rewrite T, app_nil_r, <- app_assoc. reflexivity. }
  repeat (rewrite calls_app || rewrite calls_cons || rewrite calls_nil).
  cbn [is_call]. rewrite C. reflexivity.
Qed.

Section Perceiving.
Variables (settings : Settings) (tabId instruction : Value).
Hypothesis Hper : perceiving env settings instruction.

Let opts := collectOptionsOf settings.

Lemma runs_collect_answering m :
  running (runState m) = true ->
  runs env (collect env settings opts tabId) m
    (fun r m' evs =>
       exists state shot shots,
         r = Ok (state, shot)
         /\ (forall step b, exists p,
               buildPrompt instruction state step (maxSteps settings) b = Ok p)
         /\ calls evs = TabsSendMessage tabId (COLLECT_STATE opts) :: shots
         /\ Forall (shot_call tabId) shots).
Proof.
  intros H. destruct Hper as (_ & Hstate).
  destruct (truthy (fastMode settings)) eqn:F.
  - eapply runs_conseq; [apply runs_collect_fast; auto|].
    cbn beta. intros r m' evs _ (-> & evs' & -> & R).
    destruct (Hstate (tick m) opts) as (state & -> & Hp).
    exists state, VNull, []. rewrite calls_cons. cbn [is_call].
    rewrite (reported_calls env evs' R). auto.
  - eapply runs_conseq; [apply runs_collect_normal; auto|].
    cbn beta. intros r m' evs _ ((t & shot & ->) & evs' & -> & R).
    destruct (Hstate t opts) as (state & -> & Hp).
    exists state, shot, (TabsGet tabId :: calls evs'). rewrite !calls_cons. cbn [is_call].
    repeat split; auto. constructor; [left; reflexivity|apply (calls_capture env); auto].
Qed.

(** A step up to the call of the service. *)
Lemma runs_stepBody_called step m (Qt : Res Flow -> Machine -> list Event -> Prop) :
  running (runState m) = true ->
  stopRequested (runState m) = false ->
  (forall prompt shot m',
     running (runState m') = true ->
     stopRequested (runState m') = false ->
     runs env
       (called <- orBreak (callGemini env (apiKey settings) (model settings) prompt shot)
                    (fun message => log env message) ;;
        match called with
        | None => ret Break
        | Some modelResponse =>
            parsed <- orBreak (lift (parseAgentResponse modelResponse))
                        (fun message =>
                           log env (lit "Failed to parse model JSON: " ++ message)) ;;
            match parsed with
            | None => ret Break
            | Some agentResponse => decided env settings tabId agentResponse
            end
        end) m' Qt) ->
  runs env (stepBody env settings opts tabId instruction step) m
    (fun r m' evs =>
       exists evs1 evs2 shots,
         evs = evs1 ++ evs2
         /\ calls evs1 = TabsSendMessage tabId (COLLECT_STATE opts) :: shots
         /\ Forall (shot_call tabId) shots
         /\ Qt r m' evs2).
Proof.
  intros H Hs Tail. pose proof Hper as (Hnever & _). unfold stepBody.
  eapply runs_bind; [apply runs_getRunState; auto|].
  intros r0 m0 evs0 K0 (-> & -> & ->). rewrite Hs.
  eapply runs_bind; [apply runs_log; auto|].
  intros r1 m1 evs1 K1 (-> & ->).
  eapply runs_bind.
  { eapply runs_orBreak with
      (Q := fun r _ evs =>
         exists state shot shots,
           r = Ok (Some (state, shot))
           /\ (forall step b, exists p,
                 buildPrompt instruction state step (maxSteps settings) b = Ok p)
           /\ calls evs = TabsSendMessage tabId (COLLECT_STATE opts) :: shots
           /\ Forall (shot_call tabId) shots);
      [apply runs_collect_answering; apply K1|].
    intros r2 m2 evs2 K2 (state & shot & shots & -> & Hp & C & S).
    exists state, shot, shots. auto. }
  intros r2 m2 evs2 K2 (state & shot & shots & -> & Hp & C2 & S2).
  destruct (Hp step (truthy shot)) as (promptText & Ep). rewrite Ep.
  eapply runs_bind; [apply runs_lift_eq; apply K2|].
  intros r3 m3 evs3 K3 (-> & ->).
  assert (S3 : stopRequested (runState m3) = false).
  { apply K3; auto. apply K2; auto. apply K1; auto. }
  eapply runs_conseq; [apply (Tail promptText shot m3 (proj1 K3) S3)|].
  cbn beta. intros r m' evs _ HQ.
  exists ([AGENT_LOG (stamp env (tick m)
             (lit "Collecting state (step " ++ NumberToString (ofZ step) ++ lit "/"
              ++ ToString (maxSteps settings) ++ lit ")..."))] ++ evs2), evs, shots.
  split; [flatten_events; reflexivity|]. split; [|auto].
  rewrite calls_app, calls_cons, calls_nil, C2. reflexivity.
Qed.

(** The step of a loop that ends there. *)
Lemma runs_agentLoop_last fuel m (Qt : Res Flow -> Machine -> list Event -> Prop) :
  num_leb (ofZ 1) (ToNumber (maxSteps settings)) = true ->
  running (runState m) = true ->
  runs env (stepBody env settings opts tabId instruction 1) m
    (fun r m' evs => Qt r m' evs /\ r <> Ok Continue) ->
  runs env (agentLoop env (S fuel) settings opts tabId instruction 1) m
    (fun r m' evs =>
       exists flow,
         Qt flow m' evs
         /\ r = match flow with
                | Ok _ => Ok tt
                | Throw e => Throw e
                | Stuck w => Stuck w
                end).
Proof.
  intros Hmax H Step. cbn [agentLoop]. rewrite Hmax.
  eapply runs_bind; [exact Step|].
  intros r1 m1 evs1 K1 (HQ & Nc).
  destruct r1 as [[|]| |].
  - apply runs_ret; [apply K1|]. rewrite app_nil_r. exists (Ok Break). auto.
  - contradiction Nc. reflexivity.
  - exists (Throw message). auto.
  - exists (Stuck why). auto.
Qed.

End Perceiving.

Section Decisions.
Variables (settings : Settings) (tabId instruction : Value) (kind : Value -> Prop).
Hypothesis Hans : answering env settings instruction kind.

Let opts := collectOptionsOf settings.

(** A step up to its decision, then whatever the decision leads to. *)
Lemma runs_stepBody_decided step m (Qt : Res Flow -> Machine -> list Event -> Prop) :
  running (runState m) = true ->
  stopRequested (runState m) = false ->
  (forall decision m',
     kind decision -> running (runState m') = true ->
     stopRequested (runState m') = false ->
     runs env (decided env settings tabId decision) m' Qt) ->
  runs env (stepBody env settings opts tabId instruction step) m
    (fun r m' evs =>
       exists evs1 evs2,
         evs = evs1 ++ evs2
         /\ decision_calls settings opts tabId (calls evs1)
         /\ Qt r m' evs2).
Proof.
  intros H Hs Tail. pose proof Hans as (Hper & Hmodel). pose proof Hper as (Hnever & _).
  eapply runs_conseq.
  { apply (runs_stepBody_called settings tabId instruction Hper step m
             (fun r m' evs =>
                exists evs4 evs', evs = evs4 ++ evs'
                  /\ (exists u body, calls evs4 = [Fetch u (apiKey settings) body])
                  /\ Qt r m' evs') H Hs).
    intros prompt shot m3 H3 S3.
    eapply runs_bind.
    { eapply runs_orBreak with
        (Q := fun r _ evs =>
           exists response decision u body,
             r = Ok (Some response)
             /\ parseAgentResponse response = Ok decision
             /\ kind decision
             /\ calls evs = [Fetch u (apiKey settings) body]);
        [apply runs_callGemini; exact H3|].
      intros r4 m4 evs4 K4 (-> & u & body & evs4' & -> & R4).
      destruct (Hmodel (tick m3)) as (response & decision & -> & Ed & Kd).
      exists response, decision, u, body. split; auto. split; auto. split; auto.
      rewrite calls_cons. cbn [is_call]. rewrite (reported_calls env evs4' R4).
      reflexivity. }
    intros r4 m4 evs4 K4 (response & decision & u & body & -> & Ed & Kd & C4).
    eapply runs_bind.
    { eapply runs_orBreak with
        (Q := fun r _ evs => r = Ok (Some decision) /\ evs = []);
        [apply runs_lift_eq; apply K4|].
      intros r5 m5 evs5 K5 (-> & ->). rewrite Ed. auto. }
    intros r5 m5 evs5 K5 (-> & ->).
    assert (S5 : stopRequested (runState m5) = false).
    { apply K5; auto. apply K4; auto. }
    eapply runs_conseq; [apply (Tail decision m5 Kd (proj1 K5) S5)|].
    cbn beta. intros r m' evs _ HQ. exists evs4, evs. cbn [app]. eauto. }
  cbn beta. intros r m' evs _ (evs1 & evs2 & shots & -> & C1 & S1 & evs4 & evs' & -> & (u & body & C4) & HQ).
  exists (evs1 ++ evs4), evs'. split; [rewrite app_assoc; reflexivity|]. split; [|exact HQ].
  rewrite calls_app, C1, C4. exists shots, u, body. auto.
Qed.

(** The loop when its first step ends it. *)
Lemma runs_agentLoop_once fuel m (Qt : Res Flow -> Machine -> list Event -> Prop) :
  num_leb (ofZ 1) (ToNumber (maxSteps settings)) = true ->
  running (runState m) = true ->
  stopRequested (runState m) = false ->
  (forall decision m',
     kind decision -> running (runState m') = true ->
     stopRequested (runState m') = false ->
     runs env (decided env settings tabId decision) m'
       (fun r m2 evs => Qt r m2 evs /\ r <> Ok Continue)) ->
  runs env (agentLoop env (S fuel) settings opts tabId instruction 1) m
    (fun r m' evs =>
       exists evs1 evs2 flow,
         evs = evs1 ++ evs2
         /\ decision_calls settings opts tabId (calls evs1)
         /\ Qt flow m' evs2
         /\ r = match flow with
                | Ok _ => Ok tt
                | Throw e => Throw e
                | Stuck w => Stuck w
                end).
Proof.
  intros Hmax H Hs Tail. cbn [agentLoop]. rewrite Hmax.
  eapply runs_bind; [apply (runs_stepBody_decided 1 m _ H Hs Tail)|].
  intros r1 m1 evs1 K1 (evsa & evsb & -> & D & HQ & Nc).
  destruct r1 as [[|]| |].
  - apply runs_ret; [apply K1|]. rewrite app_nil_r.
    exists evsa, evsb, (Ok Break). auto.
  - contradiction Nc. reflexivity.
  - exists evsa, evsb, (Throw message). auto.
  - exists evsa, evsb, (Stuck why). auto.
Qed.

End Decisions.

Lemma runs_decided_done settings tabId decision m :
  is_done decision ->
  running (runState m) = true ->
  runs env (decided env settings tabId decision) m
    (fun r m' evs => (r = Ok Break /\ calls evs = []) /\ r <> Ok Continue).
Proof.
  intros (Nd & Dd) H. unfold decided, readProp. rewrite Nd.
  eapply runs_bind; [apply runs_lift_eq; auto|].
  intros r1 m1 evs1 K1 (-> & ->).
  eapply runs_bind with (Q1 := fun r _ evs => r = Ok tt /\ calls evs = []).
  { destruct (truthy (getProp decision (lit "plan"))).
    - eapply runs_conseq; [apply runs_log; apply K1|].
      cbn beta. intros r m' evs _ (-> & ->). auto.
    - apply runs_ret; [apply K1|]. auto. }
  intros r2 m2 evs2 K2 (-> & C2). rewrite Dd.
  eapply runs_bind; [apply runs_log; apply K2|].
  intros r3 m3 evs3 K3 (-> & ->).
  apply runs_ret; [apply K3|]. flatten_events.
  split; [|discriminate]. split; [reflexivity|].
  rewrite calls_app, C2, calls_cons, calls_nil. reflexivity.
Qed.

(** X3: when the first decision is done, the run ends after that
    step: it ends idle, and its requests to the browser are the
    injection, the state request (with its screenshot requests) and one
    call of the service; no action is sent to the tab, whatever actions
    the decision lists. *)
Theorem done_ends_run fuel tabId instruction m0 settings m1 :
  running (runState m0) = false ->
  getSettings env m0 = (Ok settings, m1) ->
  truthy (apiKey settings) = true ->
  num_leb (ofZ 1) (ToNumber (maxSteps settings)) = true ->
  (forall t, exists v, executeScript env t = Fulfilled v) ->
  answering env settings instruction is_done ->
  exists m' evs cs,
    runAgent env (S fuel) tabId instruction m0 = (Ok tt, m')
    /\ idle (runState m')
    /\ trace m' = trace m1 ++ evs
    /\ calls evs = ExecuteScript tabId :: cs
    /\ decision_calls settings (collectOptionsOf settings) tabId cs.
Proof.
  intros H G K Hmax Inj Hans.
  destruct (runAgent_around_loop (S fuel) tabId instruction m0 settings m1 _ H G K Inj
              (fun m Hm Sm =>
                 runs_agentLoop_once settings tabId instruction is_done Hans fuel m
                   (fun r _ evs => r = Ok Break /\ calls evs = []) Hmax Hm
                   (Sm (proj1 (proj1 Hans)))
                   (fun decision m' Kd Hm' _ =>
                      runs_decided_done settings tabId decision m' Kd Hm')))
    as (before & r & m5 & evs & (evs1 & evs2 & flow & -> & D & (-> & C2) & ->)
        & R & H5 & _ & T & C & _).
  rewrite R, finishRun_eq. eexists. eexists. exists (calls evs1).
  split; [reflexivity|]. split.
  { unfold idle. cbn [runState running stopRequested stoppedAt].
    repeat split; try reflexivity. discriminate. }
  split.
  { cbn [trace]. rewrite T, <- !app_assoc. reflexivity. }
  split; [|exact D].
  repeat (rewrite calls_app || rewrite calls_cons || rewrite calls_nil).
  cbn [is_call]. rewrite C, C2, !app_nil_r. reflexivity.
Qed.

Lemma runs_decided_null settings tabId decision m :
  nullish decision = true ->
  running (runState m) = true ->
  runs env (decided env settings tabId decision) m
    (fun r m' evs =>
       (r = Throw (typeErrorMessage (lit "plan")) /\ evs = []) /\ r <> Ok Continue).
Proof.
  intros Nd H. unfold decided, readProp. rewrite Nd.
  eapply runs_bind; [apply runs_lift_eq; auto|].
  intros r1 m1 evs1 K1 (-> & ->). cbn [recast]. split; [auto|discriminate].
Qed.

(** X5: when the reply parses to null, reading its plan throws
    outside every try block: runAgent is rejected with the TypeError,
    and the run is left as it was, running true and stoppedAt null, with
    no status of an idle agent sent. *)
Theorem null_decision_strands_run fuel tabId instruction m0 settings m1 :
  running (runState m0) = false ->
  getSettings env m0 = (Ok settings, m1) ->
  truthy (apiKey settings) = true ->
  num_leb (ofZ 1) (ToNumber (maxSteps settings)) = true ->
  (forall t, exists v, executeScript env t = Fulfilled v) ->
  answering env settings instruction (fun decision => nullish decision = true) ->
  exists m' evs,
    runAgent env (S fuel) tabId instruction m0
    = (Throw (typeErrorMessage (lit "plan")), m')
    /\ running (runState m') = true
    /\ stoppedAt (runState m') = None
    /\ trace m' = trace m1 ++ evs
    /\ Forall busy evs.
Proof.
  intros H G K Hmax Inj Hans.
  destruct (runAgent_around_loop (S fuel) tabId instruction m0 settings m1 _ H G K Inj
              (fun m Hm Sm =>
                 runs_agentLoop_once settings tabId instruction _ Hans fuel m
                   (fun r _ evs => r = Throw (typeErrorMessage (lit "plan")) /\ evs = [])
                   Hmax Hm (Sm (proj1 (proj1 Hans)))
                   (fun decision m' Kd Hm' _ =>
                      runs_decided_null settings tabId decision m' Kd Hm')))
    as (before & r & m5 & evs & (evs1 & evs2 & flow & -> & D & (-> & ->) & ->)
        & R & H5 & S5 & T & C & B & _).
  rewrite R. exists m5, (before ++ evs1 ++ []). auto.
Qed.

Lemma runs_undecided settings tabId prompt shot m :
  running (runState m) = true ->
  (forall t, exists entry, undecided (fetchReply env t) entry) ->
  runs env
    (called <- orBreak (callGemini env (apiKey settings) (model settings) prompt shot)
                 (fun message => log env message) ;;
     match called with
     | None => ret Break
     | Some modelResponse =>
         parsed <- orBreak (lift (parseAgentResponse modelResponse))
                     (fun message =>
                        log env (lit "Failed to parse model JSON: " ++ message)) ;;
         match parsed with
         | None => ret Break
         | Some agentResponse => decided env settings tabId agentResponse
         end
     end) m
    (fun r m' evs =>
       (r = Ok Break
        /\ (exists u body, calls evs = [Fetch u (apiKey settings) body])
        /\ exists t t' entry,
             undecided (fetchReply env t) entry
             /\ In (AGENT_LOG (stamp env t' entry)) evs)
       /\ r <> Ok Continue).
Proof.
  intros H Hu. destruct (Hu (tick m)) as (entry & U). unfold undecided in U.
  eapply runs_bind.
  { eapply runs_orBreak with
      (Q := fun r _ evs =>
         (exists u body, calls evs = [Fetch u (apiKey settings) body])
         /\ ((r = Ok None /\ exists t', In (AGENT_LOG (stamp env t' entry)) evs
                                       /\ geminiResult (fetchReply env (tick m)) = Throw entry)
             \/ (exists response, r = Ok (Some response)
                                  /\ geminiResult (fetchReply env (tick m)) = Ok response)));
      [apply runs_callGemini; exact H|].
    intros r1 m1 evs1 K1 (-> & u & body & evs1' & -> & R1).
    assert (C1 : calls (Fetch u (apiKey settings) body :: evs1')
                 = [Fetch u (apiKey settings) body]).
    { rewrite calls_cons. cbn [is_call]. rewrite (reported_calls env evs1' R1).
      reflexivity. }
    destruct (geminiResult (fetchReply env (tick m))) as [response|e|w] eqn:G.
    - split; [eauto|]. right. eauto.
    - eapply runs_conseq; [apply runs_log; apply K1|].
      cbn beta. intros r m' evs _ (-> & ->). cbn [res_map]. split.
      + rewrite calls_app, C1, calls_cons, calls_nil. cbn [is_call app]. eauto.
      + left. split; [reflexivity|]. exists (tick m1).
        destruct U as [U|(response & message & U & _)]; [|discriminate U].
        injection U as <-. split; [|reflexivity].
        apply in_or_app. right. left. reflexivity.
    - destruct U as [U|(response & message & U & _)]; discriminate U. }
  intros r1 m1 evs1 K1 ((u & body & C1) & [(-> & t' & I1 & G)|(response & -> & G)]).
  - apply runs_ret; [apply K1|]. rewrite app_nil_r.
    split; [|discriminate]. split; [reflexivity|]. split; [eauto|].
    exists (tick m), t', entry. split; [left; exact G|exact I1].
  - rewrite G in U.
    destruct U as [U|(response' & message & U & P & ->)]; [discriminate U|].
    injection U as <-.
    eapply runs_bind.
    { eapply runs_orBreak with
        (Q := fun r _ evs =>
           r = Ok None
           /\ calls evs = []
           /\ exists t', In (AGENT_LOG (stamp env t'
                               (lit "Failed to parse model JSON: " ++ message))) evs);
        [apply runs_lift_eq; apply K1|].
      intros r2 m2 evs2 K2 (-> & ->). rewrite P.
      eapply runs_conseq; [apply runs_log; apply K2|].
      cbn beta. intros r m' evs _ (-> & ->). cbn [res_map app].
      split; [reflexivity|]. split; [reflexivity|]. exists (tick m2). left. reflexivity. }
    intros r2 m2 evs2 K2 (-> & C2 & t' & I2).
    apply runs_ret; [apply K2|]. rewrite app_nil_r.
    split; [|discriminate]. split; [reflexivity|]. split.
    + rewrite calls_app, C1, C2. cbn [app]. eauto.
    + exists (tick m), t', (lit "Failed to parse model JSON: " ++ message). split.
      * right. exists response, message. auto.
      * apply in_or_app. right. exact I2.
Qed.

(** X4: when the call of the service fails or its reply does not
    parse, the run does not fail: the message (prefixed by Failed to
    parse model JSON for a reply that does not parse) is logged, the
    loop ends at that step, and the run ends idle after the injection,
    one state request and one call of the service. *)
Theorem undecided_step_ends_run fuel tabId instruction m0 settings m1 :
  running (runState m0) = false ->
  getSettings env m0 = (Ok settings, m1) ->
  truthy (apiKey settings) = true ->
  num_leb (ofZ 1) (ToNumber (maxSteps settings)) = true ->
  (forall t, exists v, executeScript env t = Fulfilled v) ->
  perceiving env settings instruction ->
  (forall t, exists entry, undecided (fetchReply env t) entry) ->
  exists m' evs cs,
    runAgent env (S fuel) tabId instruction m0 = (Ok tt, m')
    /\ idle (runState m')
    /\ trace m' = trace m1 ++ evs
    /\ calls evs = ExecuteScript tabId :: cs
    /\ decision_calls settings (collectOptionsOf settings) tabId cs
    /\ exists t t' entry,
         undecided (fetchReply env t) entry
         /\ In (AGENT_LOG (stamp env t' entry)) evs.
Proof.
  intros H G K Hmax Inj Hper Hu.
  destruct (runAgent_around_loop (S fuel) tabId instruction m0 settings m1
              (fun r m' evs =>
                 exists flow,
                   (exists evs1 evs2 shots,
                      evs = evs1 ++ evs2
                      /\ calls evs1
                         = TabsSendMessage tabId (COLLECT_STATE (collectOptionsOf settings))
                           :: shots
                      /\ Forall (shot_call tabId) shots
                      /\ flow = Ok Break
                      /\ (exists u body, calls evs2 = [Fetch u (apiKey settings) body])
                      /\ exists t t' entry,
                           undecided (fetchReply env t) entry
                           /\ In (AGENT_LOG (stamp env t' entry)) evs2)
                   /\ r = match flow with
                          | Ok _ => Ok tt
                          | Throw e => Throw e
                          | Stuck w => Stuck w
                          end) H G K Inj)
    as (before & r & m5 & evs & (flow & (evs1 & evs2 & shots & -> & C1 & S1
                                           & -> & (u & body & C2) & L) & ->)
        & R & H5 & _ & T & C & _).
  { intros m Hm Sm.
    apply (runs_agentLoop_last settings tabId instruction fuel m _ Hmax Hm).
    eapply runs_conseq.
    { apply (runs_stepBody_called settings tabId instruction Hper 1 m _ Hm
               (Sm (proj1 Hper))
               (fun prompt shot m' Hm' _ =>
                  runs_undecided settings tabId prompt shot m' Hm' Hu)). }
    cbn beta. intros r m' evs _ (evs1 & evs2 & shots & -> & C1 & S1 & (X & Y & Z) & Nc).
    split; [|exact Nc]. exists evs1, evs2, shots. auto 10. }
  rewrite R, finishRun_eq. eexists. eexists.
  exists (TabsSendMessage tabId (COLLECT_STATE (collectOptionsOf settings))
          :: shots ++ [Fetch u (apiKey settings) body]).
  split; [reflexivity|]. split.
  { unfold idle. cbn [runState running stopRequested stoppedAt].
    repeat split; try reflexivity. discriminate. }
  split.
  { cbn [trace]. rewrite T, <- !app_assoc. reflexivity. }
  split.
  { repeat (rewrite calls_app || rewrite calls_cons || rewrite calls_nil).
    cbn [is_call]. rewrite C, C1, C2, !app_nil_r. reflexivity. }
  split; [exists shots, u, body; auto|].
  destruct L as (t & t' & entry & U & I1). exists t, t', entry. split; [exact U|].
  rewrite !in_app_iff. auto 6.
Qed.

End Runs.

(** *** Replies wrapped in prose *)

Lemma indexOf_skips c pre rest :
  forallb (fun x => negb (N.eqb x c)) pre = true ->
  indexOf c (pre ++ c :: rest) = Some (List.length pre).
Proof.
  induction pre as [|x pre IH]; cbn [forallb app indexOf List.length]; intros H.
  - rewrite N.eqb_refl. reflexivity.
  - apply andb_prop in H as (Hx & H). apply negb_true_iff in Hx. rewrite Hx, (IH H).
    reflexivity.
Qed.

Lemma indexOf_none c s :
  forallb (fun x => negb (N.eqb x c)) s = true -> indexOf c s = None.
Proof.
  induction s as [|x s IH]; cbn [forallb indexOf]; intros H; [reflexivity|].
  apply andb_prop in H as (Hx & H). apply negb_true_iff in Hx. rewrite Hx, (IH H).
  reflexivity.
Qed.

Lemma lastIndexOf_skips c front post :
  forallb (fun x => negb (N.eqb x c)) post = true ->
  lastIndexOf c (front ++ c :: post) = Some (List.length front).
Proof.
  intros H. unfold lastIndexOf. rewrite rev_app_distr. cbn [rev]. rewrite <- app_assoc.
  cbn [app]. rewrite indexOf_skips.
  - rewrite length_rev, length_app. cbn [List.length]. f_equal. lia.
  - rewrite forallb_forall in *. intros x Hx. apply H. apply in_rev. exact Hx.
Qed.

(** X6: when the text of a reply does not parse as JSON,
    parseAgentResponse parses the text from its first opening brace to
    its last closing brace instead: for a text with no opening brace
    before the object and no closing brace after it, the answer is that
    of JSON.parse on the object alone. *)
Theorem reply_in_prose_is_recovered {E : Engine} response pre inner post e :
  extractResponseText response = Ok (pre ++ 123%N :: inner ++ 125%N :: post) ->
  JSON_parse (pre ++ 123%N :: inner ++ 125%N :: post) = Throw e ->
  forallb (fun x => negb (N.eqb x 123)) pre = true ->
  forallb (fun x => negb (N.eqb x 125)) post = true ->
  parseAgentResponse response = JSON_parse (123%N :: inner ++ [125%N]).
Proof.
  intros Hx Hp Hpre Hpost. unfold parseAgentResponse. rewrite Hx. cbn [res_bind].
  remember (pre ++ 123%N :: inner ++ 125%N :: post) as raw eqn:Raw.
  destruct raw as [|c raw]; [destruct pre; discriminate Raw|].
  rewrite Raw in *. unfold JSON_parse_retry. rewrite Hp.
  rewrite (indexOf_skips 123 pre _ Hpre).
  replace (pre ++ 123%N :: inner ++ 125%N :: post)
    with ((pre ++ 123%N :: inner) ++ 125%N :: post)
    by (rewrite <- app_assoc; reflexivity).
  rewrite (lastIndexOf_skips 125 _ post Hpost). f_equal.
  unfold slice. rewrite <- app_assoc. cbn [app].
  rewrite skipn_app, skipn_all, Nat.sub_diag. cbn [skipn app].
  rewrite length_app. cbn [List.length].
  replace (List.length pre + S (List.length inner) + 1 - List.length pre)%nat
    with (List.length (123%N :: inner ++ [125%N]))
    by (cbn [List.length]; rewrite length_app; cbn [List.length]; lia).
  replace (123%N :: inner ++ 125%N :: post) with ((123%N :: inner ++ [125%N]) ++ post)
    by (cbn [app]; rewrite <- app_assoc; reflexivity).
  rewrite firstn_app, Nat.sub_diag, firstn_all. cbn [firstn]. rewrite app_nil_r.
  reflexivity.
Qed.

(** *** The key of config.js *)

(** X7: loadEnvApiKey never fails and imports config.js at most once:
    it caches the key it answers, and answers the cached key afterwards
    without touching the browser.  With nothing cached, it makes one
    import; a rejected import gives the empty key, and a module whose
    GEMINI_API_KEY is a string gives that string, trimmed. *)
Theorem config_key_is_cached {E : Engine} (env : Env) m :
  arrivals env (tick m) = [] ->
  exists k m',
    loadEnvApiKey env m = (Ok k, m')
    /\ cachedEnvKey m' = Some k
    /\ loadEnvApiKey env m' = (Ok k, m')
    /\ runState m' = runState m
    /\ (trace m' = trace m \/ trace m' = trace m ++ [ImportConfig])
    /\ (cachedEnvKey m = None ->
        trace m' = trace m ++ [ImportConfig]
        /\ (forall e, importConfig env (tick m) = Rejected e -> k = [])
        /\ (forall mod_ key,
              importConfig env (tick m) = Fulfilled mod_ ->
              nullish mod_ = false ->
              getProp mod_ (lit "GEMINI_API_KEY") = VStr key -> k = trim key)).
Proof.
  intros Hq. unfold loadEnvApiKey at 1.
  erewrite bind_eq by reflexivity. cbn beta iota.
  destruct (cachedEnvKey m) as [k|] eqn:C.
  - exists k, m. split; [reflexivity|]. split; [exact C|]. split.
    + unfold loadEnvApiKey. erewrite bind_eq by reflexivity. cbn beta iota. rewrite C.
      reflexivity.
    + split; [reflexivity|]. split; [left; reflexivity|]. discriminate.
  - assert (A : await env ImportConfig (importConfig env) m
                = (Ok (importConfig env (tick m)),
                   mkMachine (runState m) None (trace m ++ [ImportConfig]) (S (tick m)))).
    { unfold await, resume. erewrite bind_eq by reflexivity. cbn beta iota.
      erewrite bind_eq by reflexivity. cbn beta iota.
      cbn [tick emit]. rewrite Hq. cbn [forEach]. rewrite C. reflexivity. }
    assert (Again : forall k rs tr tk,
              loadEnvApiKey env (mkMachine rs (Some k) tr tk)
              = (Ok k, mkMachine rs (Some k) tr tk)).
    { intros. unfold loadEnvApiKey. erewrite bind_eq by reflexivity. reflexivity. }
    destruct (importConfig env (tick m)) as [mod_|e] eqn:I.
    + destruct (nullish mod_) eqn:Nm.
      * eexists. eexists. split.
        { erewrite tryCatch_eq.
          2:{ rewrite (bind_eq A). cbn beta iota. unfold settle.
              erewrite bind_eq by reflexivity. cbn beta iota.
              unfold readProp. rewrite Nm. reflexivity. }
          cbn beta iota. reflexivity. }
        cbn. repeat split; auto; try discriminate.
        intros ? ? X. injection X as <-. rewrite Nm. discriminate.
      * eexists. eexists. split.
        { erewrite tryCatch_eq.
          2:{ rewrite (bind_eq A). cbn beta iota. unfold settle.
              erewrite bind_eq by reflexivity. cbn beta iota.
              unfold readProp. rewrite Nm.
              erewrite bind_eq by reflexivity. cbn beta iota. reflexivity. }
          cbn beta iota. reflexivity. }
        cbn. repeat split; auto; try discriminate.
        intros ? ? X _ Y. injection X as <-. rewrite Y. reflexivity.
    + eexists. eexists. split.
      { erewrite tryCatch_eq.
        2:{ rewrite (bind_eq A). cbn beta iota. unfold settle. reflexivity. }
        cbn beta iota. reflexivity. }
      cbn. repeat split; auto; try discriminate.
Qed.

(** *** The prompt *)

Lemma mapLines_lines {E : Engine} els : forall index lines,
  mapLines index els = Ok lines ->
  List.length lines = List.length els
  /\ forall i line,
       nth_error lines i = Some line ->
       exists el, nth_error els i = Some el /\ elementLine (index + i) el = Ok line.
Proof.
  induction els as [|el els IH]; intros index lines; cbn [mapLines].
  - intros H. injection H as <-. split; [reflexivity|]. intros [|i] line X; discriminate X.
  - destruct (elementLine index el) as [line0| |] eqn:L; cbn [res_bind]; try discriminate.
    destruct (mapLines (S index) els) as [rest| |] eqn:M; cbn [res_bind]; try discriminate.
    intros H. injection H as <-. destruct (IH (S index) rest M) as (Hl & Hn).
    split; [cbn [List.length]; rewrite Hl; reflexivity|].
    intros [|i] line X; cbn [nth_error] in *.
    + injection X as <-. exists el. rewrite Nat.add_0_r. auto.
    + destruct (Hn i line X) as (el' & A & B). exists el'. split; [exact A|].
      rewrite <- B. f_equal. lia.
Qed.

Lemma Ok_inj {A} (a b : A) : Ok a = Ok b -> a = b.
Proof. intros H. injection H as ->. reflexivity. Qed.

(** X8: the prompt ends with the line Interactive elements:, the
    lines of the elements and the text snippet if there is one.  The
    lines are those of the first 80 elements of the state, in order, the
    i-th being elementLine i of the i-th element; the elements after the
    80th are not listed. *)
Theorem prompt_lists_eighty {E : Engine} instruction state step maxSteps shot prompt els :
  buildPrompt instruction state step maxSteps shot = Ok prompt ->
  getProp state (lit "elements") = VArr els ->
  exists header lines,
    prompt = header ++ lit "Interactive elements:" ++ nl ++ join nl lines ++ nl ++ nl
             ++ (if truthy (getProp state (lit "textSnippet"))
                 then lit "Page text snippet:" ++ nl
                      ++ ToString (getProp state (lit "textSnippet"))
                 else [])
    /\ List.length lines = Nat.min 80 (List.length els)
    /\ forall i line,
         nth_error lines i = Some line ->
         exists el, nth_error els i = Some el /\ elementLine i el = Ok line.
Proof.
  unfold buildPrompt, readProp. intros H Hels.
  destruct (nullish state); [discriminate H|]. cbn [res_bind] in H. rewrite Hels in H.
  destruct (nullish (getProp state (lit "viewport"))); [discriminate H|].
  cbn [res_bind] in H.
  destruct (mapLines 0 (firstn 80 els)) as [lines| |] eqn:M; cbn [res_bind] in H;
    try discriminate H.
  apply Ok_inj in H. subst prompt. destruct (mapLines_lines _ _ _ M) as (Hl & Hn).
  eexists. exists lines. split; [|split].
  - cbv zeta. rewrite !app_assoc. reflexivity.
  - rewrite Hl, length_firstn. reflexivity.
  - intros i line X. destruct (Hn i line X) as (el & A & B). exists el. split; [|exact B].
    assert (Hi : (i < List.length (firstn 80 els))%nat)
      by (apply nth_error_Some; rewrite A; discriminate).
    rewrite length_firstn in Hi. rewrite nth_error_firstn in A.
    destruct (Nat.ltb_spec i 80); [exact A|lia].
Qed.

(** *** In the example browser *)

Import Examples.
#[local] Existing Instance Reference.engine.

Lemma start_while_running_witness :
  runAgent env 5 (VInt 9) (VLit "again") runningMachine
  = (Ok tt,
     mkMachine
       (mkRunState true false tab [stamp env 5 (lit "Agent already running.")]
          (Some 1700000000000%Z) None)
       (Some []) [AGENT_LOG (stamp env 5 (lit "Agent already running."))] 6)
  /\ onMessage env (POPUP_START (VInt 9) (VLit "again")) runningMachine
     = (Ok tt,
        mkMachine
          (mkRunState true false tab [stamp env 5 (lit "Agent already running.")]
             (Some 1700000000000%Z) None)
          (Some [])
          [AGENT_LOG (stamp env 5 (lit "Agent already running."));
           SendResponse (VObj [field "ok" (VBool true)])]
          6).
Proof.
  exact (start_while_running env 5 (VInt 9) (VLit "again") runningMachine eq_refl).
Defined.


Lemma injection_failure_witness :
  exists m' t1 evs e t2,
    runAgent envBlocked 5 tab task initialMachine = (Ok tt, m')
    /\ running (runState m') = false
    /\ stoppedAt (runState m') = None
    /\ trace m' =
       trace (configured envBlocked)
       ++ [AGENT_STATUS true (Some (dateNow envBlocked (tick (configured envBlocked))))
             None (logs (runState (configured envBlocked)));
           AGENT_LOG (stamp envBlocked t1 (lit "Injecting content script..."));
           ExecuteScript tab]
       ++ evs
       ++ [AGENT_LOG (stamp envBlocked t2 (lit "Failed to inject content script: " ++ e))]
    /\ Forall (reported envBlocked) evs.
Proof.
  apply (injection_failure_skips_finish envBlocked 5 tab task initialMachine settings
           (configured envBlocked)).
  - reflexivity.
  - vm_compute. reflexivity.
  - reflexivity.
  - intros t. eexists. reflexivity.
Defined.


Lemma step_budget_witness :
  exists m' evs,
    runAgent env 5 tab task initialMachine = (Ok tt, m')
    /\ idle (runState m')
    /\ trace m' = trace (configured env) ++ evs
    /\ exists cs,
         calls evs = ExecuteScript tab :: cs
         /\ cycles settings (collectOptionsOf settings) tab (Z.to_nat 2) cs.
Proof.
  apply (step_budget env 2 5 tab task initialMachine settings (configured env)).
  - lia.
  - vm_compute. lia.
  - reflexivity.
  - vm_compute. reflexivity.
  - reflexivity.
  - reflexivity.
  - intros t. eexists. reflexivity.
  - split; [|split].
    + intros t. reflexivity.
    + intros t opts. exists state0. split; [reflexivity|].
      intros step shot. eexists. reflexivity.
    + intros t. exists (valueOf (geminiResult (fetchReply env 0))).
      exists (valueOf (JSON_parse (quoted clickGo))). exists click.
      repeat split; vm_compute; reflexivity.
Defined.


Ltac found := vm_compute; repeat (first [left; reflexivity | right]).



Import Cases.

Lemma no_step_below_one_witness :
  exists m' evs,
    runAgent envNone 5 tab task initialMachine = (Ok tt, m')
    /\ idle (runState m')
    /\ trace m' = trace (configured envNone) ++ evs
    /\ calls evs = [ExecuteScript tab].
Proof.
  apply (no_step_below_one envNone 5 tab task initialMachine settingsNone
           (configured envNone)).
  - reflexivity.
  - vm_compute. reflexivity.
  - reflexivity.
  - vm_compute. reflexivity.
  - intros t. eexists. reflexivity.
Defined.

Lemma done_ends_run_witness :
  exists m' evs cs,
    runAgent envDone 5 tab task initialMachine = (Ok tt, m')
    /\ idle (runState m')
    /\ trace m' = trace (configured envDone) ++ evs
    /\ calls evs = ExecuteScript tab :: cs
    /\ decision_calls settings (collectOptionsOf settings) tab cs.
Proof.
  apply (done_ends_run envDone 4 tab task initialMachine settings (configured envDone)).
  - reflexivity.
  - vm_compute. reflexivity.
  - reflexivity.
  - vm_compute. reflexivity.
  - intros t. eexists. reflexivity.
  - split; [split|].
    + intros t. reflexivity.
    + intros t opts. exists state0. split; [reflexivity|].
      intros step shot. eexists. reflexivity.
    + intros t. exists (valueOf (geminiResult (fetchReply envDone 0))).
      exists (valueOf (JSON_parse (quoted allSet))).
      split; [vm_compute; reflexivity|]. split; [vm_compute; reflexivity|].
      split; vm_compute; reflexivity.
Defined.

Lemma null_decision_strands_run_witness :
  exists m' evs,
    runAgent envNull 5 tab task initialMachine
    = (Throw (typeErrorMessage (lit "plan")), m')
    /\ running (runState m') = true
    /\ stoppedAt (runState m') = None
    /\ trace m' = trace (configured envNull) ++ evs
    /\ Forall busy evs.
Proof.
  apply (null_decision_strands_run envNull 4 tab task initialMachine settings
           (configured envNull)).
  - reflexivity.
  - vm_compute. reflexivity.
  - reflexivity.
  - vm_compute. reflexivity.
  - intros t. eexists. reflexivity.
  - split; [split|].
    + intros t. reflexivity.
    + intros t opts. exists state0. split; [reflexivity|].
      intros step shot. eexists. reflexivity.
    + intros t. exists (valueOf (geminiResult (fetchReply envNull 0))). exists VNull.
      split; [vm_compute; reflexivity|]. split; vm_compute; reflexivity.
Defined.

Lemma undecided_step_ends_run_witness :
  exists m' evs cs,
    runAgent envProse 5 tab task initialMachine = (Ok tt, m')
    /\ idle (runState m')
    /\ trace m' = trace (configured envProse) ++ evs
    /\ calls evs = ExecuteScript tab :: cs
    /\ decision_calls settings (collectOptionsOf settings) tab cs
    /\ exists t t' entry,
         undecided (fetchReply envProse t) entry
         /\ In (AGENT_LOG (stamp envProse t' entry)) evs.
Proof.
  apply (undecided_step_ends_run envProse 4 tab task initialMachine settings
           (configured envProse)).
  - reflexivity.
  - vm_compute. reflexivity.
  - reflexivity.
  - vm_compute. reflexivity.
  - intros t. eexists. reflexivity.
  - split.
    + intros t. reflexivity.
    + intros t opts. exists state0. split; [reflexivity|].
      intros step shot. eexists. reflexivity.
  - intros t.
    exists (lit "Failed to parse model JSON: "
            ++ messageOf (parseAgentResponse
                            (valueOf (geminiResult (fetchReply envProse 0))))).
    right. exists (valueOf (geminiResult (fetchReply envProse 0))).
    exists (messageOf (parseAgentResponse
                         (valueOf (geminiResult (fetchReply envProse 0))))).
    split; [vm_compute; reflexivity|]. split; [vm_compute; reflexivity|reflexivity].
Defined.

Lemma reply_in_prose_is_recovered_witness :
  parseAgentResponse proseReply = JSON_parse (123%N :: decisionInside ++ [125%N]).
Proof.
  apply (reply_in_prose_is_recovered proseReply sure decisionInside thanks
           (messageOf (JSON_parse (sure ++ 123%N :: decisionInside ++ 125%N :: thanks)))).
  - vm_compute. reflexivity.
  - vm_compute. reflexivity.
  - vm_compute. reflexivity.
  - vm_compute. reflexivity.
Defined.

Lemma config_key_is_cached_witness :
  exists k m',
    loadEnvApiKey env initialMachine = (Ok k, m')
    /\ cachedEnvKey m' = Some k
    /\ loadEnvApiKey env m' = (Ok k, m')
    /\ runState m' = runState initialMachine
    /\ (trace m' = trace initialMachine
        \/ trace m' = trace initialMachine ++ [ImportConfig])
    /\ (cachedEnvKey initialMachine = None ->
        trace m' = trace initialMachine ++ [ImportConfig]
        /\ (forall e, importConfig env (tick initialMachine) = Rejected e -> k = [])
        /\ (forall mod_ key,
              importConfig env (tick initialMachine) = Fulfilled mod_ ->
              nullish mod_ = false ->
              getProp mod_ (lit "GEMINI_API_KEY") = VStr key -> k = trim key)).
Proof.
  apply (config_key_is_cached env initialMachine). reflexivity.
Defined.

Lemma prompt_lists_eighty_witness :
  exists header lines,
    textOf (buildPrompt task state0 1 (VInt 2) false)
    = header ++ lit "Interactive elements:" ++ nl ++ join nl lines ++ nl ++ nl
      ++ (if truthy (getProp state0 (lit "textSnippet"))
          then lit "Page text snippet:" ++ nl
               ++ ToString (getProp state0 (lit "textSnippet"))
          else [])
    /\ List.length lines = Nat.min 80 (List.length stateElements)
    /\ forall i line,
         nth_error lines i = Some line ->
         exists el, nth_error stateElements i = Some el /\ elementLine i el = Ok line.
Proof.
  apply (prompt_lists_eighty task state0 1 (VInt 2) false
           (textOf (buildPrompt task state0 1 (VInt 2) false)) stateElements).
  - vm_compute. reflexivity.
  - vm_compute. reflexivity.
Defined.

End BackgroundFacts.

(** ** The popup script *)

Module PopupFacts.
Import JS Popup.
Arguments lit : simpl never.

(** *** The elapsed time *)

Lemma Qfloor_thousandth z : Qfloor (inject_Z z / 1000) = (z / 1000)%Z.
Proof. cbn. rewrite Z.mul_1_r. reflexivity. Qed.

Lemma pow_10_21 : (10 ^ 21 = 1000000000000000000000)%Z.
Proof. reflexivity. Qed.

Lemma pow_2_53 : (2 ^ 53 = 9007199254740992)%Z.
Proof. reflexivity. Qed.

Lemma NumberToString_small {E : Engine} n :
  (0 <= n < 10 ^ 21)%Z -> NumberToString (ofZ n) = N_to_str (Z.to_N n).
Proof.
  intros H. unfold NumberToString, ofZ, is_integer. rewrite Qfloor_Z.
  rewrite (proj2 (Qeq_bool_iff _ _) (Qeq_refl _)).
  replace (Z.abs n <? 10 ^ 21)%Z with true
    by (symmetry; apply Z.ltb_lt; rewrite pow_10_21 in *; lia).
  cbn [andb]. unfold Z_to_str.
  replace (n <? 0)%Z with false by (symmetry; apply Z.ltb_ge; lia).
  f_equal. lia.
Qed.

Lemma split_on_nonempty c s : split_on c s <> [].
Proof.
  destruct s as [|x r]; cbn [split_on]; [discriminate|].
  destruct (split_on c r); [discriminate|]. destruct (N.eqb x c); discriminate.
Qed.

Lemma split_on_part c a : forall rest,
  forallb (fun x => negb (N.eqb x c)) a = true ->
  split_on c (a ++ c :: rest) = a :: split_on c rest.
Proof.
  induction a as [|x a IH]; intros rest H; cbn [app split_on].
  - rewrite N.eqb_refl. destruct (split_on c rest) eqn:S; [|reflexivity].
    contradiction (split_on_nonempty c rest S).
  - cbn [forallb] in H. apply andb_prop in H as (Hx & H). apply negb_true_iff in Hx.
    rewrite (IH rest H), Hx. reflexivity.
Qed.

Lemma split_on_last c a :
  forallb (fun x => negb (N.eqb x c)) a = true -> split_on c a = [a].
Proof.
  induction a as [|x a IH]; intros H; cbn [split_on]; [reflexivity|].
  cbn [forallb] in H. apply andb_prop in H as (Hx & H). apply negb_true_iff in Hx.
  rewrite (IH H), Hx. reflexivity.
Qed.

Lemma digits_no_colon d :
  forallb Content.is_digit d = true -> forallb (fun x => negb (N.eqb x 58)) d = true.
Proof.
  intros H. apply forallb_forall. intros x Hx.
  pose proof (proj1 (forallb_forall _ _) H x Hx) as D. unfold Content.is_digit in D.
  apply andb_prop in D as (_ & D). apply N.leb_le in D.
  destruct (N.eqb_spec x 58); [lia|reflexivity].
Qed.

Lemma value_zeros k d : ContentSpec.value (repeat 48%N k ++ d) 0 = ContentSpec.value d 0.
Proof. induction k as [|k IH]; [reflexivity|]. cbn [repeat app ContentSpec.value]. exact IH. Qed.

(** The digits of a number, padded: what they are worth, and that they
    hold no colon. *)
Lemma padded {E : Engine} n :
  (0 <= n < 10 ^ 21)%Z ->
  ContentSpec.value (padStart2 (NumberToString (ofZ n))) 0 = Z.to_N n
  /\ forallb (fun x => negb (N.eqb x 58)) (padStart2 (NumberToString (ofZ n))) = true.
Proof.
  intros H. rewrite (NumberToString_small n H).
  destruct (ContentFacts.N_to_str_spec (Z.to_N n)) as (d & -> & Dd & _ & Vd).
  unfold padStart2. split.
  - rewrite value_zeros. exact Vd.
  - rewrite forallb_app. rewrite (digits_no_colon d Dd), andb_true_r.
    apply forallb_forall. intros x Hx. apply repeat_spec in Hx. subst x. reflexivity.
Qed.

Lemma two_digits {E : Engine} n :
  (0 <= n < 100)%Z -> List.length (padStart2 (NumberToString (ofZ n))) = 2%nat.
Proof.
  intros H. rewrite (NumberToString_small n ltac:(rewrite pow_10_21; lia)). unfold padStart2.
  rewrite length_app, repeat_length.
  assert (L : (1 <= List.length (N_to_str (Z.to_N n)) <= 2)%nat).
  { unfold N_to_str. set (k := Z.to_N n). assert (Hk : (k < 100)%N) by lia.
    rewrite ContentFacts.digits_fuel_S.
    destruct (N.ltb_spec k 10); [cbn; lia|].
    assert (L2 : (3 <= N.log2 k)%N).
    { apply N.log2_le_pow2; [lia|]. cbn. lia. }
    destruct (N.to_nat (N.log2 k)) as [|f] eqn:F; [lia|].
    rewrite ContentFacts.digits_fuel_S.
    destruct (N.ltb_spec (k / 10) 10) as [_|X]; [cbn; lia|].
    exfalso. assert (k / 10 < 10)%N; [|lia].
    apply N.Div0.div_lt_upper_bound. lia. }
  lia.
Qed.

(** X14: for a whole number of milliseconds from 0 up to 2^53,
    formatElapsed gives a clock whose parts, read in base 60, are the
    whole seconds elapsed; below one hour the clock is five characters
    long (mm:ss). *)
Theorem formatElapsed_reads_back {E : Engine} z :
  (0 <= z < 2 ^ 53)%Z ->
  readClock (formatElapsed (ofZ z)) = Z.to_N (z / 1000)
  /\ ((z < 3600000)%Z -> List.length (formatElapsed (ofZ z)) = 5%nat).
Proof.
  intros H. rewrite pow_2_53 in H. unfold formatElapsed.
  change (ofZ z) with (Fin (inject_Z z)). cbv beta iota.
  replace (Qle_bool 0 (inject_Z z)) with true
    by (symmetry; apply Qle_bool_iff; unfold Qle; cbn; lia).
  cbn [negb]. rewrite Qfloor_thousandth. cbv zeta.
  set (total := (z / 1000)%Z).
  assert (Ht : (0 <= total < 10000000000000000)%Z).
  { unfold total. split; [apply Z.div_pos; lia|].
    apply Z.div_lt_upper_bound; lia. }
  assert (Hh : (0 <= total / 3600 < 10 ^ 21)%Z).
  { rewrite pow_10_21. split; [apply Z.div_pos; lia|].
    apply Z.div_lt_upper_bound; lia. }
  assert (Hm : (0 <= total mod 3600 / 60 < 60)%Z).
  { pose proof (Z.mod_pos_bound total 3600 ltac:(lia)).
    split; [apply Z.div_pos; lia|]. apply Z.div_lt_upper_bound; lia. }
  assert (Hs : (0 <= total mod 60 < 60)%Z) by (apply Z.mod_pos_bound; lia).
  destruct (padded (total / 3600) Hh) as (Vh & Ch).
  destruct (padded (total mod 3600 / 60) ltac:(rewrite pow_10_21; lia)) as (Vm & Cm).
  destruct (padded (total mod 60) ltac:(rewrite pow_10_21; lia)) as (Vs & Cs).
  assert (Sum : (total = 3600 * (total / 3600) + 60 * (total mod 3600 / 60)
                         + total mod 60)%Z).
  { pose proof (Z.div_mod total 3600 ltac:(lia)).
    pose proof (Z.div_mod (total mod 3600) 60 ltac:(lia)).
    assert ((total mod 3600) mod 60 = total mod 60)%Z.
    { apply Z.mod_mod_divide. exists 60%Z. reflexivity. }
    lia. }
  change (lit ":") with [58%N].
  destruct (Z.ltb_spec 0 (total / 3600)) as [Hpos|Hzero].
  - split.
    + unfold readClock. cbn [app].
      rewrite (split_on_part 58 _ _ Ch), (split_on_part 58 _ _ Cm), (split_on_last 58 _ Cs).
      cbn [fold_left]. rewrite Vh, Vm, Vs. lia.
    + intros Hlt. exfalso. unfold total in Hpos.
      assert (z / 1000 < 3600)%Z by (apply Z.div_lt_upper_bound; lia).
      rewrite Z.div_small in Hpos; lia.
  - split.
    + unfold readClock. cbn [app].
      rewrite (split_on_part 58 _ _ Cm), (split_on_last 58 _ Cs).
      cbn [fold_left]. rewrite Vm, Vs. lia.
    + intros _. rewrite length_app. cbn [List.length app].
      rewrite (two_digits (total mod 3600 / 60) ltac:(lia)),
        (two_digits (total mod 60) ltac:(lia)). reflexivity.
Qed.

(** *** An example *)

#[local] Existing Instance Reference.engine.

Lemma formatElapsed_reads_back_witness :
  readClock (formatElapsed (ofZ 3725000)) = Z.to_N (3725000 / 1000)
  /\ ((3725000 < 3600000)%Z -> List.length (formatElapsed (ofZ 3725000)) = 5%nat).
Proof.
  apply (formatElapsed_reads_back 3725000). split; [lia|reflexivity].
Defined.

End PopupFacts.

(** ** The popup with the background *)

Module ExtensionFacts.
Import JS Background BackgroundFacts.

#[local] Arguments bind_eq {A B c k m r m'} H.
#[local] Arguments Popup.formatElapsed : simpl never.
#[local] Arguments Popup.joinLines : simpl never.
#[local] Arguments stamp : simpl never.
#[local] Arguments lit : simpl never.

Lemma is_integer_whole {E : Engine} z : is_integer (inject_Z z) = true.
Proof. unfold is_integer. rewrite Qfloor_Z. apply Qeq_bool_iff. reflexivity. Qed.

Lemma timeOf_optZ {E : Engine} o : Popup.timeOf (optZ o) = Ok o.
Proof.
  destruct o as [z|]; [|reflexivity].
  unfold optZ, VInt, ofZ, Popup.timeOf. rewrite is_integer_whole, Qfloor_Z. reflexivity.
Qed.

(** *** Opening the popup *)

(** X15: the answer of the background to POPUP_GET_STATUS is always
    one the popup can show, and after it the popup mirrors the run
    state: its running flag, both buttons, both times and the log (with
    its text) are those of the background, and its timer runs when a
    run is in progress. *)
Theorem status_answer_is_shown {E : Engine} env m now s :
  exists response s',
    onMessage env POPUP_GET_STATUS m
    = (Ok tt, mkMachine (runState m) (cachedEnvKey m)
                (trace m ++ [SendResponse response]) (tick m))
    /\ Popup.onStatus now response s = Ok s'
    /\ Popup.running s' = running (runState m)
    /\ Popup.runDisabled s' = running (runState m)
    /\ Popup.stopDisabled s' = negb (running (runState m))
    /\ Popup.startedAt s' = startedAt (runState m)
    /\ Popup.stoppedAt s' = stoppedAt (runState m)
    /\ Popup.log s' = List.map VStr (logs (runState m))
    /\ Popup.logText s' = Popup.joinLines (List.map VStr (logs (runState m)))
    /\ (running (runState m) = true -> Popup.timer s' = true).
Proof.
  eexists. eexists. split; [reflexivity|].
  unfold Popup.onStatus.
  change (truthy (VObj _)) with true. cbn [negb].
  change (getProp _ (lit "running")) with (VBool (running (runState m))).
  change (getProp _ (lit "startedAt")) with (optZ (startedAt (runState m))).
  change (getProp _ (lit "stoppedAt")) with (optZ (stoppedAt (runState m))).
  change (getProp _ (lit "logs")) with (VArr (List.map VStr (logs (runState m)))).
  rewrite !timeOf_optZ. cbn [truthy].
  split; [reflexivity|].
  destruct (running (runState m)); cbn.
  - unfold Popup.startTimer. destruct (Popup.timer _) eqn:T; cbn; repeat split; auto.
  - repeat split; auto. discriminate.
Qed.

(** *** The settings the popup stores *)

(** X16: what the popup stores is what getSettings reads back.  The
    key is the cached key of config.js when that is not empty and the
    trimmed field otherwise; the model is the trimmed field, or the
    default when that is empty; maxSteps is a positive finite number,
    the field's when it is one (so 0.5 is kept) and 8 otherwise;
    stepDelayMs is the field's number when it is finite; fastMode is the
    checkbox. *)
Theorem saved_settings_are_read {E : Engine} env inputs m k :
  cachedEnvKey m = Some k ->
  arrivals env (tick m) = [] ->
  storageGet env (tick m) = Fulfilled (Popup.saveSettings inputs) ->
  exists settings m',
    getSettings env m = (Ok settings, m')
    /\ apiKey settings
       = VStr (match k with [] => trim (Popup.apiKeyInput inputs) | _ => k end)
    /\ model settings
       = match trim (Popup.modelInput inputs) with
         | [] => DEFAULTS_model
         | name => VStr name
         end
    /\ (exists steps,
          maxSteps settings = VNum (Fin steps) /\ (0 < steps)%Q
          /\ (forall q, StringToNumber (Popup.maxStepsInput inputs) = Fin q ->
                        (0 < q)%Q -> steps = q))
    /\ (exists delay,
          stepDelayMs settings = VNum (Fin delay)
          /\ (forall q, StringToNumber (Popup.stepDelayMsInput inputs) = Fin q ->
                        delay = q))
    /\ fastMode settings = VBool (Popup.fastModeChecked inputs).
Proof.
  intros K A G. unfold getSettings, loadEnvApiKey.
  erewrite bind_eq.
  2:{ erewrite bind_eq by reflexivity. cbn beta iota. rewrite K. reflexivity. }
  cbn beta iota. unfold await, resume.
  erewrite bind_eq.
  2:{ erewrite bind_eq by reflexivity. cbn beta iota.
      erewrite bind_eq by reflexivity. cbn beta iota.
      erewrite bind_eq.
      2:{ cbn [tick]. rewrite A. reflexivity. }
      reflexivity. }
  cbn beta iota. cbn [tick] in *. rewrite G. cbn [settle].
  erewrite bind_eq by reflexivity. cbn beta iota.
  set (data := Popup.saveSettings inputs).
  assert (N : nullish data = false) by reflexivity.
  unfold readProp. rewrite N.
  change (getProp data (lit "apiKey")) with (VStr (trim (Popup.apiKeyInput inputs))).
  change (getProp data (lit "model")) with (VStr (trim (Popup.modelInput inputs))).
  change (getProp data (lit "fastMode")) with (VBool (Popup.fastModeChecked inputs)).
  change (getProp data (lit "maxSteps"))
    with (if isFinite (StringToNumber (Popup.maxStepsInput inputs))
             && num_ltb (ofZ 0) (StringToNumber (Popup.maxStepsInput inputs))
          then VNum (StringToNumber (Popup.maxStepsInput inputs))
          else Popup.defaults_maxSteps).
  change (getProp data (lit "stepDelayMs"))
    with (if isFinite (StringToNumber (Popup.stepDelayMsInput inputs))
          then VNum (StringToNumber (Popup.stepDelayMsInput inputs))
          else Popup.defaults_stepDelayMs).
  assert (Key : forall m1,
            (if truthy (VStr k) then ret (VStr k)
             else k0 <- lift (Ok (VStr (trim (Popup.apiKeyInput inputs)))) ;;
                  ret (or_else k0 (VStr []))) m1
            = (Ok (VStr (match k with
                         | [] => trim (Popup.apiKeyInput inputs)
                         | _ => k
                         end)), m1)).
  { intros m1. destruct k; cbn [truthy]; [|reflexivity].
    erewrite bind_eq by reflexivity. cbn beta iota. unfold or_else.
    destruct (trim (Popup.apiKeyInput inputs)); reflexivity. }
  rewrite (bind_eq (Key _)).
  cbn beta iota. unfold lift.
  do 4 (erewrite bind_eq by reflexivity; cbn beta iota).
  eexists. eexists. split; [reflexivity|].
  cbn [apiKey model maxSteps stepDelayMs fastMode].
  split; [reflexivity|].
  split.
  { unfold or_else. destruct (trim (Popup.modelInput inputs)); reflexivity. }
  split.
  { destruct (StringToNumber (Popup.maxStepsInput inputs)) as [| | |q] eqn:S;
      cbn [isFinite andb num_ltb ofZ].
    1-3: exists 8%Q; split; [reflexivity|split; [reflexivity|discriminate]].
    destruct (Qle_bool q (inject_Z 0)) eqn:L; cbn [negb coalesce nullish].
    - exists 8%Q. split; [reflexivity|]. split; [reflexivity|].
      intros q' [= <-] Hq. apply Qle_bool_iff in L. exfalso.
      apply (Qlt_not_le _ _ Hq). exact L.
    - exists q. split; [reflexivity|]. split.
      + apply Qnot_le_lt. intros C. apply Qle_bool_iff in C.
        change (inject_Z 0) with 0%Q in L. congruence.
      + intros q' [= <-] _. reflexivity. }
  split.
  { destruct (StringToNumber (Popup.stepDelayMsInput inputs)) as [| | |q] eqn:S;
      cbn [isFinite coalesce nullish].
    1-3: exists 0%Q; split; [reflexivity|discriminate].
    exists q. split; [reflexivity|]. intros q' [= <-]. reflexivity. }
  reflexivity.
Qed.

(** *** The popup during a run *)

Lemma handle_app {E : Engine} a : forall s b,
  Popup.handle s (a ++ b) = Popup.handle (Popup.handle s a) b.
Proof.
  induction a as [|[now message] a IH]; intros s b; cbn [app Popup.handle];
    [reflexivity|apply IH].
Qed.

(** What a status leaves in the popup. *)
Lemma onMessage_status {E : Engine} now r a b l s :
  let s' := Popup.onMessage now (AGENT_STATUS r a b l) s in
  Popup.running s' = r
  /\ Popup.runDisabled s' = r
  /\ Popup.stopDisabled s' = negb r
  /\ Popup.timer s' = r
  /\ Popup.startedAt s' = Popup.orTime a (Popup.startedAt s)
  /\ Popup.stoppedAt s' = Popup.orTime b (Popup.stoppedAt s)
  /\ Popup.log s' = match l with [] => Popup.log s | _ => List.map VStr l end
  /\ Popup.logText s'
     = match l with [] => Popup.logText s | _ => Popup.joinLines (List.map VStr l) end.
Proof.
  intros s'. subst s'. destruct s as [r0 l0 a0 b0 t0 x0 d0 e0 c0].
  destruct r, t0, l; repeat split.
Qed.

(** The clock after the status of an idle agent that carries both times. *)
Lemma onMessage_status_clock {E : Engine} now a b l s :
  Popup.elapsedText (Popup.onMessage now (AGENT_STATUS false (Some a) (Some b) l) s)
  = if negb (a =? 0)%Z
    then Popup.formatElapsed (ofZ ((if negb (b =? 0)%Z then b else now) - a))
    else lit "00:00".
Proof.
  destruct s as [r0 l0 a0 b0 t0 x0 d0 e0 c0]. destruct t0, l; reflexivity.
Qed.

(** A popup that shows a run goes on showing it while no status reports
    an idle agent. *)
Lemma showsRun_kept {E : Engine} arrived : forall s,
  Forall busy (List.map snd arrived) -> Popup.showsRun s -> Popup.showsRun (Popup.handle s arrived).
Proof.
  induction arrived as [|[now message] rest IH]; intros s B S; cbn [Popup.handle];
    [exact S|].
  cbn [List.map snd] in B. inversion B as [|? ? Bm Br]; subst.
  apply IH; [exact Br|]. destruct S as (S1 & S2 & S3 & S4).
  destruct message as [entry|r a b l| | | | | | | | |]; cbn [Popup.onMessage];
    try (repeat split; assumption).
  destruct r; [|contradiction Bm]. unfold Popup.startTimer.
  destruct l; cbn; rewrite S4; cbn; repeat split; assumption.
Qed.

Lemma first_status_showsRun {E : Engine} now a b l s :
  Popup.showsRun (Popup.onMessage now (AGENT_STATUS true a b l) s).
Proof.
  unfold Popup.showsRun. cbn [Popup.onMessage]. unfold Popup.startTimer.
  destruct l; cbn; destruct (Popup.timer s) eqn:Ts; cbn; rewrite ?Ts; repeat split.
Qed.

(** X17: a popup that receives everything a run sends, from its
    first status on, shows an idle agent once the run has finished:
    running false, Run enabled, Stop disabled, no timer, the times of
    the background, and the elapsed time between them.  Unless the log
    was cleared just before the end, its log is then exactly the
    background's, whatever it held before. *)
Theorem popup_after_run {E : Engine} env fuel tabId instruction m0 settings m1 m' :
  running (runState m0) = false ->
  getSettings env m0 = (Ok settings, m1) ->
  truthy (apiKey settings) = true ->
  (forall t, exists v, executeScript env t = Fulfilled v) ->
  runAgent env fuel tabId instruction m0 = (Ok tt, m') ->
  forall p arrived,
    trace m' = trace m1 ++ List.map snd arrived ->
    let p' := Popup.handle p arrived in
    Popup.running p' = false
    /\ Popup.runDisabled p' = false
    /\ Popup.stopDisabled p' = true
    /\ Popup.timer p' = false
    /\ Popup.startedAt p' = startedAt (runState m')
    /\ Popup.stoppedAt p' = stoppedAt (runState m')
    /\ (forall started stopped,
          startedAt (runState m') = Some started ->
          stoppedAt (runState m') = Some stopped ->
          started <> 0%Z -> stopped <> 0%Z ->
          Popup.elapsedText p' = Popup.formatElapsed (ofZ (stopped - started)))
    /\ ((2 <= List.length (logs (runState m')))%nat ->
        Popup.log p' = List.map VStr (logs (runState m'))
        /\ Popup.logText p' = Popup.joinLines (List.map VStr (logs (runState m')))).
Proof.
  intros H G K Inj R p arrived T.
  destruct (runAgent_around_loop env fuel tabId instruction m0 settings m1 _ H G K Inj
              (fun m Hm _ => sound_agentLoop env settings (collectOptionsOf settings)
                               tabId instruction fuel 1 m Hm))
    as (before & r & m5 & evs & _ & R' & H5 & S5 & T5 & _ & _ & A5 & _).
  rewrite R in R'. destruct r as [[]|e|w]; try discriminate R'.
  rewrite finishRun_eq in R'. injection R' as ->.
  cbn [trace runState] in T. rewrite T5, <- !app_assoc in T.
  apply app_inv_head in T. rewrite app_assoc in T. symmetry in T.
  apply map_eq_app in T as (x & y & -> & _ & Y).
  destruct y as [|[n1 e1] [|[n2 e2] [|]]]; try discriminate Y.
  cbn [List.map snd] in Y. injection Y as -> ->.
  intros p'. subst p'. rewrite handle_app. set (q := Popup.handle p x).
  cbn [runState startedAt stoppedAt logs]. rewrite A5.
  cbn [Popup.handle].
  set (started := dateNow env (tick m1)). set (stopped := dateNow env (tick m5)).
  destruct (onMessage_status n1 false (Some started) (Some stopped)
              (logs (runState m5)) q) as (F1 & F2 & F3 & F4 & F5 & F6 & F7 & F8).
  pose proof (onMessage_status_clock n1 started stopped (logs (runState m5)) q) as F9.
  set (q' := Popup.onMessage n1 _ q) in *.
  cbn [Popup.onMessage]. unfold Popup.appendLog.
  cbn [Popup.running Popup.log Popup.startedAt Popup.stoppedAt Popup.timer
       Popup.logText Popup.runDisabled Popup.stopDisabled Popup.elapsedText].
  rewrite F1, F2, F3, F4, F5, F6, F7, F9. cbn [Popup.orTime negb].
  do 6 (split; [reflexivity|]). split.
  - intros a b [= <-] [= <-] Ha Hb.
    destruct (Z.eqb_spec started 0); [contradiction|].
    destruct (Z.eqb_spec stopped 0); [contradiction|]. reflexivity.
  - intros Len. destruct (logs (runState m5)) as [|l0 ls].
    + cbn [app List.length] in Len. lia.
    + rewrite List.map_app. split; reflexivity.
Qed.

(** A run whose injection is rejected: what it sends. *)
Lemma runAgent_blocked {E : Engine} env fuel tabId instruction m0 settings m1 :
  running (runState m0) = false ->
  getSettings env m0 = (Ok settings, m1) ->
  truthy (apiKey settings) = true ->
  (forall t, exists e, executeScript env t = Rejected e) ->
  exists m' a b l evs,
    runAgent env fuel tabId instruction m0 = (Ok tt, m')
    /\ running (runState m') = false
    /\ trace m' = trace m1 ++ AGENT_STATUS true a b l :: evs
    /\ Forall busy evs.
Proof.
  intros H G K Inj.
  rewrite (runAgent_started env fuel tabId instruction m0 settings m1 H G K).
  rewrite (bind_eq (startRun_eq env tabId m1)). cbn beta iota.
  match goal with |- context [bind _ _ ?m] => set (m2 := m) end.
  assert (H2 : running (runState m2) = true) by reflexivity.
  destruct (runs_log env (lit "Injecting content script...") m2 H2)
    as (r3 & m3 & evs3 & (E3 & K3 & T3 & B3) & -> & ->).
  rewrite (bind_eq E3). cbn beta iota.
  destruct (runs_ensureContentScript env tabId m3 (proj1 K3))
    as (r4 & m4 & evs4 & (E4 & K4 & T4 & B4) & evs4' & R4 & X).
  rewrite (bind_eq E4).
  destruct (Inj (tick m3)) as (e & Ev). rewrite Ev in X. destruct X as (-> & t2 & ->).
  cbn beta iota. cbn [negb].
  eexists. eexists. eexists. eexists. eexists. split; [reflexivity|].
  cbn [runState running trace]. split; [reflexivity|]. split.
  - rewrite T4, T3. cbn [trace m2]. rewrite <- !app_assoc. reflexivity.
  - apply Forall_app. split; assumption.
Qed.

(** X18: when the injection is rejected the background ends with
    running false, but a popup that received what the run sent still
    shows the run: running true, Run disabled, Stop enabled and the
    timer going, since no status of an idle agent was sent. *)
Theorem popup_after_failed_injection {E : Engine} env fuel tabId instruction
    m0 settings m1 :
  running (runState m0) = false ->
  getSettings env m0 = (Ok settings, m1) ->
  truthy (apiKey settings) = true ->
  (forall t, exists e, executeScript env t = Rejected e) ->
  exists m',
    runAgent env fuel tabId instruction m0 = (Ok tt, m')
    /\ running (runState m') = false
    /\ forall p arrived,
         trace m' = trace m1 ++ List.map snd arrived ->
         let p' := Popup.handle p arrived in
         Popup.running p' = true
         /\ Popup.runDisabled p' = true
         /\ Popup.stopDisabled p' = false
         /\ Popup.timer p' = true.
Proof.
  intros H G K Inj.
  destruct (runAgent_blocked env fuel tabId instruction m0 settings m1 H G K Inj)
    as (m' & a & b & l & evs & R & Hr & T & B).
  exists m'. split; [exact R|]. split; [exact Hr|].
  intros p arrived T'. rewrite T in T'. apply app_inv_head in T'.
  destruct arrived as [|[now e] rest]; [discriminate T'|].
  cbn [List.map snd] in T'. injection T' as <- ->.
  intros p'. subst p'. cbn [Popup.handle]. apply showsRun_kept; [exact B|]. apply first_status_showsRun.
Qed.

(** *** The Stop button *)

(** X19: the Stop button sends POPUP_STOP and appends the line Stop
    requested to the popup's log; the background sets stopRequested,
    leaves running as it is and answers with a status.  When the
    background's log is not empty, that status replaces the popup's log
    by it, so the line Stop requested is gone. *)
Theorem stop_line_is_replaced {E : Engine} env m now s :
  logs (runState m) <> [] ->
  exists s1 m' status,
    Popup.stopRun s = (s1, [Popup.Send POPUP_STOP])
    /\ Popup.log s1 = Popup.log s ++ [VLit "Stop requested."]
    /\ onMessage env POPUP_STOP m = (Ok tt, m')
    /\ stopRequested (runState m') = true
    /\ running (runState m') = running (runState m)
    /\ trace m' = trace m ++ [status; SendResponse (VObj [field "ok" (VBool true)])]
    /\ Popup.log (Popup.onMessage now status s1) = List.map VStr (logs (runState m))
    /\ Popup.logText (Popup.onMessage now status s1)
       = Popup.joinLines (List.map VStr (logs (runState m)))
    /\ Popup.running (Popup.onMessage now status s1) = running (runState m).
Proof.
  intros L.
  exists (Popup.appendLog (VLit "Stop requested.") s),
    (mkMachine
       (mkRunState (running (runState m)) true (tabId (runState m)) (logs (runState m))
          (startedAt (runState m)) (stoppedAt (runState m)))
       (cachedEnvKey m)
       (trace m
        ++ [AGENT_STATUS (running (runState m)) (startedAt (runState m))
              (stoppedAt (runState m)) (logs (runState m));
            SendResponse (VObj [field "ok" (VBool true)])])
       (tick m)),
    (AGENT_STATUS (running (runState m)) (startedAt (runState m))
       (stoppedAt (runState m)) (logs (runState m))).
  split; [reflexivity|]. split; [reflexivity|]. split.
  { unfold onMessage, sendStatus, getRunState, setRunState, emit, bind.
    cbn [runState cachedEnvKey trace tick running stopRequested tabId logs
         startedAt stoppedAt].
    rewrite <- app_assoc. reflexivity. }
  split; [reflexivity|]. split; [reflexivity|]. split; [reflexivity|].
  destruct (onMessage_status now (running (runState m)) (startedAt (runState m))
              (stoppedAt (runState m)) (logs (runState m))
              (Popup.appendLog (VLit "Stop requested.") s))
    as (R & _ & _ & _ & _ & _ & Lg & Lt).
  rewrite R, Lg, Lt. destruct (logs (runState m)); [contradiction|]. repeat split.
Qed.

(** *** In the example browser *)

Import Examples.
#[local] Existing Instance Reference.engine.
Import Cases.

Lemma saved_settings_are_read_witness :
  exists settings m',
    getSettings envSaved (configured envSaved) = (Ok settings, m')
    /\ apiKey settings = VStr (trim (Popup.apiKeyInput inputs))
    /\ model settings
       = match trim (Popup.modelInput inputs) with
         | [] => DEFAULTS_model
         | name => VStr name
         end
    /\ (exists steps,
          maxSteps settings = VNum (Fin steps) /\ (0 < steps)%Q
          /\ (forall q, StringToNumber (Popup.maxStepsInput inputs) = Fin q ->
                        (0 < q)%Q -> steps = q))
    /\ (exists delay,
          stepDelayMs settings = VNum (Fin delay)
          /\ (forall q, StringToNumber (Popup.stepDelayMsInput inputs) = Fin q ->
                        delay = q))
    /\ fastMode settings = VBool (Popup.fastModeChecked inputs).
Proof.
  apply (saved_settings_are_read envSaved inputs (configured envSaved) []).
  - vm_compute. reflexivity.
  - reflexivity.
  - reflexivity.
Defined.

Lemma popup_after_run_witness :
  Popup.running shown = false
  /\ Popup.runDisabled shown = false
  /\ Popup.stopDisabled shown = true
  /\ Popup.timer shown = false
  /\ Popup.startedAt shown = startedAt (runState finished)
  /\ Popup.stoppedAt shown = stoppedAt (runState finished)
  /\ (forall started stopped,
        startedAt (runState finished) = Some started ->
        stoppedAt (runState finished) = Some stopped ->
        started <> 0%Z -> stopped <> 0%Z ->
        Popup.elapsedText shown = Popup.formatElapsed (ofZ (stopped - started)))
  /\ ((2 <= List.length (logs (runState finished)))%nat ->
      Popup.log shown = List.map VStr (logs (runState finished))
      /\ Popup.logText shown = Popup.joinLines (List.map VStr (logs (runState finished)))).
Proof.
  unfold shown, finished.
  apply (popup_after_run env 5 tab task initialMachine settings (configured env)
           (snd (runAgent env 5 tab task initialMachine))).
  - reflexivity.
  - vm_compute. reflexivity.
  - reflexivity.
  - intros t. eexists. reflexivity.
  - vm_compute. reflexivity.
  - vm_compute. reflexivity.
Defined.

Lemma popup_after_failed_injection_witness :
  exists m',
    runAgent envBlocked 5 tab task initialMachine = (Ok tt, m')
    /\ running (runState m') = false
    /\ forall p arrived,
         trace m' = trace (configured envBlocked) ++ List.map snd arrived ->
         let p' := Popup.handle p arrived in
         Popup.running p' = true
         /\ Popup.runDisabled p' = true
         /\ Popup.stopDisabled p' = false
         /\ Popup.timer p' = true.
Proof.
  apply (popup_after_failed_injection envBlocked 5 tab task initialMachine settings
           (configured envBlocked)).
  - reflexivity.
  - vm_compute. reflexivity.
  - reflexivity.
  - intros t. eexists. reflexivity.
Defined.

Lemma stop_line_is_replaced_witness :
  exists s1 m' status,
    Popup.stopRun Popup.initialState = (s1, [Popup.Send POPUP_STOP])
    /\ Popup.log s1 = Popup.log Popup.initialState ++ [VLit "Stop requested."]
    /\ onMessage env POPUP_STOP loggedMachine = (Ok tt, m')
    /\ stopRequested (runState m') = true
    /\ running (runState m') = running (runState loggedMachine)
    /\ trace m' = trace loggedMachine
                  ++ [status; SendResponse (VObj [field "ok" (VBool true)])]
    /\ Popup.log (Popup.onMessage 1700000000100 status s1)
       = List.map VStr (logs (runState loggedMachine))
    /\ Popup.logText (Popup.onMessage 1700000000100 status s1)
       = Popup.joinLines (List.map VStr (logs (runState loggedMachine)))
    /\ Popup.running (Popup.onMessage 1700000000100 status s1)
       = running (runState loggedMachine).
Proof.
  apply (stop_line_is_replaced env loggedMachine 1700000000100 Popup.initialState).
  vm_compute. discriminate.
Defined.

End ExtensionFacts.
